(** * The Cyberiada state-machine editor: item tree, identifier index and
      tree adapter of [CyberiadaSMModel] (cyberiadasm_model.cpp) *)

From Stdlib Require Import ZArith Ascii String Floats.PrimFloat.
From stdpp Require Import gmap strings list fin_maps pretty.

(** ** Outcomes of a method call

    A call either returns, or spins in one of the two identifier loops
    ([Diverge]: the loop is still running when the fuel is spent), or
    dereferences a NULL or dangling pointer, which is also where a failed
    [MY_ASSERT] ends up ([Fault]). *)

Inductive result (A : Type) : Type :=
| Ok (a : A)
| Diverge
| Fault.
Arguments Ok {A} a.
Arguments Diverge {A}.
Arguments Fault {A}.

Definition bind {A B : Type} (r : result A) (k : A -> result B) : result B :=
  match r with
  | Ok a => k a
  | Diverge => Diverge
  | Fault => Fault
  end.

Notation "'let*' x ':=' r 'in' k" := (bind r (fun x => k))
  (at level 10, x pattern, r at level 100, k at level 200).

(** ** QString helpers used by the model *)

Definition digitValue (c : ascii) : option nat :=
  let n := nat_of_ascii c in
  if (48 <=? n)%nat && (n <=? 57)%nat then Some (n - 48)%nat else None.

(** The place markers of a string, as [QString::arg] finds them: a percent
    sign, an optional [L], then one or two decimal digits.  A percent sign
    followed by anything else is plain text. *)
Inductive ArgToken : Type :=
| Plain (c : ascii)
| Escape (n : nat) (raw : list ascii).

Fixpoint findArgEscapes (s : list ascii) : list ArgToken :=
  match s with
  | [] => []
  | c :: t =>
    if negb (Ascii.eqb c "%") then Plain c :: findArgEscapes t else
    match t with
    | [] => [Plain c]
    | c1 :: t1 =>
      if Ascii.eqb c1 "L" then
        match t1 with
        | [] => [Plain c; Plain c1]
        | c2 :: t2 =>
          match digitValue c2 with
          | None => Plain c :: Plain c1 :: findArgEscapes t1
          | Some d =>
            match t2 with
            | [] => [Escape d [c; c1; c2]]
            | c3 :: t3 =>
              match digitValue c3 with
              | Some d' => Escape (10 * d + d') [c; c1; c2; c3] :: findArgEscapes t3
              | None => Escape d [c; c1; c2] :: findArgEscapes t2
              end
            end
          end
        end
      else
        match digitValue c1 with
        | None => Plain c :: findArgEscapes t
        | Some d =>
          match t1 with
          | [] => [Escape d [c; c1]]
          | c2 :: t2 =>
            match digitValue c2 with
            | Some d' => Escape (10 * d + d') [c; c1; c2] :: findArgEscapes t2
            | None => Escape d [c; c1] :: findArgEscapes t1
            end
          end
        end
    end
  end.

Definition min_escape (ts : list ArgToken) : option nat :=
  foldr (fun t acc =>
           match t with
           | Plain _ => acc
           | Escape n _ =>
             match acc with
             | None => Some n
             | Some k => Some (Nat.min n k)
             end
           end) None ts.

(** [QString::arg(int)]: every occurrence of the lowest-numbered place marker
    is replaced by the decimal text of the argument; a string without a place
    marker is returned as it is (Qt only prints "Argument missing"). *)
Definition QString_arg (s : string) (a : Z) : string :=
  let ts := findArgEscapes (list_ascii_of_string s) in
  match min_escape ts with
  | None => s
  | Some k =>
    string_of_list_ascii
      (flat_map (fun t =>
                   match t with
                   | Plain c => [c]
                   | Escape n raw =>
                     if (n =? k)%nat then list_ascii_of_string (pretty a) else raw
                   end) ts)
  end.

Definition isSpace (c : ascii) : bool :=
  let n := nat_of_ascii c in
  ((9 <=? n)%nat && (n <=? 13)%nat) || (n =? 32)%nat.

Fixpoint trim_left (s : list ascii) : list ascii :=
  match s with
  | [] => []
  | c :: t => if isSpace c then trim_left t else s
  end.

(** [QString::trimmed]: white space removed at both ends. *)
Definition trimmed (s : string) : string :=
  string_of_list_ascii
    (rev (trim_left (rev (trim_left (list_ascii_of_string s))))).

(** ** The parsed document (the structures of the Cyberiada GraphML library)

    Coordinates are C doubles; the model only copies them. *)

Inductive CyberiadaNodeType : Type :=
| cybNodeInitial
| cybNodeComment
| cybNodeSimple
| cybNodeComplex.

#[global] Instance CyberiadaNodeType_eq_dec : EqDecision CyberiadaNodeType.
Proof. solve_decision. Defined.

Record CyberiadaPoint : Type := mkPoint { pt_x : float; pt_y : float }.

Record CyberiadaRect : Type :=
  mkRect { rect_x : float; rect_y : float; rect_width : float; rect_height : float }.

(** The fields of a [CyberiadaNode] apart from its two links. *)
Record NodeData : Type := mkNodeData {
  node_type : CyberiadaNodeType;
  node_id : string;
  node_title : string;
  node_action : string;
  geometry_rect : CyberiadaRect
}.

(** A [CyberiadaNode*]: NULL, or a node with its [children] and [next]
    links.  A sibling list is the chain of [next] links. *)
Inductive CyberiadaNode : Type :=
| NodeNull
| NodeCons (data : NodeData) (children next : CyberiadaNode).

(** An edge points at its two end nodes ([edge->source], [edge->target]);
    the model reads only their [id]. *)
Record CyberiadaEdge : Type := mkEdge {
  edge_id : string;
  edge_source : NodeData;
  edge_target : NodeData;
  edge_action : string;
  geometry_source_point : CyberiadaPoint;
  geometry_target_point : CyberiadaPoint;
  geometry_polyline : list CyberiadaPoint
}.

Record CyberiadaSM : Type := mkSM {
  doc_name : string;
  doc_version : string;
  nodes : CyberiadaNode;
  edges : list CyberiadaEdge
}.

Definition CYBERIADA_NO_ERROR : Z := 0.

(** ** Items

    The item classes (cyberiadasm_item.h/.cpp) are missing; they are modelled
    from the data model of the spec.  An item has a category tag, a link to
    its owner, the ordered sequence of the children it owns, and the
    attributes of its variant; a transition refers to its two end items
    without owning them.  Items live in a store and are named by their
    address; NULL is [None]. *)

Abbreviation ptr := nat (only parsing).
Abbreviation pointer := (option nat) (only parsing).

Inductive CyberiadaItemType : Type :=
| nodeRoot
| nodeSM
| nodeStatesAggr
| nodeTransitionsAggr
| nodeState
| nodeInitialState
| nodeComment
| nodeTransition
| nodeAction.

#[global] Instance CyberiadaItemType_eq_dec : EqDecision CyberiadaItemType.
Proof. solve_decision. Defined.

Record CyberiadaSMPoint : Type := mkSMPoint { sm_x : float; sm_y : float }.
Record CyberiadaSMSize : Type := mkSMSize { sm_width : float; sm_height : float }.

Record CyberiadaStateGeometry : Type :=
  mkStateGeometry { geom_position : CyberiadaSMPoint; geom_size : CyberiadaSMSize }.

Record CyberiadaTransitionGeometry : Type := mkTransitionGeometry {
  source_port : CyberiadaSMPoint;
  target_port : CyberiadaSMPoint;
  path : list CyberiadaSMPoint
}.

Inductive ItemGeometry : Type :=
| NoGeometry
| PointGeometry (p : CyberiadaSMPoint)
| StateGeometry (g : CyberiadaStateGeometry)
| TransitionGeometry (g : CyberiadaTransitionGeometry).

(** Modelled from the spec: the fields of the item classes, whose header
    cyberiadasm_item.h is missing.  Title, action text, geometry and the two
    end references are filled in as the variant has them and left empty
    otherwise. *)
Record Item : Type := mkItem {
  item_type : CyberiadaItemType;
  item_parent : pointer;
  item_children : list ptr;
  item_id : string;
  item_title : string;
  item_action : string;
  item_geometry : ItemGeometry;
  item_source : pointer;
  item_target : pointer
}.

Definition with_children (it : Item) (cs : list ptr) : Item :=
  mkItem (item_type it) (item_parent it) cs (item_id it) (item_title it)
         (item_action it) (item_geometry it) (item_source it) (item_target it).

Definition with_parent (it : Item) (p : pointer) : Item :=
  mkItem (item_type it) p (item_children it) (item_id it) (item_title it)
         (item_action it) (item_geometry it) (item_source it) (item_target it).

Definition with_title (it : Item) (t : string) : Item :=
  mkItem (item_type it) (item_parent it) (item_children it) (item_id it) t
         (item_action it) (item_geometry it) (item_source it) (item_target it).

(** ** The presentation layer's addresses and notifications *)

Record QModelIndex : Type := mkIndex {
  row : Z;
  column : Z;
  internalPointer : pointer;
  of_model : bool
}.

#[global] Instance QModelIndex_eq_dec : EqDecision QModelIndex.
Proof. solve_decision. Defined.

(** The default-constructed [QModelIndex()]. *)
Definition invalidIndex : QModelIndex := mkIndex (-1) (-1) None false.

Definition isValid (i : QModelIndex) : bool :=
  (0 <=? row i)%Z && (0 <=? column i)%Z && of_model i.

Definition createIndex (r c : Z) (p : pointer) : QModelIndex := mkIndex r c p true.

Inductive Signal : Type :=
| modelAboutToBeReset
| modelReset
| dataChanged (topLeft bottomRight : QModelIndex).

(** Qt::ItemDataRole *)
Definition DisplayRole : Z := 0.
Definition DecorationRole : Z := 1.
Definition EditRole : Z := 2.
Definition ToolTipRole : Z := 3.

(** ** The model object *)

Record Model : Type := mkModel {
  heap : list Item;
  root : pointer;
  sm_root : pointer;
  states_root : pointer;
  trans_root : pointer;
  states_map : gmap string ptr;
  sm_name : string;
  sm_version : string;
  cyberiadaStateMimeType : string;
  rand_calls : nat;
  signals : list Signal
}.

Definition set_heap (h : list Item) (m : Model) : Model :=
  mkModel h (root m) (sm_root m) (states_root m) (trans_root m) (states_map m)
          (sm_name m) (sm_version m) (cyberiadaStateMimeType m) (rand_calls m)
          (signals m).

Definition set_states_map (sm : gmap string ptr) (m : Model) : Model :=
  mkModel (heap m) (root m) (sm_root m) (states_root m) (trans_root m) sm
          (sm_name m) (sm_version m) (cyberiadaStateMimeType m) (rand_calls m)
          (signals m).

Definition set_rand_calls (n : nat) (m : Model) : Model :=
  mkModel (heap m) (root m) (sm_root m) (states_root m) (trans_root m)
          (states_map m) (sm_name m) (sm_version m) (cyberiadaStateMimeType m) n
          (signals m).

Definition set_sm_name (s : string) (m : Model) : Model :=
  mkModel (heap m) (root m) (sm_root m) (states_root m) (trans_root m)
          (states_map m) s (sm_version m) (cyberiadaStateMimeType m)
          (rand_calls m) (signals m).

Definition set_sm_version (s : string) (m : Model) : Model :=
  mkModel (heap m) (root m) (sm_root m) (states_root m) (trans_root m)
          (states_map m) (sm_name m) s (cyberiadaStateMimeType m)
          (rand_calls m) (signals m).

Definition emit (s : Signal) (m : Model) : Model :=
  mkModel (heap m) (root m) (sm_root m) (states_root m) (trans_root m)
          (states_map m) (sm_name m) (sm_version m) (cyberiadaStateMimeType m)
          (rand_calls m) (signals m ++ [s]).

(** *** Item methods on the store *)

(** Following a pointer: NULL and addresses outside the store fault. *)
Definition deref (h : list Item) (p : pointer) : result Item :=
  match p with
  | None => Fault
  | Some a =>
    match h !! a with
    | Some it => Ok it
    | None => Fault
    end
  end.

(** [new T(...)]: the fresh item gets the next free address. *)
Definition new_item (it : Item) (m : Model) : ptr * Model :=
  (length (heap m), set_heap (heap m ++ [it]) m).

(** Modelled from the spec: the accessors of the item classes, whose source
    cyberiadasm_item.cpp is missing: category tag, identifier, number of
    children. *)
Definition getType (h : list Item) (p : pointer) : result CyberiadaItemType :=
  let* it := deref h p in Ok (item_type it).

Definition getID (h : list Item) (p : pointer) : result string :=
  let* it := deref h p in Ok (item_id it).

Definition childCount (h : list Item) (p : pointer) : result Z :=
  let* it := deref h p in Ok (Z.of_nat (length (item_children it))).

(** Modelled from the spec: [child(row)] of the missing item classes, the
    child at that row of the ordered child sequence, NULL when there is
    none. *)
Definition child (h : list Item) (p : pointer) (r : Z) : result pointer :=
  let* it := deref h p in
  Ok (if (r <? 0)%Z then None else item_children it !! Z.to_nat r).

(** Modelled from the spec: [addChild] of the missing item classes.  The
    child is appended as the last child and [p] becomes its owner. *)
Definition addChild (p : pointer) (c : ptr) (m : Model) : result Model :=
  let* itp := deref (heap m) p in
  let h1 :=
    match p with
    | Some a => <[a := with_children itp (item_children itp ++ [c])]> (heap m)
    | None => heap m
    end in
  let* itc := deref h1 (Some c) in
  Ok (set_heap (<[c := with_parent itc p]> h1) m).

(** Modelled from the spec: [rename] of the missing item classes sets the
    title of the item. *)
Definition rename (p : pointer) (t : string) (m : Model) : result Model :=
  let* it := deref (heap m) p in
  match p with
  | Some a => Ok (set_heap (<[a := with_title it t]> (heap m)) m)
  | None => Fault
  end.

(** ** Sample documents

    [light_doc] is the scenario of the spec: a machine named Light with the
    states s1 (Off) and s2 (On) under one top-level node, and the edge e1
    from s1 to s2.  The others vary it: an edge to a node that does not
    exist, a second comment, an edge that ends at a comment, and a larger
    document with an initial node, a nested state that repeats an
    identifier, and one comment. *)

Definition rect0 : CyberiadaRect := mkRect 0 0 100 50.
Definition point0 : CyberiadaPoint := mkPoint 0 0.

Definition state_node (id title : string) : NodeData :=
  mkNodeData cybNodeSimple id title "" rect0.
Definition initial_node (id : string) : NodeData :=
  mkNodeData cybNodeInitial id "" "" rect0.
Definition comment_node (id text : string) : NodeData :=
  mkNodeData cybNodeComment id "" text rect0.
Definition edge_of (id : string) (s t : NodeData) (action : string) : CyberiadaEdge :=
  mkEdge id s t action point0 point0 [].

Definition light_nodes : CyberiadaNode :=
  NodeCons (state_node "top" "")
    (NodeCons (state_node "s1" "Off") NodeNull
       (NodeCons (state_node "s2" "On") NodeNull NodeNull))
    NodeNull.

Definition light_doc : CyberiadaSM :=
  mkSM "Light" "1.0" light_nodes
       [edge_of "e1" (state_node "s1" "Off") (state_node "s2" "On") "turn_on"].

Definition dangling_doc : CyberiadaSM :=
  mkSM "Light" "1.0" light_nodes
       [edge_of "e1" (state_node "s1" "Off") (state_node "s2" "On") "turn_on";
        edge_of "e2" (state_node "s2" "On") (state_node "s3" "Dim") "dim"].

Definition two_comments_doc : CyberiadaSM :=
  mkSM "Notes" "1.0"
       (NodeCons (state_node "top" "")
          (NodeCons (comment_node "c1" "first") NodeNull
             (NodeCons (comment_node "c2" "second") NodeNull NodeNull))
          NodeNull)
       [].

Definition comment_edge_doc : CyberiadaSM :=
  mkSM "Noted" "1.0"
       (NodeCons (state_node "top" "")
          (NodeCons (state_node "s1" "Off") NodeNull
             (NodeCons (comment_node "c1" "about s1") NodeNull NodeNull))
          NodeNull)
       [edge_of "e1" (state_node "s1" "Off") (comment_node "c1" "about s1") ""].

Definition lamp_doc : CyberiadaSM :=
  mkSM "Lamp" "1.0"
       (NodeCons (state_node "top" "")
          (NodeCons (initial_node "init") NodeNull
             (NodeCons (state_node "s1" "Off") NodeNull
                (NodeCons (state_node "s2" "On")
                   (NodeCons (state_node "s1" "Bright") NodeNull NodeNull)
                   (NodeCons (comment_node "c1" "a note") NodeNull NodeNull))))
          NodeNull)
       [edge_of "e0" (initial_node "init") (state_node "s1" "Off") "";
        edge_of "e1" (state_node "s1" "Off") (state_node "s2" "On") " turn_on "].

(** A parser that finds the given document in every file. *)
Definition parser_of (doc : CyberiadaSM) (file : string) : Z * CyberiadaSM :=
  (CYBERIADA_NO_ERROR, doc).

Definition sample_rand (k : nat) : Z := Z.of_nat (17 * k + 3).

Definition blank : Model := mkModel [] None None None None ∅ "" "" "" 0 [].

Definition one_state : Model :=
  mkModel [mkItem nodeState None [] "s1" "Off" "" NoGeometry None None]
          None None None None ∅ "" "" "" 0 [].

(** Addresses into the model [loadGraph] builds from [lamp_doc], where the
    items get the addresses 4 to 11 in document order: the comment, the state
    s2, the state s1 in column 1, an invalid address, the initial state, the
    state s1, and the first transition. *)
Definition dragged : list QModelIndex :=
  [ createIndex 3 0 (Some 9); createIndex 2 0 (Some 7); createIndex 1 1 (Some 6);
    invalidIndex; createIndex 0 0 (Some 5); createIndex 1 0 (Some 6);
    createIndex 0 0 (Some 10) ].

(** ** The methods of [CyberiadaSMModel] *)

Section CyberiadaSMModel.

Set Default Proof Using "Type".

(** What the model takes as given: the values [qrand()] hands out, call after
    call; the parser of the Cyberiada GraphML library, giving its result code
    and the document it filled in; the string constants of
    cyberiada_constants.h; and [fresh_root_title], the title the constructor
    of the missing class CyberiadaRootItem gives the state-machine root,
    which neither the sources at hand nor the spec settle. *)
Variable qrand_value : nat -> Z.
Variable cyberiada_read_sm : string -> Z * CyberiadaSM.
Variable SM_DEFAULT_TITLE : string.
Variable fresh_root_title : string.
Variable CYBERIADA_EMPTY_NODE_TITLE : string.
Variable CYBERIADA_MIME_TYPE_STATE : string.

(** Modelled from the spec: the constructors of the item classes.  The root
    owns the state-machine root, which owns the two aggregation containers,
    states first.  The title of the fresh state-machine root is left open
    ([fresh_root_title]). *)
Definition CyberiadaRootItem (base : ptr) : list Item :=
  [ mkItem nodeRoot None [S base] "" "" "" NoGeometry None None;
    mkItem nodeSM (Some base) [S (S base); S (S (S base))] "" fresh_root_title ""
           NoGeometry None None;
    mkItem nodeStatesAggr (Some (S base)) [] "" "" "" NoGeometry None None;
    mkItem nodeTransitionsAggr (Some (S base)) [] "" "" "" NoGeometry None None ].

Definition CyberiadaInitialStateItem
    (id : string) (p : CyberiadaSMPoint) (parent : pointer) : Item :=
  mkItem nodeInitialState parent [] id "" "" (PointGeometry p) None None.

Definition CyberiadaCommentItem
    (id text : string) (g : CyberiadaStateGeometry) (parent : pointer) : Item :=
  mkItem nodeComment parent [] id text "" (StateGeometry g) None None.

Definition CyberiadaStateItem
    (id title action : string) (g : CyberiadaStateGeometry) (parent : pointer) : Item :=
  mkItem nodeState parent [] id title action (StateGeometry g) None None.

Definition CyberiadaTransitionItem
    (source target : pointer) (id action : string)
    (g : CyberiadaTransitionGeometry) : Item :=
  mkItem nodeTransition None [] id "" action (TransitionGeometry g) source target.

Definition initTrees (m : Model) : result Model :=
  let base := length (heap m) in
  let h := heap m ++ CyberiadaRootItem base in
  let* smr := child h (Some base) 0 in
  let* sr := child h smr 0 in
  let* tr := child h smr 1 in
  Ok (mkModel h (Some base) smr sr tr (states_map m) (sm_name m) (sm_version m)
              (cyberiadaStateMimeType m) (rand_calls m) (signals m)).

(** [delete root] frees every item the root owns. *)
Definition cleanupTrees (m : Model) : Model :=
  mkModel [] None None None None ∅ (sm_name m) (sm_version m)
          (cyberiadaStateMimeType m) (rand_calls m) (signals m).

Definition CyberiadaSMModel_new : result Model :=
  initTrees (mkModel [] None None None None ∅ SM_DEFAULT_TITLE ""
                     CYBERIADA_MIME_TYPE_STATE 0 []).

Definition reset (m : Model) : result Model :=
  let m1 := emit modelAboutToBeReset m in
  let m2 := cleanupTrees m1 in
  let* m3 := initTrees m2 in
  Ok (emit modelReset m3).

Definition contains (sm : gmap string ptr) (k : string) : bool :=
  bool_decide (is_Some (sm !! k)).

Fixpoint generateID_loop (fuel : nat) (sm : gmap string ptr) (calls : nat)
  : result (string * nat) :=
  match fuel with
  | O => Diverge
  | S fuel' =>
    let num := Z.rem (qrand_value calls) 10000 in
    let s := QString_arg "id-%d" num in
    if contains sm s then generateID_loop fuel' sm (S calls) else Ok (s, S calls)
  end.

Definition generateID (fuel : nat) (m : Model) : result (string * Model) :=
  let* (s, calls) := generateID_loop fuel (states_map m) (rand_calls m) in
  Ok (s, set_rand_calls calls m).

Definition convertNode (fuel : nat) (node : NodeData) (parent : pointer) (m : Model)
  : result (ptr * Model) :=
  let r := geometry_rect node in
  if decide (node_type node = cybNodeInitial) then
    let point := mkSMPoint (rect_x r) (rect_y r) in
    Ok (new_item (CyberiadaInitialStateItem (node_id node) point parent) m)
  else
    let g := mkStateGeometry (mkSMPoint (rect_x r) (rect_y r))
                             (mkSMSize (rect_width r) (rect_height r)) in
    if decide (node_type node = cybNodeComment) then
      let* (id, m1) := generateID fuel m in
      Ok (new_item (CyberiadaCommentItem id (node_action node) g parent) m1)
    else
      let title :=
        if decide (node_title node = "") then CYBERIADA_EMPTY_NODE_TITLE
        else node_title node in
      Ok (new_item (CyberiadaStateItem (node_id node) title
                                       (trimmed (node_action node)) g parent) m).

Definition convertEdge (edge : CyberiadaEdge) (m : Model) : pointer * Model :=
  let smpoint := fun p : CyberiadaPoint => mkSMPoint (pt_x p) (pt_y p) in
  let g := mkTransitionGeometry (smpoint (geometry_source_point edge))
                                (smpoint (geometry_target_point edge))
                                (map smpoint (geometry_polyline edge)) in
  let source := states_map m !! node_id (edge_source edge) in
  let target := states_map m !! node_id (edge_target edge) in
  match source, target with
  | Some _, Some _ =>
    let (p, m1) := new_item (CyberiadaTransitionItem source target (edge_id edge)
                                                     (trimmed (edge_action edge)) g) m in
    (Some p, m1)
  | _, _ => (None, m)
  end.

Fixpoint addToMap_loop (fuel : nat) (sm : gmap string ptr) (new_id : string)
  : result string :=
  match fuel with
  | O => Diverge
  | S fuel' =>
    if contains sm new_id then addToMap_loop fuel' sm (new_id +:+ "_")
    else Ok new_id
  end.

Definition addToMap (fuel : nat) (id : string) (item : ptr) (m : Model) : result Model :=
  let* new_id := addToMap_loop fuel (states_map m) id in
  Ok (set_states_map (<[new_id := item]> (states_map m)) m).

Definition is_null (n : CyberiadaNode) : bool :=
  match n with
  | NodeNull => true
  | NodeCons _ _ _ => false
  end.

Fixpoint addChildNodes (fuel : nat) (parent_node : CyberiadaNode)
    (parent_item : pointer) (toplevel : bool) (m : Model) : result Model :=
  match parent_node with
  | NodeNull => Ok m
  | NodeCons cur_node cur_children cur_next =>
    let* (item, m1) := convertNode fuel cur_node parent_item m in
    let* m2 :=
      (if toplevel then
         if is_null cur_children then Ok m1
         else addChildNodes fuel cur_children parent_item false m1
       else
         let* id := getID (heap m1) (Some item) in
         let* m1a := addToMap fuel id item m1 in
         let* m1b := addChild parent_item item m1a in
         if is_null cur_children then Ok m1b
         else addChildNodes fuel cur_children (Some item) false m1b) in
    addChildNodes fuel cur_next parent_item toplevel m2
  end.

Definition renameSM (new_name : string) (m : Model) : result Model :=
  if (0 <? String.length new_name)%nat then
    let m1 := set_sm_name new_name m in
    rename (sm_root m1) (sm_name m1) m1
  else Ok m.

(** The loop of [loadGraph] over the edge list. An edge that does not
    convert ends the call. *)
Fixpoint loadEdges (es : list CyberiadaEdge) (m : Model) : result Model :=
  match es with
  | [] => Ok m
  | cur_edge :: rest =>
    let (item, m1) := convertEdge cur_edge m in
    match item with
    | None => Ok m1
    | Some p =>
      let* m2 := addChild (trans_root m1) p m1 in
      loadEdges rest m2
    end
  end.

Definition loadGraph (fuel : nat) (file : string) (m : Model) : result Model :=
  let* m0 := reset m in
  let (res, sm) := cyberiada_read_sm file in
  if negb (res =? CYBERIADA_NO_ERROR)%Z then Ok m0
  else
    let m1 := set_sm_version (doc_version sm) m0 in
    let* m2 := renameSM (doc_name sm) m1 in
    let* m3 := addChildNodes fuel (nodes sm) (states_root m2) true m2 in
    loadEdges (edges sm) m3.

(** *** Addresses *)

Definition rootIndex (m : Model) : QModelIndex := createIndex 0 0 (root m).
Definition SMIndex (m : Model) : QModelIndex := createIndex 0 0 (sm_root m).
Definition statesRootIndex (m : Model) : QModelIndex := createIndex 0 0 (states_root m).
Definition transitionsRootIndex (m : Model) : QModelIndex :=
  createIndex 1 0 (trans_root m).

Definition indexToItem (m : Model) (index : QModelIndex) : pointer :=
  if negb (isValid index) then root m else internalPointer index.

Definition isTypeIndex (t : CyberiadaItemType) (m : Model) (index : QModelIndex)
  : result bool :=
  if negb (isValid index) then Ok false
  else
    let* ty := getType (heap m) (internalPointer index) in
    Ok (bool_decide (ty = t)).

Definition isStateIndex := isTypeIndex nodeState.
Definition isInitialStateIndex := isTypeIndex nodeInitialState.
Definition isTransitionIndex := isTypeIndex nodeTransition.
Definition isActionIndex := isTypeIndex nodeAction.

Definition hasIndex (m : Model) (r c : Z) (parent : QModelIndex) : result bool :=
  if (c >? 0)%Z then Ok false
  else if negb (isValid parent) then Ok (r =? 0)%Z
  else
    let* n := childCount (heap m) (internalPointer parent) in
    if (n >? 0)%Z then Ok ((r >=? 0)%Z && (r <? n)%Z) else Ok false.

Definition index (m : Model) (r c : Z) (parent : QModelIndex) : result QModelIndex :=
  if negb (isValid parent) then Ok invalidIndex
  else
    let* has := hasIndex m r c parent in
    if negb has then Ok invalidIndex
    else
      let* childItem := child (heap m) (internalPointer parent) r in
      match childItem with
      | None => Fault
      | Some _ => Ok (createIndex r c childItem)
      end.

(** *** Editing *)

Definition setData (m : Model) (index : QModelIndex) (value : string) (role : Z)
  : result (bool * Model) :=
  if isValid index && (role =? EditRole)%Z && (column index =? 0)%Z then
    let* permitted :=
      (if bool_decide (index = SMIndex m) then Ok true
       else
         let* st := isStateIndex m index in
         if st then Ok true else isActionIndex m index) in
    if permitted then
      let newStr := value in
      let* act := isActionIndex m index in
      if negb act && bool_decide (newStr = "") then Ok (false, m)
      else
        let* m1 := rename (internalPointer index) newStr m in
        Ok (true, emit (dataChanged index index) m1)
    else Ok (false, m)
  else Ok (false, m).

(** The body of [move] is commented out in the source: the method returns
    without touching the model. *)
Definition move (item target_item : pointer) (m : Model) : Model := m.

(** *** Drag payload

    A [QMimeData] holding one format; its data is the sequence of strings
    written to the [QDataStream]. *)
Record QMimeData : Type := mkMimeData {
  mime_format : string;
  mime_stream : list string
}.

Definition mimeTypes (m : Model) : list string := [cyberiadaStateMimeType m].

Fixpoint mimeData_stream (m : Model) (indexes : list QModelIndex)
  : result (list string) :=
  match indexes with
  | [] => Ok []
  | index :: rest =>
    if negb (column index =? 0)%Z then mimeData_stream m rest
    else
      let* st := isStateIndex m index in
      let* draggable := (if st then Ok true else isInitialStateIndex m index) in
      if negb draggable then mimeData_stream m rest
      else
        let* id := getID (heap m) (indexToItem m index) in
        let* tail := mimeData_stream m rest in
        Ok (id :: tail)
  end.

Definition mimeData (m : Model) (indexes : list QModelIndex) : result QMimeData :=
  let* encodedData := mimeData_stream m indexes in
  Ok (mkMimeData (cyberiadaStateMimeType m) encodedData).

(** *** Cell content, capabilities and navigation *)

(** Modelled from the spec: [getTitle], [parent] and [row] of the missing
    item classes.  The row of an item is its position among the children of
    its owner (-1 when the owner does not list it); an item without owner is
    given row 0. *)
Definition getTitle (h : list Item) (p : pointer) : result string :=
  let* it := deref h p in Ok (item_title it).

Definition parentOf (h : list Item) (p : pointer) : result pointer :=
  let* it := deref h p in Ok (item_parent it).

Fixpoint indexOf (c : ptr) (l : list ptr) : Z :=
  match l with
  | [] => -1
  | x :: l' =>
    if decide (x = c) then 0
    else let i := indexOf c l' in if (i <? 0)%Z then -1 else (i + 1)%Z
  end.

Definition rowOf (h : list Item) (p : pointer) : result Z :=
  let* it := deref h p in
  match p, item_parent it with
  | Some a, Some q =>
    let* owner := deref h (Some q) in Ok (indexOf a (item_children owner))
  | _, _ => Ok 0%Z
  end.

(** The icons the constructor loads, and the default-constructed
    [emptyIcon]. *)
Inductive QIcon : Type :=
| smRootIcon
| stateRootIcon
| transRootIcon
| stateIcon
| initialStateIcon
| transIcon
| actionIcon
| commentIcon
| emptyIcon.

#[global] Instance QIcon_eq_dec : EqDecision QIcon.
Proof. solve_decision. Defined.

Inductive QVariant : Type :=
| QVariant_invalid
| QVariant_string (s : string)
| QVariant_icon (i : QIcon).

Definition getIndexIcon (m : Model) (index : QModelIndex) : result QIcon :=
  if negb (isValid index) then Ok emptyIcon
  else
    let* ty := getType (heap m) (internalPointer index) in
    Ok (match ty with
        | nodeSM => smRootIcon
        | nodeStatesAggr => stateRootIcon
        | nodeTransitionsAggr => transRootIcon
        | nodeInitialState => initialStateIcon
        | nodeState => stateIcon
        | nodeComment => commentIcon
        | nodeTransition => transIcon
        | nodeAction => actionIcon
        | nodeRoot => emptyIcon
        end).

Definition data (m : Model) (index : QModelIndex) (role : Z) : result QVariant :=
  if negb (isValid index) || negb (column index =? 0)%Z
     || bool_decide (index = rootIndex m)
  then Ok QVariant_invalid
  else if (role =? DisplayRole)%Z || (role =? ToolTipRole)%Z || (role =? EditRole)%Z then
    let* title := getTitle (heap m) (internalPointer index) in
    Ok (QVariant_string title)
  else if (role =? DecorationRole)%Z then
    let* icon := getIndexIcon m index in
    Ok (QVariant_icon icon)
  else Ok QVariant_invalid.

(** Qt::ItemFlag *)
Definition ItemIsSelectable : Z := 1.
Definition ItemIsEditable : Z := 2.
Definition ItemIsDragEnabled : Z := 4.
Definition ItemIsDropEnabled : Z := 8.
Definition ItemIsEnabled : Z := 32.

Definition testFlag (fl flag : Z) : bool := (Z.land fl flag =? flag)%Z.

Definition flags (m : Model) (index : QModelIndex) : result Z :=
  let defaultFlags := Z.lor ItemIsEnabled ItemIsSelectable in
  if bool_decide (index = statesRootIndex m) then
    Ok (Z.lor ItemIsDropEnabled defaultFlags)
  else
    let* st := isStateIndex m index in
    let* movable := (if st then Ok true else isInitialStateIndex m index) in
    if movable then
      let defaultFlags1 := Z.lor defaultFlags ItemIsDragEnabled in
      let* st2 := isStateIndex m index in
      if st2 then Ok (Z.lor defaultFlags1 (Z.lor ItemIsDropEnabled ItemIsEditable))
      else Ok defaultFlags1
    else
      let* act := isActionIndex m index in
      if act || bool_decide (index = SMIndex m) then
        Ok (Z.lor ItemIsEditable defaultFlags)
      else Ok defaultFlags.

Definition parent (m : Model) (index : QModelIndex) : result QModelIndex :=
  if negb (isValid index) || bool_decide (index = rootIndex m) then Ok invalidIndex
  else if bool_decide (index = SMIndex m) then Ok (rootIndex m)
  else
    let childItem := internalPointer index in
    let* parentItem := parentOf (heap m) childItem in
    match parentItem with
    | None => Fault
    | Some _ =>
      if bool_decide (parentItem = root m) then Ok (rootIndex m)
      else
        let* r := rowOf (heap m) parentItem in
        Ok (createIndex r 0 parentItem)
    end.

Definition rowCount (m : Model) (parent : QModelIndex) : result Z :=
  if (column parent >? 0)%Z then Ok 0%Z
  else
    let item :=
      if negb (isValid parent) || bool_decide (parent = rootIndex m) then root m
      else internalPointer parent in
    childCount (heap m) item.

Definition columnCount (m : Model) (parent : QModelIndex) : Z := 1.

Definition hasChildren (m : Model) (parent : QModelIndex) : result bool :=
  let* r := rowCount m parent in Ok (r >? 0)%Z.

Definition isTrivialIndex (m : Model) (index : QModelIndex) : bool :=
  negb (isValid index)
  || bool_decide (index = rootIndex m)
  || bool_decide (index = SMIndex m)
  || bool_decide (index = statesRootIndex m)
  || bool_decide (index = transitionsRootIndex m).

Definition idToItem (m : Model) (id : string) : pointer := states_map m !! id.

(** Qt::MoveAction *)
Definition MoveAction : Z := 2.

Definition supportedDropActions (m : Model) : Z := MoveAction.

(** [CyberiadaSMView::startDrag] up to the start of the drag: the payload for
    the current address, the icon shown, and the action offered. *)
Record QDrag : Type := mkDrag {
  drag_mimeData : QMimeData;
  drag_icon : QIcon;
  drag_action : Z
}.

Definition startDrag (m : Model) (current : QModelIndex) : result QDrag :=
  let indexes := [current] in
  let* payload := mimeData m indexes in
  let* icon := getIndexIcon m current in
  Ok (mkDrag payload icon MoveAction).

(** ** Vocabulary of the properties *)

(** A driver for a sequence of [addToMap] calls; it records, call by call,
    the identifier each call commits under (the final [new_id] of its loop). *)
Fixpoint addToMap_all (fuel : nat) (ins : list (string * ptr)) (m : Model)
  : result (list string * Model) :=
  match ins with
  | [] => Ok ([], m)
  | (id, item) :: rest =>
    let* new_id := addToMap_loop fuel (states_map m) id in
    let* m1 := addToMap fuel id item m in
    let* (ids, m2) := addToMap_all fuel rest m1 in
    Ok (new_id :: ids, m2)
  end.

(** [suffixed id k]: the identifier after [k] rounds of [new_id += "_"]. *)
Fixpoint suffixed (id : string) (k : nat) : string :=
  match k with
  | O => id
  | S k' => suffixed (id +:+ "_") k'
  end.

(** The serialization as the spec words it: keep the addresses with column 0
    whose item is a state or an initial state, and list the identifiers of
    their items in the order given. *)
Definition address_item (m : Model) (i : QModelIndex) : option Item :=
  if isValid i then
    match deref (heap m) (internalPointer i) with
    | Ok it => Some it
    | _ => None
    end
  else None.

Definition draggable_address (m : Model) (i : QModelIndex) : bool :=
  (column i =? 0)%Z &&
  match address_item m i with
  | Some it =>
    bool_decide (item_type it = nodeState) || bool_decide (item_type it = nodeInitialState)
  | None => false
  end.

Definition address_id (m : Model) (i : QModelIndex) : string :=
  match address_item m i with
  | Some it => item_id it
  | None => ""
  end.

Definition serialize_spec (m : Model) (items : list QModelIndex) : list string :=
  map (address_id m) (List.filter (draggable_address m) items).

(** An address is live when it is invalid or points at an item of the store. *)
Definition live_address (m : Model) (i : QModelIndex) : Prop :=
  isValid i = true -> exists it, deref (heap m) (internalPointer i) = Ok it.

Fixpoint count_nodes (n : CyberiadaNode) : nat :=
  match n with
  | NodeNull => 0
  | NodeCons _ ch nx => S (count_nodes ch + count_nodes nx)
  end.

Fixpoint node_app (n1 n2 : CyberiadaNode) : CyberiadaNode :=
  match n1 with
  | NodeNull => n2
  | NodeCons d ch nx => NodeCons d ch (node_app nx n2)
  end.

(** The nodes below the top level: the child lists of the top-level nodes,
    one after the other. *)
Fixpoint hoisted (n : CyberiadaNode) : CyberiadaNode :=
  match n with
  | NodeNull => NodeNull
  | NodeCons _ ch nx => node_app ch (hoisted nx)
  end.

Definition is_comment (d : NodeData) : bool :=
  bool_decide (node_type d = cybNodeComment).

Fixpoint count_comments (n : CyberiadaNode) : nat :=
  match n with
  | NodeNull => 0
  | NodeCons d ch nx =>
    (if is_comment d then 1 else 0) + count_comments ch + count_comments nx
  end.

(** No state or initial node carries the identifier the generator proposes. *)
Fixpoint plain_ids (n : CyberiadaNode) : Prop :=
  match n with
  | NodeNull => True
  | NodeCons d ch nx =>
    (is_comment d = false -> node_id d <> "id-%d") /\ plain_ids ch /\ plain_ids nx
  end.

(** The identifiers of the state and initial nodes of a forest. *)
Fixpoint node_ids (n : CyberiadaNode) : list string :=
  match n with
  | NodeNull => []
  | NodeCons d ch nx =>
    (if is_comment d then [] else [node_id d]) ++ node_ids ch ++ node_ids nx
  end.

(** The item a node stands for, as the spec describes the variants: an
    initial marker, a comment under a generated identifier, or a state whose
    empty title falls back to the placeholder and whose action is trimmed. *)
Definition node_item (node : NodeData) (parent : pointer) : Item :=
  let r := geometry_rect node in
  let pos := mkSMPoint (rect_x r) (rect_y r) in
  let g := mkStateGeometry pos (mkSMSize (rect_width r) (rect_height r)) in
  match node_type node with
  | cybNodeInitial => CyberiadaInitialStateItem (node_id node) pos parent
  | cybNodeComment => CyberiadaCommentItem "id-%d" (node_action node) g parent
  | _ =>
    CyberiadaStateItem (node_id node)
                       (if decide (node_title node = "") then CYBERIADA_EMPTY_NODE_TITLE
                        else node_title node)
                       (trimmed (node_action node)) g parent
  end.

(** [mirrors h sm lo hi P ps n]: in the store [h], the items at [ps], all of
    them at addresses from [lo] up to [hi], are owned by [P], stand one by
    one and in order for the nodes of the sibling list [n], are registered
    in the index [sm] under their identifier or a suffixed variant of it, and
    their own children mirror the children of their nodes. *)
Fixpoint mirrors (h : list Item) (sm : gmap string ptr) (lo hi : nat)
    (P : ptr) (ps : list ptr) (n : CyberiadaNode) : Prop :=
  match n, ps with
  | NodeNull, [] => True
  | NodeCons d ch nx, p :: ps' =>
    lo <= p < hi /\
    exists it,
      h !! p = Some it /\
      with_children it [] = node_item d (Some P) /\
      (exists k, sm !! suffixed (item_id it) k = Some p) /\
      mirrors h sm lo hi p (item_children it) ch /\
      mirrors h sm lo hi P ps' nx
  | _, _ => False
  end.

(** The number of items of the subtree at [p], walking child links. *)
Fixpoint subtree_size (fuel : nat) (h : list Item) (p : ptr) : nat :=
  match fuel with
  | O => 0
  | S fuel' =>
    match h !! p with
    | None => 0
    | Some it => S (sum_list (map (subtree_size fuel' h) (item_children it)))
    end
  end.

(** What a run of [addChildNodes] under the item at [P] comes to. *)
Definition converts (toplevel : bool) (n : CyberiadaNode) (P : ptr) (itP : Item)
    (m : Model) (r : result Model) : Prop :=
  exists h' sm' rc' ps,
    r = Ok (set_rand_calls rc' (set_states_map sm' (set_heap h' m))) /\
    length h' = length (heap m) + count_nodes n /\
    (forall q, q < length (heap m) -> q <> P -> h' !! q = heap m !! q) /\
    h' !! P = Some (with_children itP (item_children itP ++ ps)) /\
    mirrors h' sm' (length (heap m)) (length h') P ps
            (if toplevel then hoisted n else n) /\
    states_map m ⊆ sm' /\
    size sm' <= size (states_map m) + count_nodes n /\
    (count_comments n = 0 -> states_map m !! "id-%d" = None -> sm' !! "id-%d" = None) /\
    (forall id, id ∈ node_ids (if toplevel then hoisted n else n) -> is_Some (sm' !! id)).

(** The item the spec expects for an edge: a transition owned by the
    transitions container, referring to the items the index holds under the
    identifiers of the edge's end nodes. *)
Definition edge_item (sm : gmap string ptr) (owner : ptr) (e : CyberiadaEdge) : Item :=
  let smpoint := fun p : CyberiadaPoint => mkSMPoint (pt_x p) (pt_y p) in
  mkItem nodeTransition (Some owner) [] (edge_id e) "" (trimmed (edge_action e))
         (TransitionGeometry
            (mkTransitionGeometry (smpoint (geometry_source_point e))
                                  (smpoint (geometry_target_point e))
                                  (map smpoint (geometry_polyline e))))
         (sm !! node_id (edge_source e)) (sm !! node_id (edge_target e)).

Definition resolvable (sm : gmap string ptr) (e : CyberiadaEdge) : Prop :=
  is_Some (sm !! node_id (edge_source e)) /\ is_Some (sm !! node_id (edge_target e)).

#[global] Instance resolvable_dec (sm : gmap string ptr) (e : CyberiadaEdge) :
  Decision (resolvable sm e).
Proof. unfold resolvable. apply _. Defined.

(** The edges before the first one that does not resolve. *)
Fixpoint resolved_prefix (sm : gmap string ptr) (es : list CyberiadaEdge)
  : list CyberiadaEdge :=
  match es with
  | [] => []
  | e :: rest => if decide (resolvable sm e) then e :: resolved_prefix sm rest else []
  end.

(** The identifiers of all nodes of a forest, comments included. *)
Fixpoint every_node_id (n : CyberiadaNode) : list string :=
  match n with
  | NodeNull => []
  | NodeCons d ch nx => node_id d :: every_node_id ch ++ every_node_id nx
  end.

(** What a conversion step leaves alone: the four fixed pointers, the name,
    the version and the notifications sent so far. *)
Definition same_fields (m m' : Model) : Prop :=
  root m' = root m /\ sm_root m' = sm_root m /\ states_root m' = states_root m /\
  trans_root m' = trans_root m /\ sm_name m' = sm_name m /\
  sm_version m' = sm_version m /\ signals m' = signals m.

(** [grows P m m']: from [m] to [m'] the store only gained items, the item
    at [P] only gained children at the end, every other old item is as it
    was, and the index only gained entries. *)
Definition grows (P : ptr) (m m' : Model) : Prop :=
  length (heap m) <= length (heap m') /\
  (forall q, q < length (heap m) -> q <> P -> heap m' !! q = heap m !! q) /\
  (forall itP, heap m !! P = Some itP ->
               exists ps, heap m' !! P = Some (with_children itP (item_children itP ++ ps))) /\
  states_map m ⊆ states_map m' /\
  same_fields m m'.

(** [well_linked h]: every item a child sequence lists is in the store, has
    the listing item as owner, and is listed there once, at its row. *)
Definition well_linked (h : list Item) : Prop :=
  forall (a : ptr) (it : Item) (r : nat) (c : ptr),
    h !! a = Some it ->
    item_children it !! r = Some c ->
    exists itc, h !! c = Some itc /\ item_parent itc = Some a /\
                indexOf c (item_children it) = Z.of_nat r.

(** The addresses a view can reach: the root's, and every valid address
    [index] hands out for a reachable parent. *)
Inductive reachable (m : Model) : QModelIndex -> Prop :=
| reach_root : reachable m (rootIndex m)
| reach_child (p : QModelIndex) (r : Z) (ci : QModelIndex) :
    reachable m p -> index m r 0 p = Ok ci -> isValid ci = true -> reachable m ci.

(** The categories [convertNode] builds: the items the index holds. *)
Definition node_category (t : CyberiadaItemType) : bool :=
  match t with
  | nodeState | nodeInitialState | nodeComment => true
  | _ => false
  end.

(** [index_sound m]: every entry of the index leads to a live state, initial
    state or comment item whose identifier is the key up to appended
    underscores, and no item is entered under two keys. *)
Definition index_sound (m : Model) : Prop :=
  (forall k p, states_map m !! k = Some p ->
               exists it, heap m !! p = Some it /\
                          node_category (item_type it) = true /\
                          exists j, k = suffixed (item_id it) j) /\
  (forall k k' p, states_map m !! k = Some p -> states_map m !! k' = Some p -> k = k').

(** [registered_children h sm]: apart from the root, the state-machine root
    and the transitions container (addresses 0, 1 and 3 of a fresh tree),
    every item lists only children the index holds under some key. *)
Definition registered_children (h : list Item) (sm : gmap string ptr) : Prop :=
  forall (a : ptr) (it : Item) (r : nat) (c : ptr),
    h !! a = Some it -> item_children it !! r = Some c ->
    a <> 0 -> a <> 1 -> a <> 3 ->
    exists k, sm !! k = Some c.

(** The title the state-machine root shows after a load of [file], and the
    name the model then holds. *)
Definition loaded_title (res : Z) (sm : CyberiadaSM) : string :=
  if (res =? CYBERIADA_NO_ERROR)%Z && negb (bool_decide (doc_name sm = ""))
  then doc_name sm else fresh_root_title.

Definition loaded_name (res : Z) (sm : CyberiadaSM) (before : string) : string :=
  if (res =? CYBERIADA_NO_ERROR)%Z && negb (bool_decide (doc_name sm = ""))
  then doc_name sm else before.

Definition loaded_version (res : Z) (sm : CyberiadaSM) (before : string) : string :=
  if (res =? CYBERIADA_NO_ERROR)%Z then doc_version sm else before.

(** * Properties *)

(** [tauto] and [intuition] pull every section variable in sight into the
    proof term; [forget_env] drops the ones the goal does not mention. *)
Ltac forget_env :=
  try clear qrand_value; try clear cyberiada_read_sm; try clear SM_DEFAULT_TITLE;
  try clear fresh_root_title;
  try clear CYBERIADA_EMPTY_NODE_TITLE; try clear CYBERIADA_MIME_TYPE_STATE.

(** ** Identifier generation *)

Lemma generated_candidate (num : Z) : QString_arg "id-%d" num = "id-%d".
Proof. reflexivity. Qed.

Lemma generateID_loop_taken (fuel : nat) (sm : gmap string ptr) (calls : nat) :
  is_Some (sm !! "id-%d") -> generateID_loop fuel sm calls = Diverge.
Proof.
  intros Htaken. revert calls.
  induction fuel as [|fuel IH]; intros calls; simpl; [reflexivity|].
  rewrite generated_candidate. unfold contains.
  rewrite bool_decide_eq_true_2 by exact Htaken. apply IH.
Qed.

Lemma generateID_loop_free (fuel : nat) (sm : gmap string ptr) (calls : nat) :
  sm !! "id-%d" = None ->
  generateID_loop (S fuel) sm calls = Ok ("id-%d", S calls).
Proof.
  intros Hfree. simpl. rewrite generated_candidate. unfold contains.
  rewrite bool_decide_eq_false_2; [reflexivity|].
  rewrite Hfree. intros [x Hx]. discriminate.
Qed.

(** C4: once the index holds the identifier the generator proposes, a call of
    [generateID] never returns, whatever the random source hands out and
    however long the loop is left running. *)
Theorem generateID_spins_on_taken_candidate (fuel : nat) (m : Model) :
  is_Some (states_map m !! "id-%d") -> generateID fuel m = Diverge.
Proof.
  intros Htaken. unfold generateID.
  rewrite generateID_loop_taken by exact Htaken. reflexivity.
Qed.

(** ** The identifier index *)

Lemma string_length_app (s1 s2 : string) :
  String.length (s1 +:+ s2) = String.length s1 + String.length s2.
Proof. induction s1 as [|c s1 IH]; simpl; [reflexivity|]. now rewrite IH. Qed.

Lemma suffixed_length (id : string) (k : nat) :
  String.length (suffixed id k) = String.length id + k.
Proof.
  revert id. induction k as [|k IH]; intros id; simpl; [lia|].
  rewrite IH, string_length_app. simpl. lia.
Qed.

Lemma suffixed_inj (id : string) (j k : nat) : suffixed id j = suffixed id k -> j = k.
Proof.
  intros H. apply (f_equal String.length) in H.
  rewrite !suffixed_length in H. lia.
Qed.

Lemma contains_true (sm : gmap string ptr) (k : string) :
  contains sm k = true <-> is_Some (sm !! k).
Proof. unfold contains. apply bool_decide_eq_true. Qed.

Lemma contains_false (sm : gmap string ptr) (k : string) :
  contains sm k = false <-> sm !! k = None.
Proof.
  forget_env.
  unfold contains. rewrite bool_decide_eq_false. rewrite eq_None_not_Some. tauto.
Qed.

(** The loop stops at the first unused variant, provided there is one within
    the fuel. *)
Lemma addToMap_loop_first_free (fuel : nat) (sm : gmap string ptr) (id : string) (k : nat) :
  k < fuel ->
  sm !! suffixed id k = None ->
  (forall j, j < k -> is_Some (sm !! suffixed id j)) ->
  addToMap_loop fuel sm id = Ok (suffixed id k).
Proof.
  revert id k. induction fuel as [|fuel IH]; intros id k Hk Hfree Hbelow; [lia|].
  simpl. destruct k as [|k].
  - simpl in Hfree. apply contains_false in Hfree. now rewrite Hfree.
  - assert (Hc : contains sm id = true).
    { apply contains_true. apply (Hbelow 0). lia. }
    rewrite Hc. apply (IH (id +:+ "_") k); [lia|exact Hfree|].
    intros j Hj. apply (Hbelow (S j)). lia.
Qed.

(** Pigeonhole: a finite index cannot hold all of [fuel] distinct variants. *)
Lemma free_variant_exists (sm : gmap string ptr) (id : string) (fuel : nat) :
  size sm < fuel ->
  exists k, k < fuel /\ sm !! suffixed id k = None /\
            forall j, j < k -> is_Some (sm !! suffixed id j).
Proof.
  intros Hsize.
  assert (Hex : exists k, k < fuel /\ sm !! suffixed id k = None).
  { set (l := suffixed id <$> seq 0 fuel).
    destruct (decide (Forall (fun s => is_Some (sm !! s)) l)) as [Hall|Hnot].
    - exfalso.
      assert (Hnd : NoDup l).
      { apply NoDup_fmap_2_strong; [|apply NoDup_seq].
        intros x y _ _ Hxy. now apply suffixed_inj in Hxy. }
      assert (Hsub : l ⊆+ elements (dom sm)).
      { apply NoDup_submseteq; [exact Hnd|].
        intros x Hx. apply elem_of_elements, elem_of_dom.
        rewrite Forall_forall in Hall. now apply Hall. }
      apply submseteq_length in Hsub.
      unfold l in Hsub. rewrite length_fmap, length_seq in Hsub.
      change (length (elements (dom sm))) with (size (dom sm)) in Hsub.
      rewrite size_dom in Hsub. lia.
    - apply not_Forall_Exists in Hnot; [|intros x; apply _].
      apply Exists_exists in Hnot.
      destruct Hnot as [s [Hs Hno]]. apply list_elem_of_fmap in Hs.
      destruct Hs as [k [-> Hk]]. apply elem_of_seq in Hk.
      exists k. split; [lia|].
      apply eq_None_not_Some. exact Hno. }
  clear Hsize. revert id Hex. induction fuel as [|fuel IH]; intros id [k [Hk Hfree]]; [lia|].
  destruct (sm !! id) as [v|] eqn:E.
  - destruct k as [|k]; [simpl in Hfree; congruence|].
    destruct (IH (id +:+ "_")) as [k' [Hk' [Hfree' Hbelow]]].
    { exists k. split; [lia|exact Hfree]. }
    exists (S k'). split; [lia|]. split; [exact Hfree'|].
    intros [|j] Hj; [simpl; rewrite E; eauto|]. apply Hbelow. lia.
  - exists 0. split; [lia|]. split; [exact E|]. intros j Hj. lia.
Qed.

Lemma addToMap_loop_total (fuel : nat) (sm : gmap string ptr) (id : string) :
  size sm < fuel ->
  exists k, addToMap_loop fuel sm id = Ok (suffixed id k) /\
            sm !! suffixed id k = None /\
            forall j, j < k -> is_Some (sm !! suffixed id j).
Proof.
  intros Hsize.
  destruct (free_variant_exists sm id fuel Hsize) as [k [Hk [Hfree Hbelow]]].
  exists k. split; [|split; assumption].
  now apply addToMap_loop_first_free.
Qed.

Lemma addToMap_all_unique (fuel : nat) (ins : list (string * ptr)) (m : Model) :
  size (states_map m) + length ins <= fuel ->
  exists ids m',
    addToMap_all fuel ins m = Ok (ids, m') /\
    NoDup ids /\
    Forall (fun c => states_map m !! c = None) ids /\
    Forall2 (fun c e => states_map m' !! c = Some e.2 /\ exists k, c = suffixed e.1 k)
            ids ins /\
    states_map m ⊆ states_map m'.
Proof.
  revert m. induction ins as [|[id item] rest IH]; intros m Hfuel.
  - exists [], m. simpl. repeat split; try constructor. reflexivity.
  - simpl in Hfuel.
    destruct (addToMap_loop_total fuel (states_map m) id) as [k [Hloop [Hfree _]]]; [lia|].
    set (m1 := set_states_map (<[suffixed id k := item]> (states_map m)) m).
    destruct (IH m1) as [ids [m' [Hall [Hnd [Hnew [Hfound Hsub]]]]]].
    { simpl. rewrite map_size_insert_None by exact Hfree. lia. }
    exists (suffixed id k :: ids), m'.
    assert (Hm1 : states_map m1 !! suffixed id k = Some item).
    { simpl. apply lookup_insert_eq. }
    assert (Hext : states_map m ⊆ states_map m1).
    { simpl. now apply insert_subseteq. }
    split.
    { simpl. unfold addToMap. rewrite Hloop. simpl. fold m1. rewrite Hall. reflexivity. }
    split.
    { constructor; [|exact Hnd]. intros Hin.
      rewrite Forall_forall in Hnew. specialize (Hnew _ Hin). cbv beta in Hnew.
      rewrite Hm1 in Hnew. discriminate. }
    split.
    { constructor; [exact Hfree|].
      eapply Forall_impl; [exact Hnew|]. intros c Hc. cbv beta in Hc |- *.
      destruct (states_map m !! c) as [v|] eqn:E; [|reflexivity].
      eapply lookup_weaken in E; [|exact Hext]. rewrite E in Hc. discriminate. }
    split.
    { constructor; [|exact Hfound]. split; [|eauto].
      simpl. eapply lookup_weaken; [exact Hm1|exact Hsub]. }
    etrans; [exact Hext|exact Hsub].
Qed.

(** C5: every [addToMap] call succeeds and commits under the first unused
    identifier among [id], [id_], [id__], ... (so under [id] itself when it is
    free); after any sequence of calls the committed identifiers are pairwise
    different, each one leads to the item of its own call, and no earlier
    entry of the index was replaced. *)
Theorem index_identifiers_unique (fuel : nat) :
  (forall id item m,
      size (states_map m) < fuel ->
      exists k,
        addToMap fuel id item m
          = Ok (set_states_map (<[suffixed id k := item]> (states_map m)) m) /\
        states_map m !! suffixed id k = None /\
        (forall j, j < k -> is_Some (states_map m !! suffixed id j)) /\
        (states_map m !! id = None -> k = 0)) /\
  (forall ins m,
      size (states_map m) + length ins <= fuel ->
      exists ids m',
        addToMap_all fuel ins m = Ok (ids, m') /\
        NoDup ids /\
        Forall2 (fun c e => states_map m' !! c = Some e.2 /\ exists k, c = suffixed e.1 k)
                ids ins /\
        states_map m ⊆ states_map m').
Proof.
  split.
  - intros id item m Hsize.
    destruct (addToMap_loop_total fuel (states_map m) id Hsize) as [k [Hloop [Hfree Hbelow]]].
    exists k. unfold addToMap. rewrite Hloop. simpl.
    repeat split; [exact Hfree|exact Hbelow|].
    intros Hid. destruct k as [|k]; [reflexivity|].
    destruct (Hbelow 0) as [v Hv]; [lia|]. simpl in Hv. congruence.
  - intros ins m Hfuel.
    destruct (addToMap_all_unique fuel ins m Hfuel)
      as [ids [m' [Hall [Hnd [_ [Hfound Hsub]]]]]].
    exists ids, m'. auto.
Qed.

(** ** Address validity *)

Lemma deref_Ok (h : list Item) (p : pointer) (it : Item) :
  deref h p = Ok it <-> exists a, p = Some a /\ h !! a = Some it.
Proof.
  unfold deref. destruct p as [a|].
  - destruct (h !! a) as [it'|] eqn:E; split.
    + intros [= ->]. eauto.
    + intros [a' [[= <-] H]]. congruence.
    + discriminate.
    + intros [a' [[= <-] H]]. congruence.
  - split; [discriminate|]. intros [a [H _]]. discriminate.
Qed.

(** The exact condition [hasIndex] implements: an address is reported valid
    exactly when its column is not above 0 and either the parent is absent
    and the row is 0, or the row lies in the half-open range from 0 to the
    child count of the parent's item; every address with a positive column,
    or with a row outside that range, is reported invalid. *)
Theorem hasIndex_valid_addresses (m : Model) (r c : Z) (parent : QModelIndex) :
  (hasIndex m r c parent = Ok true <->
   (c <= 0)%Z /\
   ((isValid parent = false /\ r = 0%Z) \/
    (isValid parent = true /\
     exists it, deref (heap m) (internalPointer parent) = Ok it /\
                (0 <= r < Z.of_nat (length (item_children it)))%Z))) /\
  ((0 < c)%Z -> hasIndex m r c parent = Ok false) /\
  (isValid parent = false -> r <> 0%Z -> hasIndex m r c parent = Ok false) /\
  (forall it, isValid parent = true ->
              deref (heap m) (internalPointer parent) = Ok it ->
              ~ (0 <= r < Z.of_nat (length (item_children it)))%Z ->
              hasIndex m r c parent = Ok false).
Proof.
  unfold hasIndex, childCount.
  destruct (Z.gtb_spec c 0) as [Hc|Hc].
  { repeat split; try reflexivity; try (intros; exfalso; lia || discriminate). }
  destruct (isValid parent) eqn:Hv; simpl.
  - destruct (deref (heap m) (internalPointer parent)) as [it| |] eqn:Hd; simpl.
    + set (n := Z.of_nat (length (item_children it))).
      assert (Hcases : (if (n >? 0)%Z then Ok ((r >=? 0)%Z && (r <? n)%Z) else Ok false)
                       = Ok (bool_decide (0 <= r < n)%Z)).
      { destruct (Z.gtb_spec n 0); destruct (Z.geb_spec r 0); destruct (Z.ltb_spec r n);
          simpl; f_equal; symmetry;
          (apply bool_decide_eq_true_2 || apply bool_decide_eq_false_2); lia. }
      rewrite Hcases. split; [split|split; [|split]].
      * intros [= Hb]. apply bool_decide_eq_true in Hb. split; [lia|].
        right. split; [reflexivity|]. exists it. split; [reflexivity|exact Hb].
      * intros [_ [[Hf _]|[_ [it' [[= <-] Hr]]]]]; [discriminate|].
        f_equal. now apply bool_decide_eq_true_2.
      * intros; lia.
      * discriminate.
      * intros it' _ [= <-] Hr. f_equal. now apply bool_decide_eq_false_2.
    + split; [split|split; [|split]]; try discriminate; try (intros; lia);
        try (intros [_ [[Hf _]|[_ [it [Hit _]]]]]; discriminate);
        try (intros it _ Hit; discriminate).
    + split; [split|split; [|split]]; try discriminate; try (intros; lia);
        try (intros [_ [[Hf _]|[_ [it [Hit _]]]]]; discriminate);
        try (intros it _ Hit; discriminate).
  - split; [split|split; [|split]].
    + intros [= H]. apply Z.eqb_eq in H. split; [lia|]. left. split; [reflexivity|exact H].
    + intros [_ [[_ ->]|[Hf _]]]; [reflexivity|discriminate].
    + intros; lia.
    + intros _ Hr. f_equal. now apply Z.eqb_neq.
    + intros it Hf. discriminate.
Qed.

(** C8: [hasIndex] lets every negative column through.  Its guard refuses
    only the columns above 0, so for every valid parent address of a live
    item, every row within the child count and every negative column the
    address is reported valid, and so is row 0 with a negative column and no
    parent.  The rest of the model knows column 0 only: [columnCount] is 1,
    the address [index] builds at such a row and column is not a valid
    address, and [data] has nothing to show for it under any role. *)
Theorem hasIndex_accepts_negative_column
    (m : Model) (parent : QModelIndex) (a : ptr) (it : Item) (r c : Z) :
  isValid parent = true -> internalPointer parent = Some a -> heap m !! a = Some it ->
  (0 <= r < Z.of_nat (length (item_children it)))%Z ->
  (c < 0)%Z ->
  hasIndex m r c parent = Ok true /\
  hasIndex m 0 c invalidIndex = Ok true /\
  columnCount m parent = 1%Z /\
  exists c0,
    item_children it !! Z.to_nat r = Some c0 /\
    index m r c parent = Ok (createIndex r c (Some c0)) /\
    isValid (createIndex r c (Some c0)) = false /\
    (forall role, data m (createIndex r c (Some c0)) role = Ok QVariant_invalid).
Proof.
  intros Hv Hp Ha Hr Hc.
  destruct (lookup_lt_is_Some_2 (item_children it) (Z.to_nat r)) as [c0 Hch]; [lia|].
  assert (Hinv : isValid (createIndex r c (Some c0)) = false).
  { unfold isValid, createIndex. simpl. destruct (Z.leb_spec 0 c); [lia|].
    now rewrite andb_false_r. }
  assert (Hhas : hasIndex m r c parent = Ok true).
  { unfold hasIndex, childCount, deref. rewrite Hv, Hp, Ha. simpl.
    destruct (Z.gtb_spec c 0); [lia|].
    destruct (Z.gtb_spec (Z.of_nat (length (item_children it))) 0); [|lia].
    destruct (Z.geb_spec r 0); [|lia].
    destruct (Z.ltb_spec r (Z.of_nat (length (item_children it)))); [|lia].
    reflexivity. }
  split; [exact Hhas|]. split.
  { unfold hasIndex. destruct (Z.gtb_spec c 0); [lia|]. reflexivity. }
  split; [reflexivity|]. exists c0. split; [exact Hch|]. split.
  { unfold index. rewrite Hv, Hhas. simpl. unfold child, deref. rewrite Hp, Ha. simpl.
    destruct (Z.ltb_spec r 0); [lia|]. rewrite Hch. reflexivity. }
  split; [exact Hinv|]. intros role. unfold data. rewrite Hinv. reflexivity.
Qed.

(** C10: with an invalid parent address, [index] answers the invalid address
    for every row and column, also for row 0 and column 0, which [hasIndex]
    reports as the valid address of the synthetic root; the address of the
    root, which only [rootIndex] builds, is never the answer. *)
Theorem index_invalid_parent (m : Model) (r c : Z) (parent : QModelIndex) :
  isValid parent = false ->
  index m r c parent = Ok invalidIndex /\
  hasIndex m 0 0 parent = Ok true /\
  index m 0 0 parent = Ok invalidIndex /\
  isValid (rootIndex m) = true /\
  internalPointer (rootIndex m) = root m /\
  index m r c parent <> Ok (rootIndex m).
Proof.
  intros Hv. unfold index, hasIndex. rewrite Hv. simpl.
  repeat split; discriminate.
Qed.

(** ** Drag payload *)

Lemma isTypeIndex_live (t : CyberiadaItemType) (m : Model) (i : QModelIndex) :
  live_address m i ->
  isTypeIndex t m i
  = Ok (match address_item m i with
        | Some it => bool_decide (item_type it = t)
        | None => false
        end).
Proof.
  intros Hlive. unfold live_address in Hlive.
  unfold isTypeIndex, address_item, getType.
  destruct (isValid i); simpl; [|reflexivity].
  destruct Hlive as [it Hit]; [reflexivity|]. rewrite Hit. reflexivity.
Qed.

Lemma mimeData_stream_spec (m : Model) (indexes : list QModelIndex) :
  Forall (live_address m) indexes ->
  mimeData_stream m indexes = Ok (serialize_spec m indexes).
Proof.
  unfold serialize_spec.
  induction 1 as [|i rest Hlive _ IH]; simpl; [reflexivity|].
  unfold draggable_address at 1.
  destruct (Z.eqb_spec (column i) 0) as [Hc|Hc]; simpl; [|exact IH].
  unfold isStateIndex, isInitialStateIndex.
  rewrite (isTypeIndex_live nodeState m i Hlive). simpl.
  destruct (address_item m i) as [it|] eqn:Hit.
  - assert (Hid : getID (heap m) (indexToItem m i) = Ok (address_id m i)).
    { unfold address_id. rewrite Hit. unfold address_item in Hit.
      unfold indexToItem, getID.
      destruct (isValid i); [|discriminate]. simpl.
      destruct (deref (heap m) (internalPointer i)); [|discriminate..].
      now injection Hit as ->. }
    destruct (bool_decide (item_type it = nodeState)) eqn:Hs; simpl.
    + rewrite Hid. simpl. rewrite IH. reflexivity.
    + rewrite (isTypeIndex_live nodeInitialState m i Hlive). rewrite Hit. simpl.
      destruct (bool_decide (item_type it = nodeInitialState)); simpl; [|exact IH].
      rewrite Hid. simpl. rewrite IH. reflexivity.
  - rewrite (isTypeIndex_live nodeInitialState m i Hlive). rewrite Hit. simpl. exact IH.
Qed.

(** ** Renaming *)

(** C3 (as the code has it): on a valid address of a live item, [setData]
    succeeds exactly when the role is the edit role, the column is 0, the
    address is the state-machine root's or the item is a state or an action,
    and the text is not empty unless the item is an action.  So empty text is
    rejected on a state and accepted on an action, while a comment is not
    renameable at all.  A rejection returns false and leaves the model as it
    was; a success sets the title and reports the changed cell.  On an invalid
    address the call is rejected as well.  No case faults. *)
Theorem setData_rename_contract
    (m : Model) (index : QModelIndex) (value : string) (role : Z) (a : ptr) (it : Item) :
  internalPointer index = Some a ->
  heap m !! a = Some it ->
  exists ok m',
    setData m index value role = Ok (ok, m') /\
    (ok = true <->
     isValid index = true /\ role = EditRole /\ column index = 0%Z /\
     (index = SMIndex m \/ item_type it = nodeState \/ item_type it = nodeAction) /\
     (value = "" -> item_type it = nodeAction)) /\
    (ok = false -> m' = m) /\
    (ok = true ->
     m' = emit (dataChanged index index)
               (set_heap (<[a := with_title it value]> (heap m)) m)) /\
    (item_type it = nodeComment -> index <> SMIndex m -> ok = false) /\
    (item_type it = nodeState -> value = "" -> ok = false) /\
    (item_type it = nodeAction -> isValid index = true -> role = EditRole ->
     column index = 0%Z -> ok = true).
Proof.
  forget_env.
  intros Hp Ha.
  assert (Hty : forall t, isValid index = true ->
                          isTypeIndex t m index = Ok (bool_decide (item_type it = t))).
  { intros t Hv. unfold isTypeIndex, getType, deref. rewrite Hv, Hp, Ha. reflexivity. }
  assert (Hren : rename (internalPointer index) value m
                 = Ok (set_heap (<[a := with_title it value]> (heap m)) m)).
  { unfold rename, deref. rewrite Hp, Ha. reflexivity. }
  unfold setData.
  destruct (isValid index) eqn:Hv; simpl;
    [|exists false, m; split; [reflexivity|];
      repeat split; intros; try discriminate; try tauto; intuition discriminate].
  destruct (Z.eqb_spec role EditRole) as [Hr|Hr]; simpl;
    [|exists false, m; split; [reflexivity|];
      repeat split; intros; try discriminate; try tauto; intuition (discriminate || tauto)].
  destruct (Z.eqb_spec (column index) 0) as [Hc|Hc]; simpl;
    [|exists false, m; split; [reflexivity|];
      repeat split; intros; try discriminate; try tauto; intuition (discriminate || tauto)].
  unfold isStateIndex, isActionIndex. rewrite !Hty by reflexivity.
  destruct (decide (index = SMIndex m)) as [Hsm|Hsm];
    [rewrite bool_decide_eq_true_2 by exact Hsm
    |rewrite bool_decide_eq_false_2 by exact Hsm]; simpl;
  destruct (decide (item_type it = nodeState)) as [Hs|Hs];
    rewrite ?(bool_decide_eq_true_2 _ Hs), ?(bool_decide_eq_false_2 _ Hs); simpl;
  destruct (decide (item_type it = nodeAction)) as [Hact|Hact];
    rewrite ?(bool_decide_eq_true_2 _ Hact), ?(bool_decide_eq_false_2 _ Hact); simpl;
  try (rewrite Hs in Hact; discriminate);
  try rewrite Hren; simpl;
  try (destruct (decide (value = "")) as [He|He];
       [rewrite (bool_decide_eq_true_2 _ He)|rewrite (bool_decide_eq_false_2 _ He)];
       simpl; try rewrite Hren; simpl);
  eexists _, _; (split; [reflexivity|]);
  repeat split; intros; try discriminate; try reflexivity; try tauto; try congruence;
  intuition (discriminate || congruence || tauto).
Qed.

(** ** Conversion of a document *)

Lemma mirrors_frame (h h' : list Item) (sm sm' : gmap string ptr) (lo hi lo' hi' : nat)
    (P : ptr) (ps : list ptr) (n : CyberiadaNode) :
  (forall q, lo <= q < hi -> h' !! q = h !! q) ->
  sm ⊆ sm' ->
  lo' <= lo -> hi <= hi' ->
  mirrors h sm lo hi P ps n -> mirrors h' sm' lo' hi' P ps n.
Proof.
  forget_env.
  intros Hsame Hsub Hlo Hhi. revert P ps.
  induction n as [|d ch IHch nx IHnx]; intros P [|p ps]; simpl; try tauto.
  intros [Hp [it [Hit [Hd [[k Hk] [Hch Hnx]]]]]].
  split; [lia|]. exists it.
  split; [rewrite Hsame by exact Hp; exact Hit|].
  split; [exact Hd|].
  split; [exists k; eapply lookup_weaken; eassumption|].
  split; [now apply IHch|now apply IHnx].
Qed.

Lemma mirrors_app (h : list Item) (sm : gmap string ptr) (lo hi : nat)
    (P : ptr) (ps1 ps2 : list ptr) (n1 n2 : CyberiadaNode) :
  mirrors h sm lo hi P ps1 n1 ->
  mirrors h sm lo hi P ps2 n2 ->
  mirrors h sm lo hi P (ps1 ++ ps2) (node_app n1 n2).
Proof.
  forget_env.
  revert ps1. induction n1 as [|d ch _ nx IHnx]; intros [|p ps1]; simpl; try tauto.
  intros [Hp [it [Hit [Hd [Hk [Hch Hnx]]]]]] H2.
  split; [exact Hp|]. exists it. repeat (split; [assumption|]). now apply IHnx.
Qed.

Lemma count_nodes_app (n1 n2 : CyberiadaNode) :
  count_nodes (node_app n1 n2) = count_nodes n1 + count_nodes n2.
Proof. induction n1 as [|d ch _ nx IH]; simpl; [reflexivity|]. rewrite IH. lia. Qed.

Lemma node_ids_app (n1 n2 : CyberiadaNode) (id : string) :
  id ∈ node_ids (node_app n1 n2) <-> id ∈ node_ids n1 \/ id ∈ node_ids n2.
Proof.
  forget_env.
  induction n1 as [|d ch _ nx IH]; simpl.
  - split; [auto|]. intros [H|H]; [|exact H]. now apply not_elem_of_nil in H.
  - rewrite !elem_of_app, IH. tauto.
Qed.

Lemma mirrors_size (h : list Item) (sm : gmap string ptr) (lo hi : nat)
    (P : ptr) (ps : list ptr) (n : CyberiadaNode) (fuel : nat) :
  mirrors h sm lo hi P ps n ->
  count_nodes n < fuel ->
  sum_list (map (subtree_size fuel h) ps) = count_nodes n.
Proof.
  forget_env.
  revert P ps fuel.
  induction n as [|d ch IHch nx IHnx]; intros P [|p ps] fuel; simpl; try tauto.
  intros [Hp [it [Hit [Hd [Hk [Hch Hnx]]]]]] Hfuel.
  destruct fuel as [|fuel]; [lia|].
  rewrite (IHnx P ps (S fuel) Hnx) by lia.
  simpl. rewrite Hit. rewrite (IHch p _ fuel Hch) by lia. lia.
Qed.

(** The generator's identifier is not a suffixed variant of another one. *)
Lemma suffixed_S (id : string) (k : nat) : suffixed id (S k) = suffixed id k +:+ "_".
Proof.
  revert id. induction k as [|k IH]; intros id; [reflexivity|].
  change (suffixed id (S (S k))) with (suffixed (id +:+ "_") (S k)).
  rewrite IH. reflexivity.
Qed.

Lemma suffixed_generated (id : string) (k : nat) :
  suffixed id k = "id-%d" -> id = "id-%d".
Proof.
  destruct k as [|k]; [trivial|].
  rewrite suffixed_S. generalize (suffixed id k). intros s H. exfalso.
  do 5 (destruct s as [|? s]; simpl in H; [discriminate|injection H as _ H]).
  destruct s; discriminate.
Qed.

Lemma node_item_children (d : NodeData) (parent : pointer) :
  item_children (node_item d parent) = [].
Proof. unfold node_item. destruct (node_type d); reflexivity. Qed.

Lemma node_item_parent (d : NodeData) (parent : pointer) :
  with_parent (node_item d parent) parent = node_item d parent.
Proof. unfold node_item. destruct (node_type d); reflexivity. Qed.

Lemma node_item_id (d : NodeData) (parent : pointer) :
  item_id (node_item d parent) = if is_comment d then "id-%d" else node_id d.
Proof. unfold node_item, is_comment. destruct (node_type d); reflexivity. Qed.

Lemma with_children_nil (it : Item) :
  item_children it = [] -> with_children it [] = it.
Proof. destruct it; simpl. now intros ->. Qed.

Lemma convertNode_spec (fuel : nat) (d : NodeData) (parent : pointer) (m : Model) :
  (is_comment d = true -> states_map m !! "id-%d" = None) ->
  exists rc,
    convertNode (S fuel) d parent m
    = Ok (length (heap m),
          set_rand_calls rc (set_heap (heap m ++ [node_item d parent]) m)).
Proof.
  intros Hfree. unfold convertNode, node_item, is_comment in *.
  destruct (node_type d) eqn:Hty; simpl.
  - exists (rand_calls m). reflexivity.
  - unfold generateID. rewrite generateID_loop_free by (apply Hfree; reflexivity).
    simpl. exists (S (rand_calls m)). reflexivity.
  - exists (rand_calls m). reflexivity.
  - exists (rand_calls m). reflexivity.
Qed.

Lemma addChild_spec (m : Model) (P c : ptr) (itP itc : Item) :
  heap m !! P = Some itP ->
  heap m !! c = Some itc ->
  P <> c ->
  addChild (Some P) c m
  = Ok (set_heap (<[c := with_parent itc (Some P)]>
                    (<[P := with_children itP (item_children itP ++ [c])]> (heap m))) m).
Proof.
  intros HP Hc Hne. unfold addChild, deref. rewrite HP. simpl.
  rewrite list_lookup_insert_ne by exact Hne. rewrite Hc. reflexivity.
Qed.

Lemma null_guard (fuel : nat) (ch : CyberiadaNode) (p : pointer) (m : Model) :
  (if is_null ch then Ok m else addChildNodes fuel ch p false m)
  = addChildNodes fuel ch p false m.
Proof. destruct ch; reflexivity. Qed.

Lemma addChildNodes_cons (fuel : nat) (d : NodeData) (ch nx : CyberiadaNode)
    (parent_item : pointer) (toplevel : bool) (m : Model) :
  addChildNodes fuel (NodeCons d ch nx) parent_item toplevel m
  = let* (item, m1) := convertNode fuel d parent_item m in
    let* m2 :=
      (if toplevel then
         if is_null ch then Ok m1
         else addChildNodes fuel ch parent_item false m1
       else
         let* id := getID (heap m1) (Some item) in
         let* m1a := addToMap fuel id item m1 in
         let* m1b := addChild parent_item item m1a in
         if is_null ch then Ok m1b
         else addChildNodes fuel ch (Some item) false m1b) in
    addChildNodes fuel nx parent_item toplevel m2.
Proof. reflexivity. Qed.

Lemma addChildNodes_converts (n : CyberiadaNode) :
  forall (fuel : nat) (P : ptr) (toplevel : bool) (m : Model) (itP : Item),
    heap m !! P = Some itP ->
    count_nodes n + size (states_map m) < fuel ->
    plain_ids n ->
    count_comments n = 0 \/
      (count_comments n <= 1 /\ states_map m !! "id-%d" = None) ->
    converts toplevel n P itP m (addChildNodes fuel n (Some P) toplevel m).
Proof.
  induction n as [|d ch IHch nx IHnx]; intros fuel P toplevel m itP HP Hfuel Hplain Hcom.
  { exists (heap m), (states_map m), (rand_calls m), [].
    destruct m; simpl in *. rewrite app_nil_r.
    split; [reflexivity|]. split; [lia|]. split; [auto|].
    split; [destruct itP; exact HP|].
    split; [destruct toplevel; exact I|]. split; [reflexivity|]. split; [lia|].
    split; [auto|]. intros id Hid. destruct toplevel; now apply not_elem_of_nil in Hid. }
  destruct fuel as [|fuel]; [simpl in Hfuel; lia|].
  destruct Hplain as [Hd [Hpch Hpnx]]. simpl in Hfuel, Hcom.
  assert (Hgen : is_comment d = true -> states_map m !! "id-%d" = None).
  { intros Hc. rewrite Hc in Hcom. destruct Hcom as [H|[_ H]]; [lia|exact H]. }
  destruct (convertNode_spec fuel d (Some P) m Hgen) as [rc1 Hconv].
  pose proof (lookup_lt_Some _ _ _ HP) as HPlt.
  set (x := node_item d (Some P)) in *.
  set (p := length (heap m)) in *.
  rewrite addChildNodes_cons, Hconv. cbv beta iota delta [bind].
  destruct toplevel.
  - (* a top-level node: its item stays unattached *)
    rewrite null_guard.
    set (m1 := set_rand_calls rc1 (set_heap (heap m ++ [x]) m)).
    assert (Hlen1 : length (heap m1) = S p).
    { simpl. rewrite length_app. simpl. lia. }
    destruct (IHch (S fuel) P false m1 itP) as
        (h2 & sm2 & rc2 & ps1 & Hrun2 & Hlen2 & Hfr2 & HP2 & Hmir2 & Hsub2 & Hsz2 & Hgen2 & Hids2).
    { simpl. now apply lookup_app_l_Some. }
    { simpl. lia. }
    { exact Hpch. }
    { simpl. destruct (is_comment d); destruct Hcom as [H|[H1 H2]];
        first [left; lia | right; split; [lia|exact H2]]. }
    rewrite Hrun2.
    set (m2 := set_rand_calls rc2 (set_states_map sm2 (set_heap h2 m1))).
    destruct (IHnx (S fuel) P true m2 (with_children itP (item_children itP ++ ps1))) as
        (h3 & sm3 & rc3 & ps2 & Hrun3 & Hlen3 & Hfr3 & HP3 & Hmir3 & Hsub3 & Hsz3 & Hgen3 & Hids3).
    { exact HP2. }
    { simpl in Hsz2 |- *. lia. }
    { exact Hpnx. }
    { simpl in Hgen2 |- *.
      destruct (is_comment d); destruct Hcom as [H|[H1 H2]];
        first [left; lia
              | destruct (count_comments nx) eqn:En;
                [left; reflexivity
                |right; split; [lia|apply Hgen2; [lia|exact H2]]]]. }
    simpl in Hlen2, Hlen3, Hfr2, Hfr3, Hsub2, Hsub3, Hsz2, Hsz3, Hgen2, Hgen3, Hmir2, Hmir3.
    exists h3, sm3, rc3, (ps1 ++ ps2).
    split; [rewrite Hrun3; reflexivity|].
    split; [simpl; rewrite length_app in *; simpl in *; lia|].
    split.
    { intros q Hq HqP. rewrite Hfr3 by (rewrite ?length_app in *; simpl in *; lia || exact HqP).
      rewrite Hfr2 by (rewrite ?length_app in *; simpl in *; lia || exact HqP).
      apply lookup_app_l. exact Hq. }
    split.
    { rewrite HP3. simpl. now rewrite app_assoc. }
    split.
    { simpl. apply mirrors_app.
      - eapply mirrors_frame; [| exact Hsub3 | | | exact Hmir2].
        + intros q Hq. apply Hfr3; [lia|]. rewrite length_app in Hq. simpl in Hq. lia.
        + rewrite length_app. simpl. lia.
        + lia.
      - eapply mirrors_frame; [| reflexivity | | | exact Hmir3].
        + auto.
        + rewrite length_app in *. simpl in *. lia.
        + lia. }
    split; [etrans; eassumption|].
    split; [simpl; lia|].
    split.
    { simpl. intros Hc0 Hfree. apply Hgen3; [lia|]. apply Hgen2; [lia|exact Hfree]. }
    intros id Hid. simpl in Hid. apply node_ids_app in Hid. destruct Hid as [Hid|Hid].
    + destruct (Hids2 id Hid) as [v Hv]. exists v. eapply lookup_weaken; eassumption.
    + now apply Hids3.
  - (* a node below the top level: registered and attached under [P] *)
    assert (Hxp : (heap m ++ [x]) !! p = Some x) by now apply list_lookup_middle.
    assert (Hget : getID (heap m ++ [x]) (Some p) = Ok (item_id x)).
    { unfold getID, deref. rewrite Hxp. reflexivity. }
    simpl heap. rewrite Hget. cbv beta iota delta [bind].
    destruct (addToMap_loop_total (S fuel) (states_map m) (item_id x))
      as [k [Hloop [Hfree Hbelow]]]; [lia|].
    unfold addToMap. simpl states_map. rewrite Hloop. cbv beta iota delta [bind].
    set (sm1 := <[suffixed (item_id x) k := p]> (states_map m)).
    set (itP1 := with_children itP (item_children itP ++ [p])).
    set (h1 := <[P := itP1]> (heap m ++ [x])).
    rewrite (addChild_spec _ P p itP x); [| simpl; now apply lookup_app_l_Some
                                          | exact Hxp | lia].
    cbv beta iota delta [bind]. rewrite null_guard.
    unfold x at 1. rewrite node_item_parent. fold x.
    simpl heap. fold itP1. fold h1.
    rewrite (list_insert_id h1 p x)
      by (unfold h1; rewrite list_lookup_insert_ne by lia; exact Hxp).
    set (m1 := set_heap h1 (set_states_map sm1
                 (set_rand_calls rc1 (set_heap (heap m ++ [x]) m)))).
    assert (Hh1len : length h1 = S p).
    { unfold h1. rewrite length_insert, length_app. simpl. lia. }
    assert (Hh1p : h1 !! p = Some x).
    { unfold h1. rewrite list_lookup_insert_ne by lia. exact Hxp. }
    assert (Hh1P : h1 !! P = Some itP1).
    { unfold h1. apply list_lookup_insert_eq. rewrite length_app. simpl. lia. }
    assert (Hsm1 : states_map m ⊆ sm1) by (apply insert_subseteq; exact Hfree).
    assert (Hsz1 : size sm1 = S (size (states_map m)))
      by (apply map_size_insert_None; exact Hfree).
    assert (Hreg : sm1 !! suffixed (item_id x) k = Some p) by apply lookup_insert_eq.
    assert (Hgid1 : states_map m !! "id-%d" = None -> is_comment d = false ->
                    sm1 !! "id-%d" = None).
    { intros H0 Hnc. unfold sm1. rewrite lookup_insert_ne; [exact H0|].
      intros E. apply suffixed_generated in E. unfold x in E.
      rewrite node_item_id, Hnc in E. now apply Hd. }
    destruct (IHch (S fuel) p false m1 x) as
        (h2 & sm2 & rc2 & ps1 & Hrun2 & Hlen2 & Hfr2 & HP2 & Hmir2 & Hsub2 & Hsz2 & Hgen2 & Hids2).
    { exact Hh1p. }
    { simpl. lia. }
    { exact Hpch. }
    { simpl. destruct (is_comment d) eqn:Ec; destruct Hcom as [H|[H1 H2]];
        first [left; lia | right; split; [lia|apply Hgid1; [exact H2|reflexivity]]]. }
    rewrite Hrun2.
    set (m2 := set_rand_calls rc2 (set_states_map sm2 (set_heap h2 m1))).
    simpl in Hlen2, Hfr2, Hsub2, Hsz2, Hgen2, Hmir2.
    destruct (IHnx (S fuel) P false m2 itP1) as
        (h3 & sm3 & rc3 & ps2 & Hrun3 & Hlen3 & Hfr3 & HP3 & Hmir3 & Hsub3 & Hsz3 & Hgen3 & Hids3).
    { simpl. rewrite Hfr2; [exact Hh1P|lia|lia]. }
    { simpl. lia. }
    { exact Hpnx. }
    { simpl. destruct (is_comment d) eqn:Ec; destruct Hcom as [H|[H1 H2]];
        first [left; lia
              | destruct (count_comments nx) eqn:En;
                [left; reflexivity
                |right; split; [lia|apply Hgen2; [lia|apply Hgid1; [exact H2|reflexivity]]]]]. }
    simpl in Hlen3, Hfr3, Hsub3, Hsz3, Hgen3, Hmir3.
    exists h3, sm3, rc3, (p :: ps2).
    split; [rewrite Hrun3; reflexivity|].
    split; [simpl; lia|].
    split.
    { intros q Hq HqP. rewrite Hfr3 by lia. rewrite Hfr2 by lia.
      unfold h1. rewrite list_lookup_insert_ne by lia. apply lookup_app_l. exact Hq. }
    split.
    { rewrite HP3. unfold itP1. simpl. now rewrite <- app_assoc. }
    split.
    { simpl. split; [lia|]. exists (with_children x (item_children x ++ ps1)).
      split; [rewrite Hfr3 by lia; exact HP2|].
      split.
      { transitivity (with_children x []); [reflexivity|].
        apply with_children_nil, node_item_children. }
      split.
      { exists k. simpl. eapply lookup_weaken; [exact Hreg|]. etrans; eassumption. }
      split.
      { simpl. unfold x at 1. rewrite node_item_children. simpl.
        eapply mirrors_frame; [| exact Hsub3 | | | exact Hmir2].
        - intros q Hq. apply Hfr3; lia.
        - lia.
        - lia. }
      eapply mirrors_frame; [| reflexivity | | | exact Hmir3]; [auto|lia|lia]. }
    split; [etrans; [exact Hsm1|]; etrans; eassumption|].
    split; [simpl; lia|].
    split.
    { simpl. intros Hc0 Hfree0. destruct (is_comment d) eqn:Ec; [lia|].
      apply Hgen3; [lia|]. apply Hgen2; [lia|]. now apply Hgid1. }
    simpl. intros id Hid. rewrite !elem_of_app in Hid. destruct Hid as [Hid|[Hid|Hid]].
    + destruct (is_comment d) eqn:Ec; [now apply not_elem_of_nil in Hid|].
      apply list_elem_of_singleton in Hid. subst id.
      assert (His : is_Some (sm1 !! item_id x)).
      { destruct k as [|k]; [exists p; exact Hreg|].
        destruct (Hbelow 0) as [v Hv]; [lia|]. exists v.
        eapply lookup_weaken; [exact Hv|exact Hsm1]. }
      unfold x in His. rewrite node_item_id, Ec in His. destruct His as [v Hv].
      exists v. eapply lookup_weaken; [exact Hv|]. etrans; eassumption.
    + destruct (Hids2 id Hid) as [v Hv]. exists v. eapply lookup_weaken; eassumption.
    + now apply Hids3.
Qed.

Lemma reset_spec (m : Model) :
  reset m
  = Ok (mkModel (CyberiadaRootItem 0) (Some 0) (Some 1) (Some 2) (Some 3) ∅
                (sm_name m) (sm_version m) (cyberiadaStateMimeType m) (rand_calls m)
                ((signals m ++ [modelAboutToBeReset]) ++ [modelReset])).
Proof. reflexivity. Qed.

Lemma convertEdge_resolvable (e : CyberiadaEdge) (m : Model) :
  resolvable (states_map m) e ->
  convertEdge e m
  = (Some (length (heap m)),
     set_heap (heap m ++ [with_parent (edge_item (states_map m) 0 e) None]) m).
Proof.
  intros [[s Hs] [t Ht]]. unfold convertEdge, edge_item. rewrite Hs, Ht. reflexivity.
Qed.

Lemma loadEdges_spec (es : list CyberiadaEdge) :
  forall (m : Model) (TR : ptr) (itT : Item),
    trans_root m = Some TR ->
    heap m !! TR = Some itT ->
    Forall (resolvable (states_map m)) es ->
    exists h' ts,
      loadEdges es m = Ok (set_heap h' m) /\
      length h' = length (heap m) + length es /\
      (forall q, q < length (heap m) -> q <> TR -> h' !! q = heap m !! q) /\
      h' !! TR = Some (with_children itT (item_children itT ++ ts)) /\
      Forall2 (fun t e => h' !! t = Some (edge_item (states_map m) TR e)) ts es.
Proof.
  induction es as [|e es IH]; intros m TR itT Hroot HT Hres.
  { exists (heap m), []. simpl. rewrite app_nil_r.
    split; [destruct m; reflexivity|]. split; [lia|]. split; [auto|].
    split; [destruct itT; exact HT|constructor]. }
  apply Forall_cons in Hres. destruct Hres as [He Hes].
  pose proof (lookup_lt_Some _ _ _ HT) as HTlt.
  simpl. rewrite (convertEdge_resolvable e m He).
  set (t := length (heap m)).
  set (x := with_parent (edge_item (states_map m) 0 e) None).
  assert (Hxt : (heap m ++ [x]) !! t = Some x) by now apply list_lookup_middle.
  simpl trans_root. rewrite Hroot.
  rewrite (addChild_spec _ TR t itT x);
    [|simpl; now apply lookup_app_l_Some|exact Hxt|lia].
  cbv beta iota delta [bind]. simpl heap.
  set (itT1 := with_children itT (item_children itT ++ [t])).
  set (h1 := <[t := with_parent x (Some TR)]> (<[TR := itT1]> (heap m ++ [x]))).
  assert (Hlen1 : length h1 = S t).
  { unfold h1. rewrite !length_insert, length_app. simpl. lia. }
  assert (Hh1t : h1 !! t = Some (edge_item (states_map m) TR e)).
  { unfold h1. rewrite list_lookup_insert_eq; [reflexivity|].
    rewrite length_insert, length_app. simpl. lia. }
  assert (Hh1T : h1 !! TR = Some itT1).
  { unfold h1. rewrite list_lookup_insert_ne by lia.
    apply list_lookup_insert_eq. rewrite length_app. simpl. lia. }
  destruct (IH (set_heap h1 (set_heap (heap m ++ [x]) m)) TR itT1)
    as (h' & ts & Hrun & Hlen & Hfr & HT' & Hts).
  { exact Hroot. }
  { exact Hh1T. }
  { exact Hes. }
  simpl in Hlen, Hfr, Hts.
  exists h', (t :: ts).
  split; [rewrite Hrun; reflexivity|].
  split; [simpl; lia|].
  split.
  { intros q Hq HqT. rewrite Hfr by lia. unfold h1.
    rewrite !list_lookup_insert_ne by lia. now apply lookup_app_l. }
  split.
  { rewrite HT'. unfold itT1. simpl. now rewrite <- app_assoc. }
  constructor; [|exact Hts].
  rewrite Hfr by lia. exact Hh1t.
Qed.

Lemma renameSM_fresh (name : string) (m : Model) :
  heap m = CyberiadaRootItem 0 ->
  sm_root m = Some 1 ->
  exists nm t,
    renameSM name m
    = Ok (set_sm_name nm
            (set_heap [ mkItem nodeRoot None [1] "" "" "" NoGeometry None None;
                        mkItem nodeSM (Some 0) [2; 3] "" t "" NoGeometry None None;
                        mkItem nodeStatesAggr (Some 1) [] "" "" "" NoGeometry None None;
                        mkItem nodeTransitionsAggr (Some 1) [] "" "" "" NoGeometry None None ]
                      m)).
Proof.
  intros Hh Hr. unfold renameSM.
  destruct (0 <? String.length name)%nat.
  - exists name, name. unfold rename. simpl. rewrite Hr, Hh. reflexivity.
  - exists (sm_name m), fresh_root_title. destruct m; simpl in *. now subst.
Qed.

Lemma convertEdge_unresolvable (e : CyberiadaEdge) (m : Model) :
  ~ resolvable (states_map m) e -> convertEdge e m = (None, m).
Proof.
  unfold resolvable, convertEdge. intros Hno.
  destruct (states_map m !! node_id (edge_source e)) as [s|]; [|reflexivity].
  destruct (states_map m !! node_id (edge_target e)) as [t|]; [|reflexivity].
  exfalso. apply Hno. split; eauto.
Qed.

Lemma addChild_states_map (p : pointer) (c : ptr) (m m' : Model) :
  addChild p c m = Ok m' -> states_map m' = states_map m.
Proof.
  unfold addChild. destruct (deref (heap m) p); cbv beta iota zeta delta [bind];
    [|discriminate..].
  match goal with |- context [deref ?h (Some c)] => destruct (deref h (Some c)) end;
    [intros [= <-]; reflexivity|discriminate..].
Qed.

(** The edge loop builds the transitions of the resolving prefix and no
    other. *)
Lemma loadEdges_prefix (es : list CyberiadaEdge) :
  forall m : Model, loadEdges es m = loadEdges (resolved_prefix (states_map m) es) m.
Proof.
  induction es as [|e es IH]; intros m; [reflexivity|].
  simpl resolved_prefix. destruct (decide (resolvable (states_map m) e)) as [He|He].
  - simpl. rewrite (convertEdge_resolvable e m He). simpl trans_root.
    match goal with |- context [addChild ?p ?c ?m0] =>
      destruct (addChild p c m0) as [m2| |] eqn:Ea end; simpl; try reflexivity.
    apply addChild_states_map in Ea. simpl in Ea. rewrite <- Ea. apply IH.
  - simpl. rewrite (convertEdge_unresolvable e m He). reflexivity.
Qed.

Lemma resolved_prefix_resolvable (sm : gmap string ptr) (es : list CyberiadaEdge) :
  Forall (resolvable sm) (resolved_prefix sm es).
Proof.
  induction es as [|e es IH]; simpl; [constructor|].
  destruct (decide (resolvable sm e)); constructor; assumption.
Qed.

Lemma resolved_prefix_all (sm : gmap string ptr) (es : list CyberiadaEdge) :
  Forall (resolvable sm) es -> resolved_prefix sm es = es.
Proof.
  induction 1 as [|e es He _ IH]; simpl; [reflexivity|].
  rewrite decide_True by exact He. now rewrite IH.
Qed.

Lemma resolved_prefix_short (sm : gmap string ptr) (es : list CyberiadaEdge) :
  ~ Forall (resolvable sm) es -> length (resolved_prefix sm es) < length es.
Proof.
  induction es as [|e es IH]; intros Hno; simpl.
  - exfalso. apply Hno. constructor.
  - destruct (decide (resolvable sm e)) as [He|He]; simpl; [|lia].
    assert (length (resolved_prefix sm es) < length es); [|lia].
    apply IH. intros Hall. apply Hno. now constructor.
Qed.

(** A whole run of [loadGraph] on a document with at most one comment. *)
Lemma loadGraph_run (fuel : nat) (file : string) (sm : CyberiadaSM) (m : Model) :
  cyberiada_read_sm file = (CYBERIADA_NO_ERROR, sm) ->
  count_comments (nodes sm) <= 1 ->
  plain_ids (nodes sm) ->
  count_nodes (nodes sm) < fuel ->
  exists m' itS itT,
    loadGraph fuel file m = Ok m' /\
    states_root m' = Some 2 /\ heap m' !! 2 = Some itS /\
    item_type itS = nodeStatesAggr /\
    trans_root m' = Some 3 /\ heap m' !! 3 = Some itT /\
    item_type itT = nodeTransitionsAggr /\
    mirrors (heap m') (states_map m') 0 (length (heap m')) 2 (item_children itS)
            (hoisted (nodes sm)) /\
    sum_list (map (subtree_size (length (heap m')) (heap m')) (item_children itS))
      = count_nodes (hoisted (nodes sm)) /\
    Forall2 (fun t e => heap m' !! t = Some (edge_item (states_map m') 3 e))
            (item_children itT) (resolved_prefix (states_map m') (edges sm)) /\
    (forall id, id ∈ node_ids (hoisted (nodes sm)) -> is_Some (states_map m' !! id)).
Proof.
  intros Hread Hcom Hplain Hfuel.
  unfold loadGraph. rewrite reset_spec. cbv beta iota delta [bind]. rewrite Hread.
  change (negb (CYBERIADA_NO_ERROR =? CYBERIADA_NO_ERROR)%Z) with false. cbv iota.
  match goal with |- context [renameSM _ ?m0] => set (m1 := m0) end.
  destruct (renameSM_fresh (doc_name sm) m1) as (nm & t & Hren); [reflexivity..|].
  rewrite Hren. cbv beta iota delta [bind]. clear Hren.
  match goal with |- context [addChildNodes _ _ _ _ ?m0] => set (m2 := m0) end.
  change (states_root m2) with (Some 2).
  destruct (addChildNodes_converts (nodes sm) fuel 2 true m2
              (mkItem nodeStatesAggr (Some 1) [] "" "" "" NoGeometry None None))
    as (h3 & sm3 & rc3 & ps & Hrun3 & Hlen3 & Hfr3 & HP3 & Hmir3 & Hsub3 & Hsz3 & _ & Hids3).
  { reflexivity. }
  { simpl. rewrite map_size_empty. lia. }
  { exact Hplain. }
  { right. split; [exact Hcom|]. apply lookup_empty. }
  rewrite Hrun3. simpl in Hlen3, Hfr3, HP3, Hmir3.
  set (m3 := set_rand_calls rc3 (set_states_map sm3 (set_heap h3 m2))).
  rewrite (loadEdges_prefix (edges sm) m3). simpl states_map.
  destruct (loadEdges_spec (resolved_prefix sm3 (edges sm)) m3 3
              (mkItem nodeTransitionsAggr (Some 1) [] "" "" "" NoGeometry None None))
    as (h4 & ts & Hrun4 & Hlen4 & Hfr4 & HT4 & Hts4).
  { reflexivity. }
  { simpl. rewrite Hfr3 by lia. reflexivity. }
  { apply resolved_prefix_resolvable. }
  rewrite Hrun4. simpl in Hlen4, Hfr4, HT4, Hts4.
  eexists _, _, _.
  split; [reflexivity|].
  split; [reflexivity|].
  split; [simpl; rewrite Hfr4 by lia; exact HP3|].
  split; [reflexivity|].
  split; [reflexivity|].
  split; [exact HT4|].
  split; [reflexivity|].
  assert (Hmir4 : mirrors h4 sm3 0 (length h4) 2 ps (hoisted (nodes sm))).
  { eapply mirrors_frame; [| reflexivity | | | exact Hmir3].
    - intros q Hq. apply Hfr4; lia.
    - lia.
    - lia. }
  split; [exact Hmir4|].
  split.
  { simpl. eapply mirrors_size; [exact Hmir4|].
    assert (Hle : forall n, count_nodes (hoisted n) <= count_nodes n).
    { induction n as [|d ch _ nx IH]; simpl; [lia|]. rewrite count_nodes_app. lia. }
    specialize (Hle (nodes sm)). lia. }
  split; [exact Hts4|exact Hids3].
Qed.

(** C1 (as the code has it): on a document with at most one comment and no
    state or initial node identified id-%d, and with fuel above the number of
    nodes, [loadGraph] returns; the states container holds the items of all
    nodes below the top level, whatever the edges are; and the transitions
    container holds one transition for each edge before the first edge whose
    source or target identifier does not resolve in the index, in order.  So
    when an edge does not resolve, fewer transitions than edges are built,
    and the nodes and the earlier transitions stay in the hierarchy. *)
Theorem loadGraph_stops_at_unresolved_edge
    (fuel : nat) (file : string) (sm : CyberiadaSM) (m : Model) :
  cyberiada_read_sm file = (CYBERIADA_NO_ERROR, sm) ->
  count_comments (nodes sm) <= 1 ->
  plain_ids (nodes sm) ->
  count_nodes (nodes sm) < fuel ->
  exists m' sr tr itS itT,
    loadGraph fuel file m = Ok m' /\
    states_root m' = Some sr /\ heap m' !! sr = Some itS /\
    trans_root m' = Some tr /\ heap m' !! tr = Some itT /\
    mirrors (heap m') (states_map m') 0 (length (heap m')) sr (item_children itS)
            (hoisted (nodes sm)) /\
    sum_list (map (subtree_size (length (heap m')) (heap m')) (item_children itS))
      = count_nodes (hoisted (nodes sm)) /\
    Forall2 (fun t e => heap m' !! t = Some (edge_item (states_map m') tr e))
            (item_children itT) (resolved_prefix (states_map m') (edges sm)) /\
    (~ Forall (resolvable (states_map m')) (edges sm) ->
     length (item_children itT) < length (edges sm)).
Proof.
  intros Hread Hcom Hplain Hfuel.
  destruct (loadGraph_run fuel file sm m Hread Hcom Hplain Hfuel)
    as (m' & itS & itT & Hrun & Hsr & HS & _ & Htr & HT & _ & Hmir & Hsize & Hts & _).
  exists m', 2, 3, itS, itT.
  repeat (split; [assumption|]).
  intros Hno. apply Forall2_length in Hts. rewrite Hts.
  now apply resolved_prefix_short.
Qed.

(** C6 (as the code has it): take a document with at most one comment node
    and no state or initial node named like a generated identifier, with N
    nodes below the top level and M edges whose end identifiers are those of
    state or initial nodes below the top level.  Then [loadGraph] returns;
    the children of the states container mirror the N nodes one to one, as
    state, initial-state and comment items, so the subtrees below it hold
    exactly N items; and the transitions container has exactly M children,
    one transition per edge in document order, whose source and target are
    the items the index holds under the edge's two end identifiers. *)
Theorem loadGraph_converts_document
    (fuel : nat) (file : string) (sm : CyberiadaSM) (m : Model) :
  cyberiada_read_sm file = (CYBERIADA_NO_ERROR, sm) ->
  count_comments (nodes sm) <= 1 ->
  plain_ids (nodes sm) ->
  Forall (fun e => node_id (edge_source e) ∈ node_ids (hoisted (nodes sm)) /\
                   node_id (edge_target e) ∈ node_ids (hoisted (nodes sm)))
         (edges sm) ->
  count_nodes (nodes sm) < fuel ->
  exists m' sr tr itS itT,
    loadGraph fuel file m = Ok m' /\
    states_root m' = Some sr /\ heap m' !! sr = Some itS /\
    item_type itS = nodeStatesAggr /\
    trans_root m' = Some tr /\ heap m' !! tr = Some itT /\
    item_type itT = nodeTransitionsAggr /\
    mirrors (heap m') (states_map m') 0 (length (heap m')) sr (item_children itS)
            (hoisted (nodes sm)) /\
    sum_list (map (subtree_size (length (heap m')) (heap m')) (item_children itS))
      = count_nodes (hoisted (nodes sm)) /\
    length (item_children itT) = length (edges sm) /\
    Forall2 (fun t e => heap m' !! t = Some (edge_item (states_map m') tr e) /\
                        resolvable (states_map m') e)
            (item_children itT) (edges sm).
Proof.
  intros Hread Hcom Hplain Hedges Hfuel.
  destruct (loadGraph_run fuel file sm m Hread Hcom Hplain Hfuel)
    as (m' & itS & itT & Hrun & Hsr & HS & HtyS & Htr & HT & HtyT & Hmir & Hsize
        & Hts & Hids).
  assert (Hres : Forall (resolvable (states_map m')) (edges sm)).
  { eapply Forall_impl; [exact Hedges|].
    intros e [Hs Ht]. split; now apply Hids. }
  rewrite (resolved_prefix_all _ _ Hres) in Hts.
  exists m', 2, 3, itS, itT.
  repeat (split; [assumption|]).
  split; [now apply Forall2_length in Hts|].
  clear - Hts Hres.
  remember (edges sm) as es eqn:Ees. clear Ees.
  induction Hts as [|q e qs es Hq _ IH]; [constructor|].
  apply Forall_cons in Hres. destruct Hres as [He Hes].
  constructor; [split; assumption|exact (IH Hes)].
Qed.

(** *** A second comment

    The first comment below the top level takes the identifier the generator
    proposes; the conversion of any later comment then never returns. *)

Lemma attach_comment (fuel : nat) (d : NodeData) (nx : CyberiadaNode)
    (P : ptr) (itP : Item) (m : Model) :
  heap m !! P = Some itP ->
  size (states_map m) < S fuel ->
  is_comment d = true ->
  states_map m !! "id-%d" = None ->
  exists m1,
    addChildNodes (S fuel) (NodeCons d NodeNull nx) (Some P) false m
    = addChildNodes (S fuel) nx (Some P) false m1 /\
    is_Some (states_map m1 !! "id-%d").
Proof.
  intros HP Hsize Hc Hfree.
  destruct (convertNode_spec fuel d (Some P) m (fun _ => Hfree)) as [rc1 Hconv].
  pose proof (lookup_lt_Some _ _ _ HP) as HPlt.
  set (x := node_item d (Some P)) in *.
  set (p := length (heap m)) in *.
  assert (Hxp : (heap m ++ [x]) !! p = Some x) by now apply list_lookup_middle.
  assert (Hid : item_id x = "id-%d") by (unfold x; rewrite node_item_id, Hc; reflexivity).
  assert (Hget : getID (heap m ++ [x]) (Some p) = Ok "id-%d").
  { unfold getID, deref. rewrite Hxp. simpl. now rewrite Hid. }
  rewrite addChildNodes_cons, Hconv. cbv beta iota delta [bind].
  simpl heap. rewrite Hget. cbv beta iota delta [bind].
  unfold addToMap. simpl states_map.
  rewrite (addToMap_loop_first_free (S fuel) (states_map m) "id-%d" 0);
    [|lia|exact Hfree|intros j Hj; lia].
  cbv beta iota delta [bind].
  rewrite (addChild_spec _ P p itP x);
    [|simpl; now apply lookup_app_l_Some|exact Hxp|lia].
  cbv beta iota delta [bind]. simpl is_null. cbv iota.
  eexists. split; [reflexivity|].
  simpl. exists p. apply lookup_insert_eq.
Qed.

Lemma later_comment_spins (fuel : nat) (d : NodeData) (ch nx : CyberiadaNode)
    (parent : pointer) (toplevel : bool) (m : Model) :
  is_comment d = true ->
  fuel = 0 \/ is_Some (states_map m !! "id-%d") ->
  addChildNodes fuel (NodeCons d ch nx) parent toplevel m = Diverge.
Proof.
  intros Hc Htaken. rewrite addChildNodes_cons. unfold convertNode.
  unfold is_comment in Hc. apply bool_decide_eq_true in Hc. rewrite Hc. simpl.
  unfold generateID. destruct Htaken as [->|Htaken]; [reflexivity|].
  rewrite generateID_loop_taken by exact Htaken. reflexivity.
Qed.

Lemma convertNode_plain (fuel : nat) (d : NodeData) (parent : pointer) (m : Model) :
  is_comment d = false ->
  convertNode fuel d parent m
  = Ok (length (heap m), set_heap (heap m ++ [node_item d parent]) m).
Proof.
  intros Hc. unfold is_comment in Hc. apply bool_decide_eq_false in Hc.
  unfold convertNode, node_item.
  destruct (node_type d); try reflexivity. now destruct Hc.
Qed.

Lemma two_comments_spin (fuel : nat) (top d1 d2 : NodeData)
    (ch2 nx2 tnx : CyberiadaNode) (file : string) (sm : CyberiadaSM) (m : Model) :
  cyberiada_read_sm file = (CYBERIADA_NO_ERROR, sm) ->
  nodes sm = NodeCons top (NodeCons d1 NodeNull (NodeCons d2 ch2 nx2)) tnx ->
  is_comment top = false ->
  is_comment d1 = true ->
  is_comment d2 = true ->
  loadGraph fuel file m = Diverge.
Proof.
  intros Hread Hnodes Htop Hc1 Hc2.
  unfold loadGraph. rewrite reset_spec. cbv beta iota delta [bind]. rewrite Hread.
  change (negb (CYBERIADA_NO_ERROR =? CYBERIADA_NO_ERROR)%Z) with false. cbv iota.
  match goal with |- context [renameSM _ ?m0] => set (m1 := m0) end.
  destruct (renameSM_fresh (doc_name sm) m1) as (nm & t & Hren); [reflexivity..|].
  rewrite Hren. cbv beta iota delta [bind]. clear Hren.
  match goal with |- context [addChildNodes _ _ _ _ ?m0] => set (m2 := m0) end.
  change (states_root m2) with (Some 2). rewrite Hnodes.
  rewrite addChildNodes_cons, (convertNode_plain _ top) by exact Htop.
  cbv beta iota delta [bind]. simpl is_null. cbv iota.
  match goal with |- context [addChildNodes _ _ _ false ?m0] => set (m3 := m0) end.
  destruct fuel as [|fuel].
  { rewrite (later_comment_spins 0 d1) by auto. reflexivity. }
  destruct (attach_comment fuel d1 (NodeCons d2 ch2 nx2) 2
              (mkItem nodeStatesAggr (Some 1) [] "" "" "" NoGeometry None None) m3)
    as [m4 [Hstep Htaken]].
  { reflexivity. }
  { simpl. rewrite map_size_empty. lia. }
  { exact Hc1. }
  { apply lookup_empty. }
  rewrite Hstep. rewrite (later_comment_spins _ d2) by auto. reflexivity.
Qed.

(** *** The media type is fixed

    No method changes the media type the constructor sets. *)

Lemma convertNode_mime (fuel : nat) (d : NodeData) (parent : pointer)
    (m m' : Model) (item : ptr) :
  convertNode fuel d parent m = Ok (item, m') ->
  cyberiadaStateMimeType m' = cyberiadaStateMimeType m.
Proof.
  unfold convertNode, generateID.
  destruct (decide (node_type d = cybNodeInitial)); [intros [= _ <-]; reflexivity|].
  destruct (decide (node_type d = cybNodeComment)); [|intros [= _ <-]; reflexivity].
  destruct (generateID_loop fuel (states_map m) (rand_calls m)) as [[s c]| |];
    simpl; [intros [= _ <-]; reflexivity|discriminate..].
Qed.

Lemma addToMap_mime (fuel : nat) (id : string) (item : ptr) (m m' : Model) :
  addToMap fuel id item m = Ok m' ->
  cyberiadaStateMimeType m' = cyberiadaStateMimeType m.
Proof.
  unfold addToMap. destruct (addToMap_loop fuel (states_map m) id); simpl;
    [intros [= <-]; reflexivity|discriminate..].
Qed.

Lemma addChild_mime (p : pointer) (c : ptr) (m m' : Model) :
  addChild p c m = Ok m' ->
  cyberiadaStateMimeType m' = cyberiadaStateMimeType m.
Proof.
  unfold addChild. destruct (deref (heap m) p); cbv beta iota zeta delta [bind];
    [|discriminate..].
  match goal with |- context [deref ?h (Some c)] => destruct (deref h (Some c)) end;
    [intros [= <-]; reflexivity|discriminate..].
Qed.

Lemma rename_mime (p : pointer) (t : string) (m m' : Model) :
  rename p t m = Ok m' ->
  cyberiadaStateMimeType m' = cyberiadaStateMimeType m.
Proof.
  unfold rename. destruct (deref (heap m) p); simpl; [|discriminate..].
  destruct p; [intros [= <-]; reflexivity|discriminate].
Qed.

Lemma addChildNodes_mime (n : CyberiadaNode) :
  forall (fuel : nat) (parent : pointer) (toplevel : bool) (m m' : Model),
    addChildNodes fuel n parent toplevel m = Ok m' ->
    cyberiadaStateMimeType m' = cyberiadaStateMimeType m.
Proof.
  induction n as [|d ch IHch nx IHnx]; intros fuel parent toplevel m m'.
  { intros [= <-]. reflexivity. }
  rewrite addChildNodes_cons.
  destruct (convertNode fuel d parent m) as [[item m1]| |] eqn:E1; simpl;
    [|discriminate..].
  apply convertNode_mime in E1.
  destruct toplevel.
  - rewrite null_guard.
    destruct (addChildNodes fuel ch parent false m1) as [m2| |] eqn:E2; simpl;
      [|discriminate..].
    apply IHch in E2. intros E3. apply IHnx in E3. congruence.
  - destruct (getID (heap m1) (Some item)) as [id| |]; simpl; [|discriminate..].
    destruct (addToMap fuel id item m1) as [m1a| |] eqn:Ea; simpl; [|discriminate..].
    apply addToMap_mime in Ea.
    destruct (addChild parent item m1a) as [m1b| |] eqn:Eb; simpl; [|discriminate..].
    apply addChild_mime in Eb. rewrite null_guard.
    destruct (addChildNodes fuel ch (Some item) false m1b) as [m2| |] eqn:E2; simpl;
      [|discriminate..].
    apply IHch in E2. intros E3. apply IHnx in E3. congruence.
Qed.

Lemma loadEdges_mime (es : list CyberiadaEdge) :
  forall (m m' : Model),
    loadEdges es m = Ok m' ->
    cyberiadaStateMimeType m' = cyberiadaStateMimeType m.
Proof.
  induction es as [|e es IH]; intros m m'; simpl.
  { intros [= <-]. reflexivity. }
  unfold convertEdge.
  destruct (states_map m !! node_id (edge_source e));
    [|intros [= <-]; reflexivity].
  destruct (states_map m !! node_id (edge_target e));
    [|intros [= <-]; reflexivity].
  simpl.
  match goal with |- context [addChild ?p ?c ?m0] =>
    destruct (addChild p c m0) as [m2| |] eqn:Ea end; simpl; [|discriminate..].
  apply addChild_mime in Ea. intros E. apply IH in E. simpl in Ea. congruence.
Qed.

Lemma loadGraph_mime (fuel : nat) (file : string) (m m' : Model) :
  loadGraph fuel file m = Ok m' ->
  cyberiadaStateMimeType m' = cyberiadaStateMimeType m.
Proof.
  unfold loadGraph. rewrite reset_spec. cbv beta iota delta [bind].
  destruct (cyberiada_read_sm file) as [res sm].
  destruct (negb (res =? CYBERIADA_NO_ERROR)%Z); [intros [= <-]; reflexivity|].
  unfold renameSM.
  match goal with |- context [if ?c then _ else _] => destruct c end.
  - match goal with |- context [rename ?p ?t ?m0] =>
      destruct (rename p t m0) as [m2| |] eqn:Er end; [|discriminate..].
    apply rename_mime in Er.
    destruct (addChildNodes fuel (nodes sm) (states_root m2) true m2) as [m3| |] eqn:Ea;
      [|discriminate..].
    apply addChildNodes_mime in Ea. intros E. apply loadEdges_mime in E.
    simpl in Er. congruence.
  - match goal with |- context [addChildNodes fuel ?n ?p true ?m0] =>
      destruct (addChildNodes fuel n p true m0) as [m3| |] eqn:Ea end;
      [|discriminate..].
    apply addChildNodes_mime in Ea. intros E. apply loadEdges_mime in E.
    simpl in Ea. congruence.
Qed.

Lemma setData_mime (m m' : Model) (index : QModelIndex) (value : string) (role : Z)
    (ok : bool) :
  setData m index value role = Ok (ok, m') ->
  cyberiadaStateMimeType m' = cyberiadaStateMimeType m.
Proof.
  unfold setData.
  destruct (isValid index && (role =? EditRole)%Z && (column index =? 0)%Z);
    [|intros [= _ <-]; reflexivity].
  match goal with |- context [bind ?r _] => destruct r as [[|]| |] end; simpl;
    try discriminate; [|intros [= _ <-]; reflexivity].
  destruct (isActionIndex m index) as [act| |]; simpl; try discriminate.
  destruct (negb act && bool_decide (value = "")); [intros [= _ <-]; reflexivity|].
  destruct (rename (internalPointer index) value m) as [m1| |] eqn:Er; simpl;
    try discriminate.
  apply rename_mime in Er. intros [= _ <-]. exact Er.
Qed.

(** C9: for every list of live addresses, [mimeData] keeps exactly the
    addresses with column 0 whose items are states or initial states and
    writes the identifiers of those items, in the order of the list, into a
    payload tagged with the model's media type.  That media type is the only
    one [mimeTypes] offers; a new model has the fixed constant there, and
    loading, renaming and moving leave it as it is. *)
Theorem mimeData_serializes_draggable (m : Model) (indexes : list QModelIndex) :
  Forall (live_address m) indexes ->
  mimeData m indexes
    = Ok (mkMimeData (cyberiadaStateMimeType m) (serialize_spec m indexes)) /\
  mimeTypes m = [cyberiadaStateMimeType m] /\
  (forall m0, CyberiadaSMModel_new = Ok m0 ->
              cyberiadaStateMimeType m0 = CYBERIADA_MIME_TYPE_STATE) /\
  (forall fuel file m', loadGraph fuel file m = Ok m' ->
                        cyberiadaStateMimeType m' = cyberiadaStateMimeType m) /\
  (forall index value role ok m', setData m index value role = Ok (ok, m') ->
                                  cyberiadaStateMimeType m' = cyberiadaStateMimeType m) /\
  (forall item target,
      cyberiadaStateMimeType (move item target m) = cyberiadaStateMimeType m).
Proof using Type*.
  intros Hlive. split; [|split; [|split; [|split; [|split]]]].
  - unfold mimeData. rewrite mimeData_stream_spec by exact Hlive. reflexivity.
  - reflexivity.
  - intros m0. unfold CyberiadaSMModel_new, initTrees. simpl.
    intros [= <-]. reflexivity.
  - intros fuel file m'. apply loadGraph_mime.
  - intros index value role ok m'. apply setData_mime.
  - reflexivity.
Qed.

(** ** Runs of the converter on any document *)

Lemma same_fields_refl (m : Model) : same_fields m m.
Proof. repeat split. Qed.

Lemma same_fields_trans (m1 m2 m3 : Model) :
  same_fields m1 m2 -> same_fields m2 m3 -> same_fields m1 m3.
Proof.
  unfold same_fields.
  intros (A1 & A2 & A3 & A4 & A5 & A6 & A7) (B1 & B2 & B3 & B4 & B5 & B6 & B7).
  repeat split; congruence.
Qed.

Lemma with_children_app (it : Item) (ps1 ps2 : list ptr) :
  with_children (with_children it (item_children it ++ ps1))
                (item_children (with_children it (item_children it ++ ps1)) ++ ps2)
  = with_children it (item_children it ++ ps1 ++ ps2).
Proof. unfold with_children. simpl. now rewrite <- app_assoc. Qed.

Lemma with_children_same (it : Item) : with_children it (item_children it ++ []) = it.
Proof. destruct it. unfold with_children. simpl. now rewrite app_nil_r. Qed.

Lemma grows_refl (P : ptr) (m : Model) : grows P m m.
Proof.
  split; [lia|]. split; [auto|]. split.
  - intros itP HP. exists []. now rewrite with_children_same.
  - split; [reflexivity|apply same_fields_refl].
Qed.

Lemma grows_trans (P : ptr) (m1 m2 m3 : Model) :
  grows P m1 m2 -> grows P m2 m3 -> grows P m1 m3.
Proof.
  intros (L1 & F1 & E1 & S1 & Q1) (L2 & F2 & E2 & S2 & Q2).
  split; [lia|]. split.
  - intros q Hq HqP. rewrite F2 by lia. now apply F1.
  - split.
    + intros itP HP. destruct (E1 itP HP) as [ps1 H1].
      destruct (E2 _ H1) as [ps2 H2]. exists (ps1 ++ ps2).
      rewrite H2. now rewrite with_children_app.
    + split; [etrans; eassumption|eapply same_fields_trans; eassumption].
Qed.

Lemma convertNode_Ok_inv (fuel : nat) (d : NodeData) (parent_item : pointer)
    (m m1 : Model) (item : ptr) :
  convertNode fuel d parent_item m = Ok (item, m1) ->
  exists x rc,
    item = length (heap m) /\
    m1 = set_rand_calls rc (set_heap (heap m ++ [x]) m).
Proof.
  unfold convertNode, generateID, new_item.
  destruct (decide (node_type d = cybNodeInitial)).
  { intros [= <- <-]. eexists _, (rand_calls m). split; reflexivity. }
  destruct (decide (node_type d = cybNodeComment)).
  - destruct (generateID_loop fuel (states_map m) (rand_calls m)) as [[s c]| |];
      simpl; [|discriminate..].
    intros [= <- <-]. eexists _, c. split; reflexivity.
  - intros [= <- <-]. eexists _, (rand_calls m). split; reflexivity.
Qed.

Lemma addToMap_loop_Ok_free (fuel : nat) (sm : gmap string ptr) (id k : string) :
  addToMap_loop fuel sm id = Ok k -> sm !! k = None.
Proof.
  revert id. induction fuel as [|fuel IH]; intros id; simpl; [discriminate|].
  destruct (contains sm id) eqn:Hc; [apply IH|].
  intros [= <-]. now apply contains_false.
Qed.

Lemma addToMap_Ok_inv (fuel : nat) (id : string) (item : ptr) (m m' : Model) :
  addToMap fuel id item m = Ok m' ->
  exists k, m' = set_states_map (<[k := item]> (states_map m)) m /\
            states_map m !! k = None.
Proof.
  unfold addToMap.
  destruct (addToMap_loop fuel (states_map m) id) as [k| |] eqn:Hk; simpl;
    [|discriminate..].
  intros [= <-]. exists k. split; [reflexivity|].
  now apply addToMap_loop_Ok_free in Hk.
Qed.

(** Whatever the document, a run of [addChildNodes] that returns has only
    added to the store, to the children of its parent item and to the
    index. *)
Lemma addChildNodes_grows (n : CyberiadaNode) :
  forall (fuel : nat) (P : ptr) (toplevel : bool) (m m' : Model),
    addChildNodes fuel n (Some P) toplevel m = Ok m' ->
    P < length (heap m) ->
    grows P m m'.
Proof.
  induction n as [|d ch IHch nx IHnx]; intros fuel P toplevel m m' Hrun HP.
  { injection Hrun as <-. apply grows_refl. }
  rewrite addChildNodes_cons in Hrun.
  destruct (convertNode fuel d (Some P) m) as [[item m1]| |] eqn:E1;
    simpl in Hrun; [|discriminate..].
  apply convertNode_Ok_inv in E1. destruct E1 as (x & rc & -> & ->).
  set (p := length (heap m)) in *.
  assert (Hg1 : grows P m (set_rand_calls rc (set_heap (heap m ++ [x]) m))).
  { split; [simpl; rewrite length_app; lia|]. split.
    - intros q Hq _. simpl. now apply lookup_app_l.
    - split.
      + intros itP HitP. exists []. rewrite with_children_same. simpl.
        now apply lookup_app_l_Some.
      + split; [reflexivity|repeat split]. }
  destruct toplevel.
  - rewrite null_guard in Hrun.
    destruct (addChildNodes fuel ch (Some P) false
                (set_rand_calls rc (set_heap (heap m ++ [x]) m))) as [m2| |] eqn:E2;
      simpl in Hrun; [|discriminate..].
    apply IHch in E2; [|simpl; rewrite length_app; lia].
    pose proof (grows_trans _ _ _ _ Hg1 E2) as Hg2.
    apply IHnx in Hrun; [|destruct Hg2 as [L _]; lia].
    exact (grows_trans _ _ _ _ Hg2 Hrun).
  - simpl heap in Hrun.
    assert (Hxp : (heap m ++ [x]) !! p = Some x) by now apply list_lookup_middle.
    assert (Hget : getID (heap m ++ [x]) (Some p) = Ok (item_id x)).
    { unfold getID, deref. rewrite Hxp. reflexivity. }
    rewrite Hget in Hrun. cbv beta iota delta [bind] in Hrun.
    match type of Hrun with context [addToMap ?f ?i ?c ?m0] =>
      destruct (addToMap f i c m0) as [m1a| |] eqn:Ea end;
      [|discriminate..].
    apply addToMap_Ok_inv in Ea. destruct Ea as (k & -> & Hfree). simpl in Hfree.
    destruct (lookup_lt_is_Some_2 (heap m) P HP) as [itP HitP].
    rewrite (addChild_spec _ P p itP x) in Hrun;
      [|simpl; now apply lookup_app_l_Some|exact Hxp|lia].
    simpl heap in Hrun. simpl states_map in Hrun. rewrite null_guard in Hrun.
    set (itP1 := with_children itP (item_children itP ++ [p])) in *.
    set (h1 := <[p := with_parent x (Some P)]> (<[P := itP1]> (heap m ++ [x]))) in *.
    set (sm1 := <[k := p]> (states_map m)) in *.
    match type of Hrun with context [addChildNodes fuel ch (Some p) false ?m0] =>
      set (m1b := m0) in *;
      destruct (addChildNodes fuel ch (Some p) false m1b) as [m2| |] eqn:E2 end;
      [|discriminate..].
    assert (Hlen1 : length h1 = S p).
    { unfold h1. rewrite !length_insert, length_app. simpl. lia. }
    apply IHch in E2; [|simpl; lia].
    destruct E2 as (L2 & F2 & _ & S2 & Q2). simpl in L2, F2, S2.
    apply IHnx in Hrun; [|lia].
    destruct Hrun as (L3 & F3 & E3 & S3 & Q3).
    assert (HP2 : heap m2 !! P = Some itP1).
    { rewrite F2 by lia. unfold h1. rewrite list_lookup_insert_ne by lia.
      apply list_lookup_insert_eq. rewrite length_app. simpl. lia. }
    split; [lia|]. split.
    { intros q Hq HqP. rewrite F3 by lia. rewrite F2 by lia. unfold h1.
      rewrite !list_lookup_insert_ne by lia. now apply lookup_app_l. }
    split.
    { intros itP' HitP'. rewrite HitP in HitP'. injection HitP' as <-.
      destruct (E3 _ HP2) as [ps Hps]. exists (p :: ps). rewrite Hps.
      unfold itP1. unfold with_children. simpl. now rewrite <- app_assoc. }
    split.
    { etrans; [|exact S3]. etrans; [|exact S2]. now apply insert_subseteq. }
    eapply same_fields_trans; [|exact Q3].
    eapply same_fields_trans; [|exact Q2]. repeat split.
Qed.

Lemma loadEdges_returns (es : list CyberiadaEdge) (m : Model) (TR : ptr) (itT : Item) :
  trans_root m = Some TR ->
  heap m !! TR = Some itT ->
  exists h' ts,
    loadEdges es m = Ok (set_heap h' m) /\
    length (heap m) <= length h' /\
    (forall q, q < length (heap m) -> q <> TR -> h' !! q = heap m !! q) /\
    h' !! TR = Some (with_children itT (item_children itT ++ ts)).
Proof.
  intros Hroot HT. rewrite loadEdges_prefix.
  destruct (loadEdges_spec (resolved_prefix (states_map m) es) m TR itT Hroot HT)
    as (h' & ts & Hrun & Hlen & Hfr & HT' & _).
  { apply resolved_prefix_resolvable. }
  exists h', ts. split; [exact Hrun|]. split; [lia|]. split; assumption.
Qed.

Lemma length_pos_nonempty (name : string) :
  (0 <? String.length name)%nat = negb (bool_decide (name = "")).
Proof. destruct name; reflexivity. Qed.

(** The shape of every model [loadGraph] returns. *)
Lemma loadGraph_shape (fuel : nat) (file : string) (res : Z) (sm : CyberiadaSM)
    (m m' : Model) :
  cyberiada_read_sm file = (res, sm) ->
  loadGraph fuel file m = Ok m' ->
  root m' = Some 0 /\ sm_root m' = Some 1 /\
  states_root m' = Some 2 /\ trans_root m' = Some 3 /\
  heap m' !! 0 = Some (mkItem nodeRoot None [1] "" "" "" NoGeometry None None) /\
  heap m' !! 1 = Some (mkItem nodeSM (Some 0) [2; 3] "" (loaded_title res sm) ""
                              NoGeometry None None) /\
  (exists ps, heap m' !! 2
              = Some (mkItem nodeStatesAggr (Some 1) ps "" "" "" NoGeometry None None)) /\
  (exists ts, heap m' !! 3
              = Some (mkItem nodeTransitionsAggr (Some 1) ts "" "" "" NoGeometry None None)) /\
  sm_name m' = loaded_name res sm (sm_name m) /\
  sm_version m' = loaded_version res sm (sm_version m) /\
  signals m' = (signals m ++ [modelAboutToBeReset]) ++ [modelReset] /\
  (res <> CYBERIADA_NO_ERROR -> states_map m' = ∅ /\ length (heap m') = 4).
Proof using Type*.
  intros Hread. unfold loadGraph, loaded_title, loaded_name, loaded_version.
  rewrite reset_spec. cbv beta iota delta [bind]. rewrite Hread.
  destruct (Z.eqb_spec res CYBERIADA_NO_ERROR) as [->|Hres]; simpl negb; cbv iota.
  2:{ intros [= <-]. simpl. repeat split; eauto. }
  unfold renameSM. rewrite length_pos_nonempty.
  destruct (bool_decide (doc_name sm = "")) eqn:Hname; simpl negb; cbv iota;
    simpl andb; cbv iota.
  - match goal with |- context [addChildNodes fuel ?n ?p true ?m0] =>
      set (m2 := m0) end.
    try change (states_root m2) with (Some 2).
    destruct (addChildNodes fuel (nodes sm) (Some 2) true m2) as [m3| |] eqn:Ea;
      cbv beta iota delta [bind]; [|discriminate..].
    apply addChildNodes_grows in Ea; [|simpl; lia].
    destruct Ea as (L3 & F3 & E3 & _ & (Q1 & Q2 & Q3 & Q4 & Q5 & Q6 & Q7)).
    destruct (E3 _ eq_refl) as [ps Hps]. simpl in L3, F3, Hps.
    destruct (loadEdges_returns (edges sm) m3 3
                (mkItem nodeTransitionsAggr (Some 1) [] "" "" "" NoGeometry None None))
      as (h4 & ts & Hrun & L4 & F4 & HT4).
    { rewrite Q4. reflexivity. }
    { rewrite F3 by (simpl; lia). reflexivity. }
    rewrite Hrun. intros [= <-]. simpl.
    split; [rewrite Q1; reflexivity|]. split; [rewrite Q2; reflexivity|].
    split; [rewrite Q3; reflexivity|]. split; [rewrite Q4; reflexivity|].
    split; [rewrite F4, F3 by (simpl in *; lia); reflexivity|].
    split; [rewrite F4, F3 by (simpl in *; lia); reflexivity|].
    split; [exists ps; rewrite F4 by (simpl in *; lia); exact Hps|].
    split; [exists ([] ++ ts); exact HT4|].
    split; [rewrite Q5; reflexivity|]. split; [rewrite Q6; reflexivity|].
    split; [rewrite Q7; reflexivity|]. intros Hno. now destruct Hno.
  - unfold rename. simpl.
    match goal with |- context [addChildNodes fuel ?n ?p true ?m0] =>
      set (m2 := m0) end.
    try change (states_root m2) with (Some 2).
    destruct (addChildNodes fuel (nodes sm) (Some 2) true m2) as [m3| |] eqn:Ea;
      cbv beta iota delta [bind]; [|discriminate..].
    apply addChildNodes_grows in Ea; [|simpl; lia].
    destruct Ea as (L3 & F3 & E3 & _ & (Q1 & Q2 & Q3 & Q4 & Q5 & Q6 & Q7)).
    destruct (E3 _ eq_refl) as [ps Hps]. simpl in L3, F3, Hps.
    destruct (loadEdges_returns (edges sm) m3 3
                (mkItem nodeTransitionsAggr (Some 1) [] "" "" "" NoGeometry None None))
      as (h4 & ts & Hrun & L4 & F4 & HT4).
    { rewrite Q4. reflexivity. }
    { rewrite F3 by (simpl; lia). reflexivity. }
    rewrite Hrun. intros [= <-]. simpl.
    split; [rewrite Q1; reflexivity|]. split; [rewrite Q2; reflexivity|].
    split; [rewrite Q3; reflexivity|]. split; [rewrite Q4; reflexivity|].
    split; [rewrite F4, F3 by (simpl in *; lia); reflexivity|].
    split; [rewrite F4, F3 by (simpl in *; lia); reflexivity|].
    split; [exists ps; rewrite F4 by (simpl in *; lia); exact Hps|].
    split; [exists ([] ++ ts); exact HT4|].
    split; [rewrite Q5; reflexivity|]. split; [rewrite Q6; reflexivity|].
    split; [rewrite Q7; reflexivity|]. intros Hno. now destruct Hno.
Qed.

(** X1: when the parser reports an error, [loadGraph] returns with exactly
    the model [reset] gives, whatever the model held before and however little
    fuel there is: both containers are empty, no identifier resolves, and the
    model's name and version are the ones it had before the call. *)
Theorem loadGraph_parser_error
    (fuel : nat) (file : string) (res : Z) (sm : CyberiadaSM) (m : Model) :
  cyberiada_read_sm file = (res, sm) ->
  res <> CYBERIADA_NO_ERROR ->
  exists m',
    loadGraph fuel file m = Ok m' /\
    reset m = Ok m' /\
    rowCount m' (statesRootIndex m') = Ok 0%Z /\
    rowCount m' (transitionsRootIndex m') = Ok 0%Z /\
    hasChildren m' (statesRootIndex m') = Ok false /\
    (forall id, idToItem m' id = None) /\
    sm_name m' = sm_name m /\
    sm_version m' = sm_version m.
Proof using Type*.
  intros Hread Hres. unfold loadGraph. rewrite reset_spec.
  cbv beta iota delta [bind]. rewrite Hread.
  apply Z.eqb_neq in Hres. rewrite Hres. simpl negb. cbv iota.
  eexists. split; [reflexivity|]. split; [reflexivity|].
  repeat split.
Qed.

Ltac use_shape H :=
  destruct H as (Hr0 & Hr1 & Hr2 & Hr3 & H0 & H1 & [ps H2] & [ts H3] & Hnm & Hver & Hsig & Herr).

(** X2: in every model [loadGraph] returns, for any document and any parser
    result, the fixed part of the tree is in place and the navigation methods
    agree on it: the root has one row, the state-machine root, which has two
    rows, the states container at row 0 and the transitions container at row
    1; [index] leads down to exactly the addresses the dedicated accessors
    give, [parent] leads back up, and all four addresses are trivial. *)
Theorem loadGraph_fixed_skeleton (fuel : nat) (file : string) (m m' : Model) :
  loadGraph fuel file m = Ok m' ->
  rowCount m' invalidIndex = Ok 1%Z /\
  rowCount m' (rootIndex m') = Ok 1%Z /\
  index m' 0 0 (rootIndex m') = Ok (SMIndex m') /\
  rowCount m' (SMIndex m') = Ok 2%Z /\
  index m' 0 0 (SMIndex m') = Ok (statesRootIndex m') /\
  index m' 1 0 (SMIndex m') = Ok (transitionsRootIndex m') /\
  index m' 2 0 (SMIndex m') = Ok invalidIndex /\
  parent m' (statesRootIndex m') = Ok (SMIndex m') /\
  parent m' (transitionsRootIndex m') = Ok (SMIndex m') /\
  parent m' (SMIndex m') = Ok (rootIndex m') /\
  parent m' (rootIndex m') = Ok invalidIndex /\
  isTrivialIndex m' (rootIndex m') = true /\
  isTrivialIndex m' (SMIndex m') = true /\
  isTrivialIndex m' (statesRootIndex m') = true /\
  isTrivialIndex m' (transitionsRootIndex m') = true.
Proof using Type*.
  intros Hrun. destruct (cyberiada_read_sm file) as [res sm] eqn:Hread.
  pose proof (loadGraph_shape fuel file res sm m m' Hread Hrun) as Hs. use_shape Hs.
  unfold rowCount, index, hasIndex, parent, isTrivialIndex, parentOf, rowOf, childCount,
    child, deref, rootIndex, SMIndex, statesRootIndex, transitionsRootIndex.
  rewrite Hr0, Hr1, Hr2, Hr3. simpl. rewrite ?H0, ?H1, ?H2, ?H3. simpl.
  rewrite ?H0, ?H1. simpl. repeat split; rewrite H0; reflexivity.
Qed.

(** X3: in every model [loadGraph] returns after a successful parse, the
    version is the document's; a non-empty document name becomes both the
    model's name and the text shown for the state-machine root; with an empty
    document name [renameSM] does nothing: the model keeps the name it had
    before the load, and the root shows the text it has in the tree [reset]
    builds. *)
Theorem loadGraph_name_and_version
    (fuel : nat) (file : string) (sm : CyberiadaSM) (m m' : Model) :
  cyberiada_read_sm file = (CYBERIADA_NO_ERROR, sm) ->
  loadGraph fuel file m = Ok m' ->
  sm_version m' = doc_version sm /\
  (doc_name sm <> "" ->
   sm_name m' = doc_name sm /\
   data m' (SMIndex m') DisplayRole = Ok (QVariant_string (doc_name sm))) /\
  (doc_name sm = "" ->
   sm_name m' = sm_name m /\
   forall m0, reset m = Ok m0 ->
              data m' (SMIndex m') DisplayRole = data m0 (SMIndex m0) DisplayRole).
Proof using Type*.
  intros Hread Hrun.
  pose proof (loadGraph_shape fuel file _ sm m m' Hread Hrun) as Hs. use_shape Hs.
  unfold loaded_title, loaded_name, loaded_version in *.
  change (CYBERIADA_NO_ERROR =? CYBERIADA_NO_ERROR)%Z with true in *.
  assert (Hdata : forall t,
             heap m' !! 1 = Some (mkItem nodeSM (Some 0) [2; 3] "" t "" NoGeometry None None) ->
             data m' (SMIndex m') DisplayRole = Ok (QVariant_string t)).
  { intros t Ht. unfold data, SMIndex, rootIndex, getTitle, deref.
    rewrite Hr0, Hr1. simpl. rewrite Ht. reflexivity. }
  split; [exact Hver|]. split; intros Hname.
  - rewrite bool_decide_eq_false_2 in * by exact Hname. simpl in *.
    split; [exact Hnm|now apply Hdata].
  - rewrite bool_decide_eq_true_2 in * by exact Hname. simpl in *.
    split; [exact Hnm|]. intros m0. rewrite reset_spec. intros [= <-].
    rewrite (Hdata _ H1). reflexivity.
Qed.

(** X4: a run of [addChildNodes] that returns never replaces or drops what
    was there: every identifier that resolved before resolves to the same
    item after, every item of the store other than the parent item is as it
    was, the parent item keeps its children and only gains new ones at the
    end, and the four fixed pointers are untouched. *)
Theorem addChildNodes_keeps_index_and_items
    (fuel : nat) (n : CyberiadaNode) (P : ptr) (toplevel : bool) (m m' : Model) :
  addChildNodes fuel n (Some P) toplevel m = Ok m' ->
  P < length (heap m) ->
  (forall id p, idToItem m id = Some p -> idToItem m' id = Some p) /\
  (forall q it, q <> P -> heap m !! q = Some it -> heap m' !! q = Some it) /\
  (forall itP, heap m !! P = Some itP ->
               exists ps, childCount (heap m') (Some P)
                          = Ok (Z.of_nat (length (item_children itP ++ ps))) /\
                          heap m' !! P = Some (with_children itP (item_children itP ++ ps))) /\
  root m' = root m /\ sm_root m' = sm_root m /\
  states_root m' = states_root m /\ trans_root m' = trans_root m.
Proof.
  intros Hrun HP.
  destruct (addChildNodes_grows n fuel P toplevel m m' Hrun HP)
    as (L & F & E & S & (Q1 & Q2 & Q3 & Q4 & _)).
  split.
  { intros id p Hid. unfold idToItem in *. eapply lookup_weaken; eassumption. }
  split.
  { intros q it Hq Hit. rewrite F; [exact Hit| |exact Hq].
    now apply lookup_lt_Some in Hit. }
  split.
  { intros itP HitP. destruct (E itP HitP) as [ps Hps]. exists ps.
    split; [|exact Hps]. unfold childCount, deref. rewrite Hps. reflexivity. }
  auto.
Qed.

(** X5: [addToMap] followed by [idToItem].  After registering [item] under
    [id], a lookup of [id] is never NULL: it gives [item] when [id] was free,
    and the item that already held [id] otherwise; [item] itself can be
    found under an identifier that was free before, and every lookup that
    succeeded before gives the same item after. *)
Theorem addToMap_then_idToItem (fuel : nat) (id : string) (item : ptr) (m : Model) :
  size (states_map m) < fuel ->
  exists m',
    addToMap fuel id item m = Ok m' /\
    is_Some (idToItem m' id) /\
    (idToItem m id = None -> idToItem m' id = Some item) /\
    (forall p, idToItem m id = Some p -> idToItem m' id = Some p) /\
    (exists k, idToItem m k = None /\ idToItem m' k = Some item) /\
    (forall k p, idToItem m k = Some p -> idToItem m' k = Some p).
Proof.
  intros Hsize. unfold idToItem, addToMap.
  destruct (addToMap_loop_total fuel (states_map m) id Hsize) as [k [Hloop [Hfree Hbelow]]].
  rewrite Hloop. simpl. eexists. split; [reflexivity|]. simpl.
  assert (Hkeep : forall k' p, states_map m !! k' = Some p ->
                               <[suffixed id k := item]> (states_map m) !! k' = Some p).
  { intros k' p Hk'. rewrite lookup_insert_ne; [exact Hk'|]. congruence. }
  split.
  { destruct k as [|k]; [exists item; apply lookup_insert_eq|].
    destruct (Hbelow 0) as [v Hv]; [lia|]. exists v. now apply Hkeep. }
  split.
  { intros Hid. destruct k as [|k]; [apply lookup_insert_eq|].
    destruct (Hbelow 0) as [v Hv]; [lia|]. simpl in Hv. congruence. }
  split; [intros p Hp; now apply Hkeep|].
  split; [exists (suffixed id k); split; [exact Hfree|apply lookup_insert_eq]|].
  exact Hkeep.
Qed.

(** ** Cell content *)

Lemma setData_accepted (m m' : Model) (index : QModelIndex) (value : string) (role : Z) :
  setData m index value role = Ok (true, m') ->
  isValid index = true /\ role = EditRole /\ column index = 0%Z /\
  exists a it,
    internalPointer index = Some a /\ heap m !! a = Some it /\
    m' = emit (dataChanged index index)
              (set_heap (<[a := with_title it value]> (heap m)) m).
Proof.
  unfold setData.
  destruct (isValid index) eqn:Hv; simpl; [|discriminate].
  destruct (Z.eqb_spec role EditRole) as [Hr|Hr]; simpl; [|discriminate].
  destruct (Z.eqb_spec (column index) 0) as [Hc|Hc]; simpl; [|discriminate].
  match goal with |- context [bind ?r _] => destruct r as [[|]| |] end; simpl;
    try discriminate.
  destruct (isActionIndex m index) as [act| |]; simpl; try discriminate.
  destruct (negb act && bool_decide (value = "")); [discriminate|].
  unfold rename, deref.
  destruct (internalPointer index) as [a|]; [|discriminate].
  destruct (heap m !! a) as [it|] eqn:Ha; simpl; [|discriminate].
  intros [= <-]. repeat split; try assumption. exists a, it. auto.
Qed.

(** X6: [setData] followed by [data].  After an accepted rename the display,
    edit and tool-tip roles of that address all give the new text; the cell
    content of every address of another item is what it was, for every role;
    no child sequence and no index entry changes; and exactly one
    notification, [dataChanged] for that single cell, is added. *)
Theorem setData_then_data
    (m m' : Model) (index : QModelIndex) (value : string) (role : Z) :
  setData m index value role = Ok (true, m') ->
  index <> rootIndex m ->
  data m' index DisplayRole = Ok (QVariant_string value) /\
  data m' index EditRole = Ok (QVariant_string value) /\
  data m' index ToolTipRole = Ok (QVariant_string value) /\
  (forall j r, internalPointer j <> internalPointer index ->
               data m' j r = data m j r) /\
  map item_children (heap m') = map item_children (heap m) /\
  map item_type (heap m') = map item_type (heap m) /\
  states_map m' = states_map m /\
  signals m' = signals m ++ [dataChanged index index].
Proof.
  intros Hset Hroot.
  destruct (setData_accepted _ _ _ _ _ Hset) as (Hv & _ & Hc & a & it & Hp & Ha & ->).
  pose proof (lookup_lt_Some _ _ _ Ha) as Hlt.
  assert (Htitle : forall r, (r =? DisplayRole)%Z || (r =? ToolTipRole)%Z
                             || (r =? EditRole)%Z = true ->
             data (emit (dataChanged index index)
                        (set_heap (<[a := with_title it value]> (heap m)) m)) index r
             = Ok (QVariant_string value)).
  { intros r Hr. unfold data. rewrite Hv, Hc. simpl.
    rewrite bool_decide_eq_false_2 by exact Hroot. rewrite Hr.
    unfold getTitle, deref. rewrite Hp. simpl.
    rewrite list_lookup_insert_eq by exact Hlt. reflexivity. }
  split; [now apply Htitle|]. split; [now apply Htitle|]. split; [now apply Htitle|].
  split.
  { intros j r Hj. unfold data, getIndexIcon, getTitle, getType, deref, rootIndex. simpl.
    destruct (internalPointer j) as [b|] eqn:Hb; [|reflexivity].
    rewrite list_lookup_insert_ne; [reflexivity|]. congruence. }
  split.
  { simpl. change (map item_children) with (fmap (M := list) item_children).
    rewrite list_fmap_insert. apply list_insert_id.
    rewrite list_lookup_fmap, Ha. reflexivity. }
  split.
  { simpl. change (map item_type) with (fmap (M := list) item_type).
    rewrite list_fmap_insert. apply list_insert_id.
    rewrite list_lookup_fmap, Ha. reflexivity. }
  split; reflexivity.
Qed.

(** ** Capabilities *)

Lemma address_item_live (m : Model) (i : QModelIndex) (a : ptr) (it : Item) :
  isValid i = true -> internalPointer i = Some a -> heap m !! a = Some it ->
  live_address m i /\ address_item m i = Some it.
Proof.
  intros Hv Hp Ha. unfold live_address, address_item, deref. rewrite Hv, Hp, Ha.
  split; [intros _; exists it|]; reflexivity.
Qed.

Ltac flags_iff :=
  let H := fresh "H" in
  split; intros H;
  first [ reflexivity
        | discriminate H
        | eexists; reflexivity
        | left; reflexivity
        | right; assumption
        | destruct H as [? H]; discriminate H
        | destruct H as [H|H]; [discriminate H|contradiction] ].

Ltac flags_case :=
  eexists; split; [reflexivity|];
  split; [reflexivity|]; split; [reflexivity|];
  split; [flags_iff|]; split; [flags_iff|]; split; flags_iff.

(** X7: the capabilities [flags] reports agree with what the other methods
    do.  In a model whose state-machine root and states container have their
    own categories, for every valid column-0 address of a live item: the
    item is always enabled and selectable; it is reported editable exactly
    when [setData] accepts a non-empty text for it; it is reported
    drag-enabled exactly when [mimeData] puts its identifier in the payload
    (and the payload is empty otherwise); and it is reported drop-enabled
    exactly when it is a state or the states container. *)
Theorem flags_agree_with_setData_and_mimeData
    (m : Model) (index : QModelIndex) (a : ptr) (it : Item) (value : string) :
  isValid index = true -> column index = 0%Z ->
  internalPointer index = Some a -> heap m !! a = Some it ->
  (index = SMIndex m -> item_type it = nodeSM) ->
  (index = statesRootIndex m -> item_type it = nodeStatesAggr) ->
  value <> "" ->
  exists fl,
    flags m index = Ok fl /\
    testFlag fl ItemIsEnabled = true /\ testFlag fl ItemIsSelectable = true /\
    (testFlag fl ItemIsEditable = true
     <-> exists m', setData m index value EditRole = Ok (true, m')) /\
    (testFlag fl ItemIsDragEnabled = true
     <-> mimeData_stream m [index] = Ok [item_id it]) /\
    (testFlag fl ItemIsDragEnabled = false <-> mimeData_stream m [index] = Ok []) /\
    (testFlag fl ItemIsDropEnabled = true
     <-> item_type it = nodeState \/ index = statesRootIndex m).
Proof.
  intros Hv Hc Hp Ha Hsm Hst Hval.
  destruct (address_item_live m index a it Hv Hp Ha) as [Hlive Hai].
  unfold flags, setData, mimeData_stream, isStateIndex, isInitialStateIndex, isActionIndex.
  rewrite !(isTypeIndex_live _ m index Hlive), Hai, Hv, Hc.
  unfold indexToItem, getID, rename, deref. rewrite Hv, Hp.
  cbv beta iota delta [negb]. rewrite Ha.
  rewrite (bool_decide_eq_false_2 (value = "")) by exact Hval.
  destruct (decide (index = statesRootIndex m)) as [E1|E1];
    destruct (decide (index = SMIndex m)) as [E2|E2].
  - specialize (Hst E1). specialize (Hsm E2). congruence.
  - rewrite (bool_decide_eq_true_2 _ E1), (bool_decide_eq_false_2 _ E2), (Hst E1).
    simpl. flags_case.
  - rewrite (bool_decide_eq_false_2 _ E1), (bool_decide_eq_true_2 _ E2), (Hsm E2).
    simpl. flags_case.
  - rewrite (bool_decide_eq_false_2 _ E1), (bool_decide_eq_false_2 _ E2).
    destruct (item_type it) eqn:Ht; simpl; flags_case.
Qed.

(** ** Navigation *)

Lemma indexOf_range (c : ptr) (l : list ptr) :
  (-1 <= indexOf c l < Z.of_nat (length l))%Z.
Proof.
  induction l as [|x l IH]; simpl; [lia|].
  destruct (decide (x = c)); [lia|].
  destruct (Z.ltb_spec (indexOf c l) 0); lia.
Qed.

Lemma indexOf_absent (c : ptr) (l : list ptr) : c ∉ l -> indexOf c l = (-1)%Z.
Proof.
  induction l as [|x l IH]; simpl; [reflexivity|]. intros Hn.
  apply not_elem_of_cons in Hn. destruct Hn as [Hx Hl].
  destruct (decide (x = c)); [congruence|]. rewrite (IH Hl). reflexivity.
Qed.

Lemma indexOf_app (c : ptr) (l l' : list ptr) :
  (0 <= indexOf c l)%Z -> indexOf c (l ++ l') = indexOf c l.
Proof.
  induction l as [|x l IH]; simpl; [lia|].
  destruct (decide (x = c)); [reflexivity|].
  destruct (Z.ltb_spec (indexOf c l) 0) as [Hlt|Hge]; [lia|]. intros _.
  rewrite (IH Hge). destruct (Z.ltb_spec (indexOf c l) 0); [lia|reflexivity].
Qed.

Lemma indexOf_snoc (c : ptr) (l : list ptr) :
  c ∉ l -> indexOf c (l ++ [c]) = Z.of_nat (length l).
Proof.
  induction l as [|x l IH]; simpl.
  { intros _. destruct (decide (c = c)); [reflexivity|congruence]. }
  intros Hn. apply not_elem_of_cons in Hn. destruct Hn as [Hx Hl].
  destruct (decide (x = c)); [congruence|]. rewrite (IH Hl).
  destruct (Z.ltb_spec (Z.of_nat (length l)) 0); lia.
Qed.

Lemma well_linked_bound (h : list Item) (a : ptr) (it : Item) (c : ptr) :
  well_linked h -> h !! a = Some it -> c ∈ item_children it -> c < length h.
Proof.
  intros WL Ha Hc. apply list_elem_of_lookup in Hc. destruct Hc as [r Hr].
  destruct (WL a it r c Ha Hr) as (itc & Hitc & _).
  now apply lookup_lt_Some in Hitc.
Qed.

Lemma well_linked_alloc (h : list Item) (x : Item) :
  well_linked h -> item_children x = [] -> well_linked (h ++ [x]).
Proof.
  intros WL Hx a it r c Ha Hr.
  destruct (decide (a < length h)) as [Hlt|Hge].
  - rewrite lookup_app_l in Ha by exact Hlt.
    destruct (WL a it r c Ha Hr) as (itc & Hitc & Hp & Hi).
    exists itc. split; [now apply lookup_app_l_Some|]. split; assumption.
  - pose proof (lookup_lt_Some _ _ _ Ha) as Hb. rewrite length_app in Hb. simpl in Hb.
    assert (a = length h) as -> by lia.
    rewrite list_lookup_middle in Ha by reflexivity. injection Ha as <-.
    rewrite Hx in Hr. discriminate.
Qed.

Lemma well_linked_addChild (h : list Item) (P c : ptr) (itP itc : Item) :
  well_linked h ->
  h !! P = Some itP -> h !! c = Some itc -> P <> c ->
  item_children itc = [] ->
  (forall a it, h !! a = Some it -> c ∉ item_children it) ->
  well_linked (<[c := with_parent itc (Some P)]>
                 (<[P := with_children itP (item_children itP ++ [c])]> h)).
Proof.
  intros WL HP Hc Hne Hleaf Hfresh.
  set (h' := <[c := with_parent itc (Some P)]>
               (<[P := with_children itP (item_children itP ++ [c])]> h)).
  pose proof (lookup_lt_Some _ _ _ HP) as HPlt.
  pose proof (lookup_lt_Some _ _ _ Hc) as Hclt.
  assert (Hc' : h' !! c = Some (with_parent itc (Some P))).
  { unfold h'. apply list_lookup_insert_eq. now rewrite length_insert. }
  assert (HP' : h' !! P = Some (with_children itP (item_children itP ++ [c]))).
  { unfold h'. rewrite list_lookup_insert_ne by congruence.
    now apply list_lookup_insert_eq. }
  assert (K : forall q itq, q <> c -> h !! q = Some itq ->
                exists itq', h' !! q = Some itq' /\ item_parent itq' = item_parent itq).
  { intros q itq Hq Hitq. destruct (decide (q = P)) as [->|HqP].
    - rewrite HP in Hitq. injection Hitq as <-. eexists. split; [exact HP'|reflexivity].
    - exists itq. split; [|reflexivity]. unfold h'.
      rewrite !list_lookup_insert_ne by congruence. exact Hitq. }
  intros a it r c0 Ha Hr.
  destruct (decide (a = c)) as [->|Hac].
  { rewrite Hc' in Ha. injection Ha as <-. simpl in Hr. rewrite Hleaf in Hr. discriminate. }
  destruct (decide (a = P)) as [->|HaP].
  - rewrite HP' in Ha. injection Ha as <-. simpl in Hr |- *.
    apply lookup_app_Some in Hr. destruct Hr as [Hr|[Hlen Hr]].
    + destruct (WL P itP r c0 HP Hr) as (itc0 & Hitc0 & Hp0 & Hi0).
      assert (Hc0 : c0 <> c).
      { intros ->. apply (Hfresh P itP HP). eapply list_elem_of_lookup_2. exact Hr. }
      destruct (K c0 itc0 Hc0 Hitc0) as (itq' & Hq' & Hpq').
      exists itq'. split; [exact Hq'|]. split; [congruence|].
      rewrite indexOf_app; [exact Hi0|lia].
    + destruct (r - length (item_children itP)) as [|k] eqn:Hk; [|discriminate].
      injection Hr as <-. eexists. split; [exact Hc'|]. split; [reflexivity|].
      rewrite indexOf_snoc by (exact (Hfresh P itP HP)). lia.
  - assert (Ha0 : h !! a = Some it).
    { unfold h' in Ha. now rewrite !list_lookup_insert_ne in Ha by congruence. }
    destruct (WL a it r c0 Ha0 Hr) as (itc0 & Hitc0 & Hp0 & Hi0).
    assert (Hc0 : c0 <> c).
    { intros ->. apply (Hfresh a it Ha0). eapply list_elem_of_lookup_2. exact Hr. }
    destruct (K c0 itc0 Hc0 Hitc0) as (itq' & Hq' & Hpq').
    exists itq'. split; [exact Hq'|]. split; [congruence|exact Hi0].
Qed.

Lemma well_linked_fresh (h : list Item) (x : Item) :
  well_linked h -> item_children x = [] ->
  forall a it, (h ++ [x]) !! a = Some it -> length h ∉ item_children it.
Proof.
  intros WL Hx a it Ha Hin.
  pose proof (well_linked_alloc h x WL Hx) as WL'.
  destruct (decide (a < length h)) as [Hlt|Hge].
  - rewrite lookup_app_l in Ha by exact Hlt.
    pose proof (well_linked_bound h a it _ WL Ha Hin). lia.
  - pose proof (lookup_lt_Some _ _ _ Ha) as Hb. rewrite length_app in Hb. simpl in Hb.
    assert (a = length h) as -> by lia.
    rewrite list_lookup_middle in Ha by reflexivity. injection Ha as <-.
    rewrite Hx in Hin. now apply elem_of_nil in Hin.
Qed.

Lemma convertNode_Ok_leaf (fuel : nat) (d : NodeData) (parent_item : pointer)
    (m m1 : Model) (item : ptr) :
  convertNode fuel d parent_item m = Ok (item, m1) ->
  exists x rc,
    item = length (heap m) /\
    m1 = set_rand_calls rc (set_heap (heap m ++ [x]) m) /\
    item_children x = [].
Proof.
  unfold convertNode, generateID, new_item.
  destruct (decide (node_type d = cybNodeInitial)).
  { intros [= <- <-]. eexists _, (rand_calls m). repeat split. }
  destruct (decide (node_type d = cybNodeComment)).
  - destruct (generateID_loop fuel (states_map m) (rand_calls m)) as [[s c]| |];
      simpl; [|discriminate..].
    intros [= <- <-]. eexists _, c. repeat split.
  - intros [= <- <-]. eexists _, (rand_calls m). repeat split.
Qed.

(** Whatever the document, a run of [addChildNodes] that returns keeps the
    owner and child links consistent. *)
Lemma addChildNodes_linked (n : CyberiadaNode) :
  forall (fuel : nat) (P : ptr) (toplevel : bool) (m m' : Model),
    addChildNodes fuel n (Some P) toplevel m = Ok m' ->
    P < length (heap m) ->
    well_linked (heap m) ->
    well_linked (heap m').
Proof.
  induction n as [|d ch IHch nx IHnx]; intros fuel P toplevel m m' Hrun HP WL.
  { injection Hrun as <-. exact WL. }
  rewrite addChildNodes_cons in Hrun.
  destruct (convertNode fuel d (Some P) m) as [[item m1]| |] eqn:E1;
    simpl in Hrun; [|discriminate..].
  apply convertNode_Ok_leaf in E1. destruct E1 as (x & rc & -> & -> & Hleaf).
  set (p := length (heap m)) in *.
  pose proof (well_linked_alloc _ x WL Hleaf) as WL1.
  destruct toplevel.
  - rewrite null_guard in Hrun.
    destruct (addChildNodes fuel ch (Some P) false
                (set_rand_calls rc (set_heap (heap m ++ [x]) m))) as [m2| |] eqn:E2;
      simpl in Hrun; [|discriminate..].
    pose proof (addChildNodes_grows _ _ _ _ _ _ E2) as G2.
    destruct G2 as (L2 & _); [simpl; rewrite length_app; lia|].
    simpl in L2. rewrite length_app in L2.
    apply IHch in E2; [|simpl; rewrite length_app; lia|exact WL1].
    apply IHnx in Hrun; [exact Hrun|lia|exact E2].
  - simpl heap in Hrun.
    assert (Hxp : (heap m ++ [x]) !! p = Some x) by now apply list_lookup_middle.
    assert (Hget : getID (heap m ++ [x]) (Some p) = Ok (item_id x)).
    { unfold getID, deref. rewrite Hxp. reflexivity. }
    rewrite Hget in Hrun. cbv beta iota delta [bind] in Hrun.
    match type of Hrun with context [addToMap ?f ?i ?c ?m0] =>
      destruct (addToMap f i c m0) as [m1a| |] eqn:Ea end;
      [|discriminate..].
    apply addToMap_Ok_inv in Ea. destruct Ea as (k & -> & Hfree). simpl in Hfree.
    destruct (lookup_lt_is_Some_2 (heap m) P HP) as [itP HitP].
    assert (HitP1 : (heap m ++ [x]) !! P = Some itP) by now apply lookup_app_l_Some.
    rewrite (addChild_spec _ P p itP x) in Hrun; [|exact HitP1|exact Hxp|lia].
    simpl heap in Hrun. simpl states_map in Hrun. rewrite null_guard in Hrun.
    pose proof (well_linked_addChild _ P p itP x WL1 HitP1 Hxp ltac:(lia) Hleaf
                  (well_linked_fresh _ x WL Hleaf)) as WL2.
    set (h1 := <[p := with_parent x (Some P)]>
                 (<[P := with_children itP (item_children itP ++ [p])]> (heap m ++ [x])))
      in *.
    match type of Hrun with context [addChildNodes fuel ch (Some p) false ?m0] =>
      set (m1b := m0) in *;
      destruct (addChildNodes fuel ch (Some p) false m1b) as [m2| |] eqn:E2 end;
      [|discriminate..].
    assert (Hlen1 : length h1 = S p).
    { unfold h1. rewrite !length_insert, length_app. simpl. lia. }
    pose proof (addChildNodes_grows _ _ _ _ _ _ E2) as G2.
    destruct G2 as (L2 & _); [simpl; lia|]. simpl in L2.
    apply IHch in E2; [|simpl; lia|exact WL2].
    apply IHnx in Hrun; [exact Hrun|lia|exact E2].
Qed.

Lemma loadEdges_linked (es : list CyberiadaEdge) :
  forall (m m' : Model) (TR : ptr),
    trans_root m = Some TR -> TR < length (heap m) ->
    well_linked (heap m) ->
    loadEdges es m = Ok m' ->
    well_linked (heap m').
Proof.
  induction es as [|e es IH]; intros m m' TR Hroot HT WL Hrun.
  { injection Hrun as <-. exact WL. }
  simpl in Hrun. unfold convertEdge in Hrun.
  destruct (states_map m !! node_id (edge_source e)) as [s|];
    [|injection Hrun as <-; exact WL].
  destruct (states_map m !! node_id (edge_target e)) as [t|];
    [|injection Hrun as <-; exact WL].
  simpl in Hrun. rewrite Hroot in Hrun.
  match type of Hrun with context [heap m ++ [?x0]] => set (x := x0) in * end.
  set (p := length (heap m)) in *.
  assert (Hxp : (heap m ++ [x]) !! p = Some x) by now apply list_lookup_middle.
  destruct (lookup_lt_is_Some_2 (heap m) TR HT) as [itT HitT].
  assert (HitT1 : (heap m ++ [x]) !! TR = Some itT) by now apply lookup_app_l_Some.
  rewrite (addChild_spec _ TR p itT x) in Hrun; [|exact HitT1|exact Hxp|lia].
  cbv beta iota delta [bind] in Hrun.
  eapply IH in Hrun; [exact Hrun|exact Hroot| |].
  - simpl. rewrite !length_insert, length_app. lia.
  - simpl. apply well_linked_addChild; try assumption; try reflexivity.
    + now apply well_linked_alloc.
    + lia.
    + now apply well_linked_fresh.
Qed.

Lemma skeleton_linked (t : string) :
  well_linked [ mkItem nodeRoot None [1] "" "" "" NoGeometry None None;
                mkItem nodeSM (Some 0) [2; 3] "" t "" NoGeometry None None;
                mkItem nodeStatesAggr (Some 1) [] "" "" "" NoGeometry None None;
                mkItem nodeTransitionsAggr (Some 1) [] "" "" "" NoGeometry None None ].
Proof.
  intros a it r c Ha Hr.
  destruct a as [|[|[|[|a]]]]; simpl in Ha; try discriminate; injection Ha as <-;
    simpl in Hr.
  - destruct r as [|r]; [|discriminate]. injection Hr as <-.
    eexists. split; [reflexivity|]. split; reflexivity.
  - destruct r as [|[|r]]; try discriminate; injection Hr as <-;
      (eexists; split; [reflexivity|]; split; reflexivity).
  - discriminate.
  - discriminate.
Qed.

(** Every model [loadGraph] returns has consistent owner and child links. *)
Lemma loadGraph_linked (fuel : nat) (file : string) (m m' : Model) :
  loadGraph fuel file m = Ok m' -> well_linked (heap m').
Proof using Type*.
  unfold loadGraph. rewrite reset_spec. cbv beta iota delta [bind].
  destruct (cyberiada_read_sm file) as [res sm].
  destruct (Z.eqb_spec res CYBERIADA_NO_ERROR) as [->|Hres]; simpl negb; cbv iota.
  2:{ intros [= <-]. simpl. apply skeleton_linked. }
  match goal with |- context [renameSM ?nm ?m0] =>
    destruct (renameSM_fresh nm m0 eq_refl eq_refl) as (nm' & t & Hr) end.
  rewrite Hr. cbv beta iota.
  match goal with |- context [addChildNodes fuel ?n ?p true ?m0] =>
    set (m2 := m0) end.
  change (states_root m2) with (Some 2).
  destruct (addChildNodes fuel (nodes sm) (Some 2) true m2) as [m3| |] eqn:Ea;
    cbv beta iota delta [bind]; [|discriminate..].
  pose proof (addChildNodes_grows _ _ _ _ _ _ Ea) as G.
  destruct G as (L3 & _ & _ & _ & (_ & _ & _ & Q4 & _)); [simpl; lia|].
  simpl in L3. simpl in Q4.
  apply addChildNodes_linked in Ea; [|simpl; lia|apply skeleton_linked].
  intros Hrun. eapply loadEdges_linked in Hrun; [exact Hrun|exact Q4|lia|exact Ea].
Qed.

(** X8: rows of a parent.  For every valid column-0 address of a live item,
    [rowCount] is the length of the item's child sequence, [hasChildren]
    tells whether it is non-empty, and [hasIndex] and [index] agree with
    both: every row from 0 up to the row count has an address, which holds
    that row, column 0 and the child at that position, and every other row
    (and every positive column) gets the invalid address and never faults. *)
Theorem index_agrees_with_rowCount (m : Model) (p : QModelIndex) (a : ptr) (it : Item) :
  isValid p = true -> column p = 0%Z ->
  internalPointer p = Some a -> heap m !! a = Some it ->
  rowCount m p = Ok (Z.of_nat (length (item_children it))) /\
  hasChildren m p = Ok (negb (bool_decide (item_children it = []))) /\
  (forall r, (0 <= r < Z.of_nat (length (item_children it)))%Z ->
             exists c, item_children it !! Z.to_nat r = Some c /\
                       hasIndex m r 0 p = Ok true /\
                       index m r 0 p = Ok (createIndex r 0 (Some c))) /\
  (forall r, ~ (0 <= r < Z.of_nat (length (item_children it)))%Z ->
             hasIndex m r 0 p = Ok false /\ index m r 0 p = Ok invalidIndex) /\
  (forall r c, (0 < c)%Z ->
               hasIndex m r c p = Ok false /\ index m r c p = Ok invalidIndex).
Proof.
  intros Hv Hc Hp Ha.
  assert (Hrc : rowCount m p = Ok (Z.of_nat (length (item_children it)))).
  { unfold rowCount, childCount, deref. rewrite Hc, Hv. simpl.
    destruct (bool_decide (p = rootIndex m)) eqn:Hroot.
    - apply bool_decide_eq_true_1 in Hroot. rewrite Hroot in Hp. simpl in Hp.
      rewrite Hp, Ha. reflexivity.
    - rewrite Hp, Ha. reflexivity. }
  split; [exact Hrc|]. split.
  { unfold hasChildren. rewrite Hrc. simpl. destruct (item_children it); reflexivity. }
  unfold index, hasIndex, childCount, child, deref. rewrite Hv, Hp, Ha. simpl.
  split; [|split].
  - intros r Hr.
    destruct (lookup_lt_is_Some_2 (item_children it) (Z.to_nat r)) as [c Hcr]; [lia|].
    exists c. split; [exact Hcr|].
    destruct (Z.gtb_spec (Z.of_nat (length (item_children it))) 0); [|lia].
    destruct (Z.geb_spec r 0); [|lia].
    destruct (Z.ltb_spec r (Z.of_nat (length (item_children it)))); [|lia].
    simpl. destruct (Z.ltb_spec r 0); [lia|]. rewrite Hcr. split; reflexivity.
  - intros r Hr.
    destruct (Z.gtb_spec (Z.of_nat (length (item_children it))) 0); [|split; reflexivity].
    destruct (Z.geb_spec r 0); destruct (Z.ltb_spec r (Z.of_nat (length (item_children it))));
      try lia; split; reflexivity.
  - intros r c Hpos. destruct (Z.gtb_spec c 0); [|lia]. split; reflexivity.
Qed.

Lemma index_Ok_valid (m : Model) (r : Z) (p ci : QModelIndex) (a : ptr) (it : Item) :
  isValid p = true -> internalPointer p = Some a -> heap m !! a = Some it ->
  index m r 0 p = Ok ci -> isValid ci = true ->
  (0 <= r)%Z /\
  exists c, item_children it !! Z.to_nat r = Some c /\ ci = createIndex r 0 (Some c).
Proof.
  intros Hv Hp Ha. unfold index, hasIndex, childCount, child, deref.
  rewrite Hv, Hp, Ha. simpl.
  destruct (Z.of_nat (length (item_children it)) >? 0)%Z; simpl;
    [|intros [= <-]; discriminate].
  destruct (Z.geb_spec r 0); simpl; [|intros [= <-]; discriminate].
  destruct (r <? Z.of_nat (length (item_children it)))%Z; simpl;
    [|intros [= <-]; discriminate].
  destruct (Z.ltb_spec r 0); [lia|].
  destruct (item_children it !! Z.to_nat r) as [c|]; [|discriminate].
  intros [= <-] _. split; [lia|]. exists c. split; reflexivity.
Qed.

(** A reachable address of a loaded model is valid, in column 0, points at a
    live item, and is either the root's or carries the row of its item. *)
Lemma reachable_canonical (fuel : nat) (file : string) (m0 m : Model) (p : QModelIndex) :
  loadGraph fuel file m0 = Ok m ->
  reachable m p ->
  isValid p = true /\ column p = 0%Z /\
  exists a it,
    internalPointer p = Some a /\ heap m !! a = Some it /\
    (p = rootIndex m \/ (a <> 0 /\ rowOf (heap m) (Some a) = Ok (row p))).
Proof using Type*.
  intros Hrun Hreach.
  pose proof (loadGraph_linked _ _ _ _ Hrun) as WL.
  destruct (cyberiada_read_sm file) as [res sm] eqn:Hread.
  pose proof (loadGraph_shape fuel file res sm m0 m Hread Hrun) as Hs. use_shape Hs.
  induction Hreach as [|p r ci Hreach IH Hidx Hvci].
  { unfold rootIndex. rewrite Hr0. split; [reflexivity|]. split; [reflexivity|].
    eexists 0, _. split; [reflexivity|]. split; [exact H0|]. left. reflexivity. }
  destruct IH as (Hv & Hc & a & it & Hp & Ha & Hcan).
  destruct (index_Ok_valid m r p ci a it Hv Hp Ha Hidx Hvci) as (Hr & c & Hcr & ->).
  destruct (WL a it _ c Ha Hcr) as (itc & Hitc & Hpar & Hrow).
  split; [exact Hvci|]. split; [reflexivity|].
  exists c, itc. split; [reflexivity|]. split; [exact Hitc|]. right.
  split.
  { intros ->. rewrite H0 in Hitc. injection Hitc as <-. discriminate. }
  unfold rowOf, deref. rewrite Hitc. simpl. rewrite Hpar, Ha. simpl.
  rewrite Hrow. simpl. f_equal. lia.
Qed.

(** X9: [parent] undoes [index].  In every model [loadGraph] returns, for
    every address [p] a view can reach from the root and every row [r] at
    which [index] hands out a valid address, that address points at a live
    item, holds row [r] and column 0, is reachable in turn, and [parent]
    of it is exactly [p]. *)
Theorem parent_inverts_index
    (fuel : nat) (file : string) (m0 m : Model) (p : QModelIndex) (r : Z)
    (ci : QModelIndex) :
  loadGraph fuel file m0 = Ok m ->
  reachable m p ->
  index m r 0 p = Ok ci ->
  isValid ci = true ->
  parent m ci = Ok p /\
  row ci = r /\ column ci = 0%Z /\
  (exists itc, deref (heap m) (internalPointer ci) = Ok itc) /\
  reachable m ci.
Proof using Type*.
  intros Hrun Hreach Hidx Hvci.
  pose proof (loadGraph_linked _ _ _ _ Hrun) as WL.
  destruct (reachable_canonical fuel file m0 m p Hrun Hreach)
    as (Hv & Hc & a & it & Hp & Ha & Hcan).
  pose proof (reach_child m p r ci Hreach Hidx Hvci) as Hreach'.
  destruct (cyberiada_read_sm file) as [res sm] eqn:Hread.
  pose proof (loadGraph_shape fuel file res sm m0 m Hread Hrun) as Hs. use_shape Hs.
  destruct (index_Ok_valid m r p ci a it Hv Hp Ha Hidx Hvci) as (Hr & c & Hcr & ->).
  destruct (WL a it _ c Ha Hcr) as (itc & Hitc & Hpar & Hrow).
  assert (Hc0 : c <> 0).
  { intros ->. rewrite H0 in Hitc. injection Hitc as <-. discriminate. }
  split; [|split; [reflexivity|split; [reflexivity|split; [|exact Hreach']]]].
  2:{ exists itc. simpl. unfold deref. rewrite Hitc. reflexivity. }
  unfold parent. rewrite Hvci. simpl negb. cbv iota.
  rewrite (bool_decide_eq_false_2 (createIndex r 0 (Some c) = rootIndex m)).
  2:{ unfold rootIndex, createIndex. rewrite Hr0. congruence. }
  simpl orb. cbv iota.
  assert (Hown : a = 0 -> p = rootIndex m).
  { intros ->. destruct Hcan as [Hcan|[Hcan _]]; [exact Hcan|congruence]. }
  destruct (decide (createIndex r 0 (Some c) = SMIndex m)) as [E|E].
  - rewrite (bool_decide_eq_true_2 _ E). f_equal. symmetry. apply Hown.
    unfold SMIndex, createIndex in E. rewrite Hr1 in E. injection E as _ ->.
    rewrite H1 in Hitc. injection Hitc as <-. simpl in Hpar. congruence.
  - rewrite (bool_decide_eq_false_2 _ E).
    unfold parentOf, deref.
    change (internalPointer (createIndex r 0 (Some c))) with (Some c).
    cbv beta iota. rewrite Hitc. cbv beta iota delta [bind]. rewrite Hpar.
    destruct (decide (a = 0)) as [->|Ha0].
    + rewrite bool_decide_eq_true_2 by (now rewrite Hr0).
      f_equal. symmetry. now apply Hown.
    + rewrite bool_decide_eq_false_2 by (rewrite Hr0; congruence).
      destruct Hcan as [Hcan|[_ Hcan]].
      { rewrite Hcan in Hp. unfold rootIndex in Hp. simpl in Hp. rewrite Hr0 in Hp.
        congruence. }
      rewrite Hcan. simpl. f_equal.
      destruct p as [pr pc pp pm]. simpl in *. subst.
      unfold isValid in Hv. simpl in Hv. apply andb_prop in Hv. destruct Hv as [_ ->].
      reflexivity.
Qed.

(** ** Icons and drags *)

(** X10: the icon of an address depends on the category of its item and on
    nothing else, and tells the categories apart: two valid addresses of live
    items get the same icon exactly when their items have the same category.
    The empty icon is kept for the root item (and for the invalid address),
    and the decoration role of [data] hands out this very icon for every
    valid column-0 address other than the root's. *)
Theorem getIndexIcon_tells_categories_apart
    (m : Model) (i j : QModelIndex) (a b : ptr) (iti itj : Item) :
  isValid i = true -> internalPointer i = Some a -> heap m !! a = Some iti ->
  isValid j = true -> internalPointer j = Some b -> heap m !! b = Some itj ->
  exists ici icj,
    getIndexIcon m i = Ok ici /\ getIndexIcon m j = Ok icj /\
    (ici = icj <-> item_type iti = item_type itj) /\
    (ici = emptyIcon <-> item_type iti = nodeRoot) /\
    getIndexIcon m invalidIndex = Ok emptyIcon /\
    (column i = 0%Z -> i <> rootIndex m ->
     data m i DecorationRole = Ok (QVariant_icon ici)).
Proof.
  intros Hvi Hpi Hai Hvj Hpj Haj.
  unfold data, getIndexIcon, getType, deref.
  rewrite Hvi, Hvj, Hpi, Hpj, Hai, Haj. simpl.
  eexists _, _. split; [reflexivity|]. split; [reflexivity|].
  split; [|split; [|split; [reflexivity|]]].
  - destruct (item_type iti), (item_type itj); split; intros H;
      first [reflexivity | discriminate H].
  - destruct (item_type iti); split; intros H; first [reflexivity | discriminate H].
  - intros -> Hroot. simpl. rewrite bool_decide_eq_false_2 by exact Hroot. reflexivity.
Qed.

(** X11: [startDrag] on a live current address never faults and always
    offers the one action [supportedDropActions] names, under the media type
    [mimeTypes] lists, with the icon of the current address.  The payload
    holds the identifier of the current item when that is a state or an
    initial state in column 0, and is empty for every other current address:
    the drag is started all the same. *)
Theorem startDrag_payload (m : Model) (current : QModelIndex) :
  live_address m current ->
  exists d,
    startDrag m current = Ok d /\
    drag_action d = supportedDropActions m /\
    mimeTypes m = [mime_format (drag_mimeData d)] /\
    getIndexIcon m current = Ok (drag_icon d) /\
    mime_stream (drag_mimeData d)
    = (if draggable_address m current then [address_id m current] else []).
Proof.
  intros Hlive. unfold startDrag, mimeData.
  rewrite mimeData_stream_spec by (constructor; [exact Hlive|constructor]).
  cbv beta iota delta [bind].
  assert (Hicon : exists ic, getIndexIcon m current = Ok ic).
  { unfold getIndexIcon, getType. destruct (isValid current) eqn:Hv; simpl; [|eauto].
    destruct (Hlive Hv) as [it Hit]. rewrite Hit. simpl. eauto. }
  destruct Hicon as [ic Hic]. rewrite Hic. eexists. split; [reflexivity|]. simpl.
  split; [reflexivity|]. split; [reflexivity|]. split; [reflexivity|].
  unfold serialize_spec. simpl. destruct (draggable_address m current); reflexivity.
Qed.

(** ** Generated identifiers *)

(** X12: what [generateID] gives when it returns.  With any fuel to run at
    all, the call returns exactly when the index does not hold the literal
    key id-%d; the identifier returned is then that literal, it is absent
    from the index, exactly one random number has been drawn, and the store
    and the index are untouched. *)
Theorem generateID_returns_iff_candidate_free (fuel : nat) (m : Model) :
  0 < fuel ->
  (states_map m !! "id-%d" = None <-> exists s m', generateID fuel m = Ok (s, m')) /\
  (forall s m', generateID fuel m = Ok (s, m') ->
                s = "id-%d" /\ idToItem m s = None /\
                m' = set_rand_calls (S (rand_calls m)) m /\
                heap m' = heap m /\ states_map m' = states_map m).
Proof.
  intros Hfuel. destruct fuel as [|fuel]; [lia|].
  unfold generateID, idToItem.
  destruct (states_map m !! "id-%d") as [p|] eqn:Hk.
  - rewrite generateID_loop_taken by (rewrite Hk; eauto). simpl.
    split; [split; [discriminate|intros (s & m' & H); discriminate H]|].
    intros s m' H. discriminate H.
  - rewrite generateID_loop_free by exact Hk. simpl.
    split; [split; [eauto|reflexivity]|].
    intros s m' [= <- <-]. repeat split. exact Hk.
Qed.

(** ** The index of a loaded model *)

Lemma addToMap_loop_Ok_suffixed (fuel : nat) (sm : gmap string ptr) (id k : string) :
  addToMap_loop fuel sm id = Ok k -> exists j, k = suffixed id j.
Proof.
  revert id. induction fuel as [|fuel IH]; intros id; simpl; [discriminate|].
  destruct (contains sm id).
  - intros H. destruct (IH _ H) as [j ->]. exists (S j). reflexivity.
  - intros [= <-]. exists 0. reflexivity.
Qed.

Lemma addToMap_Ok_suffixed (fuel : nat) (id : string) (item : ptr) (m m' : Model) :
  addToMap fuel id item m = Ok m' ->
  exists j, m' = set_states_map (<[suffixed id j := item]> (states_map m)) m /\
            states_map m !! suffixed id j = None.
Proof.
  unfold addToMap.
  destruct (addToMap_loop fuel (states_map m) id) as [k| |] eqn:Hk; simpl;
    [|discriminate..].
  intros [= <-]. pose proof (addToMap_loop_Ok_free _ _ _ _ Hk) as Hfree.
  apply addToMap_loop_Ok_suffixed in Hk. destruct Hk as [j ->].
  exists j. split; [reflexivity|exact Hfree].
Qed.

Lemma convertNode_Ok_node (fuel : nat) (d : NodeData) (parent_item : pointer)
    (m m1 : Model) (item : ptr) :
  convertNode fuel d parent_item m = Ok (item, m1) ->
  exists x rc,
    item = length (heap m) /\
    m1 = set_rand_calls rc (set_heap (heap m ++ [x]) m) /\
    item_children x = [] /\ node_category (item_type x) = true.
Proof.
  unfold convertNode, generateID, new_item.
  destruct (decide (node_type d = cybNodeInitial)).
  { intros [= <- <-]. eexists _, (rand_calls m). repeat split. }
  destruct (decide (node_type d = cybNodeComment)).
  - destruct (generateID_loop fuel (states_map m) (rand_calls m)) as [[s c]| |];
      simpl; [|discriminate..].
    intros [= <- <-]. eexists _, c. repeat split.
  - intros [= <- <-]. eexists _, (rand_calls m). repeat split.
Qed.

(** The index stays sound when the store keeps the category and the
    identifier of every item it had. *)
Lemma index_sound_mono (m m' : Model) :
  states_map m' = states_map m ->
  (forall q it, heap m !! q = Some it ->
                exists it', heap m' !! q = Some it' /\
                            item_type it' = item_type it /\ item_id it' = item_id it) ->
  index_sound m -> index_sound m'.
Proof.
  intros Hsm Hkeep [S1 S2]. split.
  - intros k p Hk. rewrite Hsm in Hk.
    destruct (S1 k p Hk) as (it & Hit & Hty & j & Hj).
    destruct (Hkeep p it Hit) as (it' & Hit' & Hty' & Hid').
    exists it'. split; [exact Hit'|]. split; [congruence|]. exists j. congruence.
  - intros k k' p. rewrite Hsm. apply S2.
Qed.

Lemma addChildNodes_index_sound (n : CyberiadaNode) :
  forall (fuel : nat) (P : ptr) (toplevel : bool) (m m' : Model),
    addChildNodes fuel n (Some P) toplevel m = Ok m' ->
    P < length (heap m) ->
    index_sound m ->
    index_sound m'.
Proof.
  induction n as [|d ch IHch nx IHnx]; intros fuel P toplevel m m' Hrun HP Hinv.
  { injection Hrun as <-. exact Hinv. }
  rewrite addChildNodes_cons in Hrun.
  destruct (convertNode fuel d (Some P) m) as [[item m1]| |] eqn:E1;
    simpl in Hrun; [|discriminate..].
  apply convertNode_Ok_node in E1. destruct E1 as (x & rc & -> & -> & Hleaf & Hcat).
  set (p := length (heap m)) in *.
  destruct toplevel.
  - rewrite null_guard in Hrun.
    destruct (addChildNodes fuel ch (Some P) false
                (set_rand_calls rc (set_heap (heap m ++ [x]) m))) as [m2| |] eqn:E2;
      simpl in Hrun; [|discriminate..].
    pose proof (addChildNodes_grows _ _ _ _ _ _ E2) as G2.
    destruct G2 as (L2 & _); [simpl; rewrite length_app; lia|].
    simpl in L2. rewrite length_app in L2.
    apply IHch in E2; [|simpl; rewrite length_app; lia|].
    + apply IHnx in Hrun; [exact Hrun|lia|exact E2].
    + apply (index_sound_mono m); [reflexivity| |exact Hinv].
      intros q it Hq. exists it. split; [simpl; now apply lookup_app_l_Some|].
      split; reflexivity.
  - simpl heap in Hrun.
    assert (Hxp : (heap m ++ [x]) !! p = Some x) by now apply list_lookup_middle.
    assert (Hget : getID (heap m ++ [x]) (Some p) = Ok (item_id x)).
    { unfold getID, deref. rewrite Hxp. reflexivity. }
    rewrite Hget in Hrun. cbv beta iota delta [bind] in Hrun.
    match type of Hrun with context [addToMap ?f ?i ?c ?m0] =>
      destruct (addToMap f i c m0) as [m1a| |] eqn:Ea end;
      [|discriminate..].
    apply addToMap_Ok_suffixed in Ea. destruct Ea as (j & -> & Hfree). simpl in Hfree.
    destruct (lookup_lt_is_Some_2 (heap m) P HP) as [itP HitP].
    assert (HitP1 : (heap m ++ [x]) !! P = Some itP) by now apply lookup_app_l_Some.
    rewrite (addChild_spec _ P p itP x) in Hrun; [|exact HitP1|exact Hxp|lia].
    simpl heap in Hrun. simpl states_map in Hrun. rewrite null_guard in Hrun.
    set (h1 := <[p := with_parent x (Some P)]>
                 (<[P := with_children itP (item_children itP ++ [p])]> (heap m ++ [x])))
      in *.
    assert (Hlen1 : length h1 = S p).
    { unfold h1. rewrite !length_insert, length_app. simpl. lia. }
    assert (Hp1 : h1 !! p = Some (with_parent x (Some P))).
    { unfold h1. apply list_lookup_insert_eq. rewrite length_insert, length_app.
      simpl. lia. }
    assert (Hold : forall q it, heap m !! q = Some it ->
              q <> p /\ exists it', h1 !! q = Some it' /\
                                    item_type it' = item_type it /\
                                    item_id it' = item_id it).
    { intros q it Hq. pose proof (lookup_lt_Some _ _ _ Hq) as Hlt.
      split; [unfold p; lia|]. unfold h1.
      rewrite list_lookup_insert_ne by (unfold p; lia).
      destruct (decide (q = P)) as [->|HqP].
      - rewrite list_lookup_insert_eq by (rewrite length_app; lia).
        rewrite HitP in Hq. injection Hq as <-. eexists. split; [reflexivity|].
        split; reflexivity.
      - rewrite list_lookup_insert_ne by congruence.
        exists it. split; [now apply lookup_app_l_Some|]. split; reflexivity. }
    match type of Hrun with context [addChildNodes fuel ch (Some p) false ?m0] =>
      set (m1b := m0) in *;
      destruct (addChildNodes fuel ch (Some p) false m1b) as [m2| |] eqn:E2 end;
      [|discriminate..].
    assert (Hinv1 : index_sound m1b).
    { destruct Hinv as [S1 S2]. split; simpl.
      - intros k q Hk. destruct (decide (k = suffixed (item_id x) j)) as [->|Hne].
        + rewrite lookup_insert_eq in Hk. injection Hk as <-.
          eexists. split; [exact Hp1|]. split; [exact Hcat|]. exists j. reflexivity.
        + rewrite lookup_insert_ne in Hk by congruence.
          destruct (S1 k q Hk) as (it & Hit & Hty & i & Hi).
          destruct (Hold q it Hit) as (_ & it' & Hit' & Hty' & Hid').
          exists it'. split; [exact Hit'|]. split; [congruence|]. exists i. congruence.
      - intros k k' q Hk Hk'.
        destruct (decide (k = suffixed (item_id x) j)) as [->|Hne];
          destruct (decide (k' = suffixed (item_id x) j)) as [->|Hne'].
        + reflexivity.
        + rewrite lookup_insert_eq in Hk. injection Hk as <-.
          rewrite lookup_insert_ne in Hk' by congruence.
          destruct (S1 k' p Hk') as (it & Hit & _).
          destruct (Hold p it Hit) as (Hcontra & _). congruence.
        + rewrite lookup_insert_eq in Hk'. injection Hk' as <-.
          rewrite lookup_insert_ne in Hk by congruence.
          destruct (S1 k p Hk) as (it & Hit & _).
          destruct (Hold p it Hit) as (Hcontra & _). congruence.
        + rewrite lookup_insert_ne in Hk by congruence.
          rewrite lookup_insert_ne in Hk' by congruence.
          exact (S2 k k' q Hk Hk'). }
    pose proof (addChildNodes_grows _ _ _ _ _ _ E2) as G2.
    destruct G2 as (L2 & _); [simpl; lia|]. simpl in L2.
    apply IHch in E2; [|simpl; lia|exact Hinv1].
    apply IHnx in Hrun; [exact Hrun|lia|exact E2].
Qed.

(** The stages of a run of [loadGraph] that got past the parser. *)
Lemma loadGraph_stages (fuel : nat) (file : string) (sm : CyberiadaSM) (m m' : Model) :
  cyberiada_read_sm file = (CYBERIADA_NO_ERROR, sm) ->
  loadGraph fuel file m = Ok m' ->
  exists m2 m3 t,
    heap m2 = [ mkItem nodeRoot None [1] "" "" "" NoGeometry None None;
                mkItem nodeSM (Some 0) [2; 3] "" t "" NoGeometry None None;
                mkItem nodeStatesAggr (Some 1) [] "" "" "" NoGeometry None None;
                mkItem nodeTransitionsAggr (Some 1) [] "" "" "" NoGeometry None None ] /\
    states_map m2 = ∅ /\
    addChildNodes fuel (nodes sm) (Some 2) true m2 = Ok m3 /\
    trans_root m3 = Some 3 /\
    heap m3 !! 3
    = Some (mkItem nodeTransitionsAggr (Some 1) [] "" "" "" NoGeometry None None) /\
    loadEdges (edges sm) m3 = Ok m'.
Proof using Type*.
  intros Hread. unfold loadGraph. rewrite reset_spec. cbv beta iota delta [bind].
  rewrite Hread. simpl negb. cbv iota.
  match goal with |- context [renameSM ?nm ?m0] =>
    destruct (renameSM_fresh nm m0 eq_refl eq_refl) as (nm' & t & Hr) end.
  rewrite Hr. cbv beta iota.
  match goal with |- context [addChildNodes fuel ?n ?p true ?m0] =>
    set (m2 := m0) end.
  change (states_root m2) with (Some 2).
  destruct (addChildNodes fuel (nodes sm) (Some 2) true m2) as [m3| |] eqn:Ea;
    cbv beta iota delta [bind]; [|discriminate..].
  intros Hrun. exists m2, m3, t.
  pose proof (addChildNodes_grows _ _ _ _ _ _ Ea) as G.
  destruct G as (L3 & F3 & _ & _ & (_ & _ & _ & Q4 & _)); [simpl; lia|].
  split; [reflexivity|]. split; [reflexivity|]. split; [exact Ea|].
  split; [exact Q4|]. split; [|exact Hrun].
  rewrite F3 by (simpl; lia). reflexivity.
Qed.

Lemma loadGraph_index_sound (fuel : nat) (file : string) (m m' : Model) :
  loadGraph fuel file m = Ok m' -> index_sound m'.
Proof using Type*.
  intros Hrun. destruct (cyberiada_read_sm file) as [res sm] eqn:Hread.
  destruct (Z.eq_dec res CYBERIADA_NO_ERROR) as [->|Hres].
  - destruct (loadGraph_stages fuel file sm m m' Hread Hrun)
      as (m2 & m3 & t & Hh2 & Hs2 & Ea & Htr & HT & He).
    assert (Hinv3 : index_sound m3).
    { eapply addChildNodes_index_sound; [exact Ea|rewrite Hh2; simpl; lia|].
      split; intros k; intros; rewrite Hs2 in *; now rewrite lookup_empty in *. }
    destruct (loadEdges_returns (edges sm) m3 3 _ Htr HT) as (h' & ts & Hrun' & L & F & HT').
    rewrite Hrun' in He. injection He as <-.
    apply (index_sound_mono m3); [reflexivity| |exact Hinv3].
    intros q it Hq. simpl. destruct (decide (q = 3)) as [->|Hq3].
    + rewrite HT in Hq. injection Hq as <-. rewrite HT'. eexists. split; [reflexivity|].
      split; reflexivity.
    + exists it. rewrite F; [|now apply lookup_lt_Some in Hq|exact Hq3].
      split; [exact Hq|]. split; reflexivity.
  - pose proof (loadGraph_shape fuel file res sm m m' Hread Hrun) as Hs. use_shape Hs.
    destruct (Herr Hres) as [Hempty _].
    split; intros k; intros; rewrite Hempty in *; now rewrite lookup_empty in *.
Qed.

(** X13: the index of a loaded model is sound.  In every model [loadGraph]
    returns, whatever the document, every identifier [idToItem] resolves
    leads to a live item that is a state, an initial state or a comment (so
    never one of the four fixed items), the item's own identifier is the key
    with zero or more underscores taken off its end, and two different keys
    never lead to the same item. *)
Theorem loaded_index_is_sound (fuel : nat) (file : string) (m0 m : Model) :
  loadGraph fuel file m0 = Ok m ->
  (forall id p, idToItem m id = Some p ->
     exists it, deref (heap m) (Some p) = Ok it /\
                (item_type it = nodeState \/ item_type it = nodeInitialState \/
                 item_type it = nodeComment) /\
                (exists j, id = suffixed (item_id it) j) /\
                Some p <> root m /\ Some p <> sm_root m /\
                Some p <> states_root m /\ Some p <> trans_root m) /\
  (forall id id' p, idToItem m id = Some p -> idToItem m id' = Some p -> id = id').
Proof using Type*.
  intros Hrun. destruct (loadGraph_index_sound _ _ _ _ Hrun) as [S1 S2].
  destruct (cyberiada_read_sm file) as [res sm] eqn:Hread.
  pose proof (loadGraph_shape fuel file res sm m0 m Hread Hrun) as Hs. use_shape Hs.
  split; [|exact S2].
  intros id p Hid. destruct (S1 id p Hid) as (it & Hit & Hty & Hj).
  exists it. split; [unfold deref; now rewrite Hit|].
  split; [destruct (item_type it); try discriminate Hty; auto|].
  split; [exact Hj|].
  rewrite Hr0, Hr1, Hr2, Hr3.
  repeat split; intros [= ->]; rewrite Hit in *;
    match goal with H : Some it = Some _ |- _ => injection H as -> end;
    discriminate Hty.
Qed.

(** X14: the transitions of a loaded model have live endpoints.  In every
    model [loadGraph] returns, every row of the transitions container is a
    transition item without children, owned by the container, and its source
    and target are never NULL: they are the live state, initial-state or
    comment items the index holds under some identifier. *)
Theorem loaded_transitions_have_live_endpoints
    (fuel : nat) (file : string) (m0 m : Model) (r : Z) (ci : QModelIndex) :
  loadGraph fuel file m0 = Ok m ->
  index m r 0 (transitionsRootIndex m) = Ok ci ->
  isValid ci = true ->
  exists t itt s g its itg,
    internalPointer ci = Some t /\ heap m !! t = Some itt /\
    isTransitionIndex m ci = Ok true /\
    item_type itt = nodeTransition /\ item_children itt = [] /\
    item_parent itt = trans_root m /\
    item_source itt = Some s /\ item_target itt = Some g /\
    heap m !! s = Some its /\ heap m !! g = Some itg /\
    node_category (item_type its) = true /\ node_category (item_type itg) = true /\
    (exists ids, idToItem m ids = Some s) /\ (exists idg, idToItem m idg = Some g).
Proof using Type*.
  intros Hrun Hidx Hv.
  destruct (loadGraph_index_sound _ _ _ _ Hrun) as [S1 _].
  destruct (cyberiada_read_sm file) as [res sm] eqn:Hread.
  pose proof (loadGraph_shape fuel file res sm m0 m Hread Hrun) as Hs. use_shape Hs.
  destruct (Z.eq_dec res CYBERIADA_NO_ERROR) as [->|Hres].
  2:{ exfalso. destruct (Herr Hres) as [_ Hlen].
      assert (ts = []) as ->.
      { clear -Hidx Hv Hrun Hread Hres Hr3 H3 qrand_value cyberiada_read_sm
                fresh_root_title CYBERIADA_EMPTY_NODE_TITLE.
        unfold loadGraph in Hrun. rewrite reset_spec in Hrun.
        cbv beta iota delta [bind] in Hrun. rewrite Hread in Hrun.
        destruct (Z.eqb_spec res CYBERIADA_NO_ERROR); [contradiction|].
        simpl in Hrun. injection Hrun as <-. simpl in H3. now injection H3 as <-. }
      destruct (index_Ok_valid m r (transitionsRootIndex m) ci 3 _ eq_refl
                  ltac:(unfold transitionsRootIndex; now rewrite Hr3) H3 Hidx Hv)
        as (_ & c & Hc & _). discriminate Hc. }
  destruct (loadGraph_stages fuel file sm m0 m Hread Hrun)
    as (m2 & m3 & t0 & Hh2 & Hs2 & Ea & Htr & HT & He).
  rewrite loadEdges_prefix in He.
  destruct (loadEdges_spec (resolved_prefix (states_map m3) (edges sm)) m3 3 _ Htr HT)
    as (h' & ts' & Hrun' & Hlen & Hfr & HT' & Hts).
  { apply resolved_prefix_resolvable. }
  rewrite Hrun' in He. injection He as <-. simpl in *.
  rewrite HT' in H3. injection H3 as <-.
  destruct (index_Ok_valid (set_heap h' m3) r (transitionsRootIndex (set_heap h' m3)) ci 3 _ eq_refl
              ltac:(unfold transitionsRootIndex; simpl; now rewrite Hr3) HT' Hidx Hv)
    as (_ & c & Hc & ->).
  simpl in Hc.
  destruct (Forall2_lookup_l _ _ _ _ _ Hts Hc) as (e & He & Hitem).
  pose proof (resolved_prefix_resolvable (states_map m3) (edges sm)) as Hres.
  rewrite Forall_lookup in Hres. destruct (Hres _ _ He) as [[s Hs] [g Hg]].
  assert (Hnode : forall k q, states_map m3 !! k = Some q ->
            exists it, h' !! q = Some it /\ node_category (item_type it) = true).
  { intros k q Hk. destruct (S1 k q Hk) as (it & Hit & Hty & _). eauto. }
  destruct (Hnode _ _ Hs) as (its & Hits & Htys).
  destruct (Hnode _ _ Hg) as (itg & Hitg & Htyg).
  exists c, (edge_item (states_map m3) 3 e), s, g, its, itg.
  unfold idToItem, isTransitionIndex, isTypeIndex, getType, deref. simpl.
  rewrite Hr3, Hitem, Hv. simpl.
  repeat split; try assumption; try reflexivity; eauto.
Qed.

(** ** The states tree and the index *)

Lemma registered_alloc (h : list Item) (sm : gmap string ptr) (x : Item) :
  registered_children h sm -> item_children x = [] ->
  registered_children (h ++ [x]) sm.
Proof.
  intros Hreg Hx a it r c Ha Hr.
  destruct (decide (a < length h)) as [Hlt|Hge].
  - rewrite lookup_app_l in Ha by exact Hlt. exact (Hreg a it r c Ha Hr).
  - pose proof (lookup_lt_Some _ _ _ Ha) as Hb. rewrite length_app in Hb. simpl in Hb.
    assert (a = length h) as -> by lia.
    rewrite list_lookup_middle in Ha by reflexivity. injection Ha as <-.
    rewrite Hx in Hr. discriminate.
Qed.

Lemma registered_attach (h : list Item) (sm sm' : gmap string ptr) (P : ptr)
    (itP x : Item) :
  registered_children h sm -> sm ⊆ sm' ->
  h !! P = Some itP -> item_children x = [] ->
  (P <> 3 -> exists k, sm' !! k = Some (length h)) ->
  registered_children
    (<[length h := with_parent x (Some P)]>
       (<[P := with_children itP (item_children itP ++ [length h])]> (h ++ [x]))) sm'.
Proof.
  intros Hreg Hsub HP Hx Hnew a it r c Ha Hr H0 H1 H3.
  pose proof (lookup_lt_Some _ _ _ HP) as HPlt.
  assert (Hweak : forall c0, (exists k, sm !! k = Some c0) -> exists k, sm' !! k = Some c0).
  { intros c0 [k Hk]. exists k. eapply lookup_weaken; eassumption. }
  destruct (decide (a = length h)) as [->|Hal].
  { rewrite list_lookup_insert_eq in Ha
      by (rewrite length_insert, length_app; simpl; lia).
    injection Ha as <-. simpl in Hr. rewrite Hx in Hr. discriminate. }
  rewrite list_lookup_insert_ne in Ha by congruence.
  destruct (decide (a = P)) as [->|HaP].
  - rewrite list_lookup_insert_eq in Ha by (rewrite length_app; lia).
    injection Ha as <-. simpl in Hr.
    apply lookup_app_Some in Hr. destruct Hr as [Hr|[Hlen Hr]].
    + apply Hweak. exact (Hreg P itP r c HP Hr H0 H1 H3).
    + destruct (r - length (item_children itP)) as [|k]; [|discriminate].
      injection Hr as <-. now apply Hnew.
  - rewrite list_lookup_insert_ne in Ha by congruence.
    assert (Ha0 : h !! a = Some it).
    { pose proof (lookup_lt_Some _ _ _ Ha) as Hb. rewrite length_app in Hb. simpl in Hb.
      rewrite lookup_app_l in Ha by lia. exact Ha. }
    apply Hweak. exact (Hreg a it r c Ha0 Hr H0 H1 H3).
Qed.

Lemma addChildNodes_registered (n : CyberiadaNode) :
  forall (fuel : nat) (P : ptr) (toplevel : bool) (m m' : Model),
    addChildNodes fuel n (Some P) toplevel m = Ok m' ->
    P < length (heap m) ->
    registered_children (heap m) (states_map m) ->
    registered_children (heap m') (states_map m').
Proof.
  induction n as [|d ch IHch nx IHnx]; intros fuel P toplevel m m' Hrun HP Hreg.
  { injection Hrun as <-. exact Hreg. }
  rewrite addChildNodes_cons in Hrun.
  destruct (convertNode fuel d (Some P) m) as [[item m1]| |] eqn:E1;
    simpl in Hrun; [|discriminate..].
  apply convertNode_Ok_leaf in E1. destruct E1 as (x & rc & -> & -> & Hleaf).
  set (p := length (heap m)) in *.
  destruct toplevel.
  - rewrite null_guard in Hrun.
    destruct (addChildNodes fuel ch (Some P) false
                (set_rand_calls rc (set_heap (heap m ++ [x]) m))) as [m2| |] eqn:E2;
      simpl in Hrun; [|discriminate..].
    pose proof (addChildNodes_grows _ _ _ _ _ _ E2) as G2.
    destruct G2 as (L2 & _); [simpl; rewrite length_app; lia|].
    simpl in L2. rewrite length_app in L2.
    apply IHch in E2; [|simpl; rewrite length_app; lia|].
    + apply IHnx in Hrun; [exact Hrun|lia|exact E2].
    + simpl. now apply registered_alloc.
  - simpl heap in Hrun.
    assert (Hxp : (heap m ++ [x]) !! p = Some x) by now apply list_lookup_middle.
    assert (Hget : getID (heap m ++ [x]) (Some p) = Ok (item_id x)).
    { unfold getID, deref. rewrite Hxp. reflexivity. }
    rewrite Hget in Hrun. cbv beta iota delta [bind] in Hrun.
    match type of Hrun with context [addToMap ?f ?i ?c ?m0] =>
      destruct (addToMap f i c m0) as [m1a| |] eqn:Ea end;
      [|discriminate..].
    apply addToMap_Ok_inv in Ea. destruct Ea as (k & -> & Hfree). simpl in Hfree.
    destruct (lookup_lt_is_Some_2 (heap m) P HP) as [itP HitP].
    assert (HitP1 : (heap m ++ [x]) !! P = Some itP) by now apply lookup_app_l_Some.
    rewrite (addChild_spec _ P p itP x) in Hrun; [|exact HitP1|exact Hxp|lia].
    simpl heap in Hrun. simpl states_map in Hrun. rewrite null_guard in Hrun.
    pose proof (registered_attach (heap m) (states_map m) (<[k := p]> (states_map m))
                  P itP x Hreg (insert_subseteq _ _ _ Hfree) HitP Hleaf
                  (fun _ => ex_intro _ k (lookup_insert_eq _ _ _))) as Hreg1.
    fold p in Hreg1.
    set (h1 := <[p := with_parent x (Some P)]>
                 (<[P := with_children itP (item_children itP ++ [p])]> (heap m ++ [x])))
      in *.
    assert (Hlen1 : length h1 = S p).
    { unfold h1. rewrite !length_insert, length_app. simpl. lia. }
    match type of Hrun with context [addChildNodes fuel ch (Some p) false ?m0] =>
      set (m1b := m0) in *;
      destruct (addChildNodes fuel ch (Some p) false m1b) as [m2| |] eqn:E2 end;
      [|discriminate..].
    pose proof (addChildNodes_grows _ _ _ _ _ _ E2) as G2.
    destruct G2 as (L2 & _); [simpl; lia|]. simpl in L2.
    apply IHch in E2; [|simpl; lia|exact Hreg1].
    apply IHnx in Hrun; [exact Hrun|lia|exact E2].
Qed.

Lemma loadEdges_registered (es : list CyberiadaEdge) :
  forall (m m' : Model),
    trans_root m = Some 3 -> 3 < length (heap m) ->
    registered_children (heap m) (states_map m) ->
    loadEdges es m = Ok m' ->
    registered_children (heap m') (states_map m').
Proof.
  induction es as [|e es IH]; intros m m' Hroot HT Hreg Hrun.
  { injection Hrun as <-. exact Hreg. }
  simpl in Hrun. unfold convertEdge in Hrun.
  destruct (states_map m !! node_id (edge_source e)) as [s|];
    [|injection Hrun as <-; exact Hreg].
  destruct (states_map m !! node_id (edge_target e)) as [t|];
    [|injection Hrun as <-; exact Hreg].
  simpl in Hrun. rewrite Hroot in Hrun.
  match type of Hrun with context [heap m ++ [?x0]] => set (x := x0) in * end.
  assert (Hxp : (heap m ++ [x]) !! length (heap m) = Some x)
    by now apply list_lookup_middle.
  destruct (lookup_lt_is_Some_2 (heap m) 3 HT) as [itT HitT].
  assert (HitT1 : (heap m ++ [x]) !! 3 = Some itT) by now apply lookup_app_l_Some.
  rewrite (addChild_spec _ 3 (length (heap m)) itT x) in Hrun;
    [|exact HitT1|exact Hxp|lia].
  cbv beta iota delta [bind] in Hrun.
  eapply IH in Hrun; [exact Hrun|exact Hroot| |].
  - simpl. rewrite !length_insert, length_app. lia.
  - simpl. apply (registered_attach (heap m) (states_map m)); try assumption;
      try reflexivity. intros Hne. congruence.
Qed.

Lemma loadGraph_registered (fuel : nat) (file : string) (m m' : Model) :
  loadGraph fuel file m = Ok m' ->
  registered_children (heap m') (states_map m').
Proof using Type*.
  intros Hrun. destruct (cyberiada_read_sm file) as [res sm] eqn:Hread.
  assert (Hskel : forall t sm0,
            registered_children
              [ mkItem nodeRoot None [1] "" "" "" NoGeometry None None;
                mkItem nodeSM (Some 0) [2; 3] "" t "" NoGeometry None None;
                mkItem nodeStatesAggr (Some 1) [] "" "" "" NoGeometry None None;
                mkItem nodeTransitionsAggr (Some 1) [] "" "" "" NoGeometry None None ]
              sm0).
  { intros t sm0 a it r c Ha Hr H0 H1 H3.
    destruct a as [|[|[|[|a]]]]; try congruence; simpl in Ha; [|discriminate].
    injection Ha as <-. discriminate Hr. }
  destruct (Z.eq_dec res CYBERIADA_NO_ERROR) as [->|Hres].
  - destruct (loadGraph_stages fuel file sm m m' Hread Hrun)
      as (m2 & m3 & t & Hh2 & Hs2 & Ea & Htr & HT & He).
    eapply loadEdges_registered; [exact Htr|now apply lookup_lt_Some in HT| |exact He].
    eapply addChildNodes_registered; [exact Ea|rewrite Hh2; simpl; lia|].
    rewrite Hh2. apply Hskel.
  - unfold loadGraph in Hrun. rewrite reset_spec in Hrun.
    cbv beta iota delta [bind] in Hrun. rewrite Hread in Hrun.
    destruct (Z.eqb_spec res CYBERIADA_NO_ERROR); [contradiction|].
    simpl in Hrun. injection Hrun as <-. simpl. apply Hskel.
Qed.

(** X15: the states tree of a loaded model is indexed.  In every model
    [loadGraph] returns, take a valid address of any live item other than the
    root, the state-machine root and the transitions container; every valid
    address [index] hands out below it points at a live state, initial-state
    or comment item, and [idToItem] finds that very item under a key that is
    the item's identifier plus zero or more underscores.  Looking up the
    item's own identifier gives the item back exactly when no underscore was
    added. *)
Theorem loaded_states_tree_is_indexed
    (fuel : nat) (file : string) (m0 m : Model) (p : QModelIndex) (a : ptr) (it : Item)
    (r : Z) (ci : QModelIndex) :
  loadGraph fuel file m0 = Ok m ->
  isValid p = true -> internalPointer p = Some a -> heap m !! a = Some it ->
  Some a <> root m -> Some a <> sm_root m -> Some a <> trans_root m ->
  index m r 0 p = Ok ci -> isValid ci = true ->
  exists c itc id,
    internalPointer ci = Some c /\ heap m !! c = Some itc /\
    node_category (item_type itc) = true /\
    idToItem m id = Some c /\
    (exists j, id = suffixed (item_id itc) j) /\
    (idToItem m (item_id itc) = Some c <-> id = item_id itc).
Proof using Type*.
  intros Hrun Hv Hp Ha Hn0 Hn1 Hn3 Hidx Hvci.
  pose proof (loadGraph_registered _ _ _ _ Hrun) as Hreg.
  destruct (loadGraph_index_sound _ _ _ _ Hrun) as [S1 S2].
  destruct (cyberiada_read_sm file) as [res sm] eqn:Hread.
  pose proof (loadGraph_shape fuel file res sm m0 m Hread Hrun) as Hs. use_shape Hs.
  rewrite Hr0 in Hn0. rewrite Hr1 in Hn1. rewrite Hr3 in Hn3.
  destruct (index_Ok_valid m r p ci a it Hv Hp Ha Hidx Hvci) as (Hr & c & Hcr & ->).
  destruct (Hreg a it _ c Ha Hcr) as [id Hid]; try congruence.
  destruct (S1 id c Hid) as (itc & Hitc & Hty & Hj).
  exists c, itc, id. unfold idToItem.
  split; [reflexivity|]. split; [exact Hitc|]. split; [exact Hty|].
  split; [exact Hid|]. split; [exact Hj|].
  split; [intros Hown; exact (S2 _ _ _ Hid Hown)|intros <-; exact Hid].
Qed.

End CyberiadaSMModel.

(** * Runs on the sample documents *)

Definition load (doc : CyberiadaSM) : result Model :=
  loadGraph sample_rand (parser_of doc) "SM" "State" 16 "sample.graphml" blank.

Definition loaded (doc : CyberiadaSM) : Model :=
  match load doc with
  | Ok m => m
  | _ => blank
  end.

Example lamp_loaded :
  load lamp_doc = Ok (loaded lamp_doc) /\
  map item_type (heap (loaded lamp_doc))
  = [nodeRoot; nodeSM; nodeStatesAggr; nodeTransitionsAggr; nodeState;
     nodeInitialState; nodeState; nodeState; nodeState; nodeComment;
     nodeTransition; nodeTransition] /\
  map item_children (heap (loaded lamp_doc))
  = [[1]; [2; 3]; [5; 6; 7; 9]; [10; 11]; []; []; []; [8]; []; []; []; []] /\
  map_to_list (states_map (loaded lamp_doc))
  = [("s1_", 8); ("s1", 6); ("s2", 7); ("init", 5); ("id-%d", 9)].
Proof. vm_compute. repeat split. Qed.

Example lamp_dragged : serialize_spec (loaded lamp_doc) dragged = ["s2"; "init"; "s1"].
Proof. vm_compute. reflexivity. Qed.

(** C1 fails at a document whose second edge names a node that does not
    exist: [loadGraph] returns at that edge and the hierarchy stays as built
    so far; the states container keeps the two converted states and the
    transitions container keeps the transition of the first edge. *)
Lemma unresolved_edge_keeps_partial_tree :
  exists m',
    load dangling_doc = Ok m' /\
    ~ resolvable (states_map m')
        (edge_of "e2" (state_node "s2" "On") (state_node "s3" "Dim") "dim") /\
    childCount (heap m') (states_root m') = Ok 2%Z /\
    childCount (heap m') (trans_root m') = Ok 1%Z /\
    (item_children <$> heap m' !! 2) = Some [5; 6] /\
    (item_children <$> heap m' !! 3) = Some [7] /\
    getID (heap m') (Some 5) = Ok "s1" /\
    getID (heap m') (Some 6) = Ok "s2" /\
    getID (heap m') (Some 7) = Ok "e1".
Proof.
  eexists. split; [vm_compute; reflexivity|].
  split; [|vm_compute; repeat split].
  intros [_ [v Hv]]. vm_compute in Hv. discriminate.
Qed.

(** C1 at the same document. *)
Lemma loadGraph_stops_at_unresolved_edge_witness :
  exists m' sr tr itS itT,
    loadGraph sample_rand (parser_of dangling_doc) "SM" "State" 16 "sample.graphml" blank
      = Ok m' /\
    states_root m' = Some sr /\ heap m' !! sr = Some itS /\
    trans_root m' = Some tr /\ heap m' !! tr = Some itT /\
    mirrors "State" (heap m') (states_map m') 0 (length (heap m')) sr (item_children itS)
            (hoisted (nodes dangling_doc)) /\
    sum_list (map (subtree_size (length (heap m')) (heap m')) (item_children itS))
      = count_nodes (hoisted (nodes dangling_doc)) /\
    Forall2 (fun t e => heap m' !! t = Some (edge_item (states_map m') tr e))
            (item_children itT) (resolved_prefix (states_map m') (edges dangling_doc)) /\
    (~ Forall (resolvable (states_map m')) (edges dangling_doc) ->
     length (item_children itT) < length (edges dangling_doc)).
Proof.
  apply (loadGraph_stops_at_unresolved_edge sample_rand (parser_of dangling_doc)
           "SM" "State" 16 "sample.graphml" dangling_doc blank).
  - reflexivity.
  - vm_compute. lia.
  - simpl. repeat split; intros _; discriminate.
  - vm_compute. lia.
Defined.

(** C2, in the model loaded from [light_doc]: after [move] of the state s1
    onto the state s2, which is not its owner, s1 is still the first child of
    the states container and s2 still has no child. *)
Theorem move_leaves_item_in_place :
  let m := loaded light_doc in
  let m' := move (Some 5) (Some 6) m in
  load light_doc = Ok m /\
  getID (heap m) (Some 5) = Ok "s1" /\
  getID (heap m) (Some 6) = Ok "s2" /\
  getType (heap m) (Some 6) = Ok nodeState /\
  (item_parent <$> heap m !! 5) = Some (Some 2) /\
  (item_children <$> heap m' !! 2) = Some [5; 6] /\
  (item_children <$> heap m' !! 6) = Some [] /\
  (item_parent <$> heap m' !! 5) = Some (Some 2).
Proof. vm_compute. repeat split. Qed.

(** C3 fails on a comment: in the model loaded from [lamp_doc], the empty
    text is rejected on the comment item and the model stays as it was. *)
Lemma comment_rejects_empty_text :
  getType (heap (loaded lamp_doc)) (Some 9) = Ok nodeComment /\
  setData (loaded lamp_doc) (createIndex 3 0 (Some 9)) "" EditRole
  = Ok (false, loaded lamp_doc).
Proof. split; vm_compute; reflexivity. Qed.

(** C3 at a state item and the empty text: rejected, nothing changed. *)
Lemma setData_rename_contract_witness :
  exists ok m',
    setData one_state (createIndex 0 0 (Some 0)) "" EditRole = Ok (ok, m') /\
    ok = false /\ m' = one_state.
Proof.
  destruct (setData_rename_contract one_state (createIndex 0 0 (Some 0)) "" EditRole 0
              (mkItem nodeState None [] "s1" "Off" "" NoGeometry None None)
              eq_refl eq_refl)
    as (ok & m' & Hrun & _ & Hsame & _ & _ & Hstate & _).
  exists ok, m'. split; [exact Hrun|].
  assert (Hok : ok = false) by (apply Hstate; reflexivity).
  split; [exact Hok|apply Hsame; exact Hok].
Defined.

(** C4 in the model loaded from [lamp_doc], whose one comment holds the
    identifier the generator proposes. *)
Lemma generateID_spins_witness :
  generateID sample_rand 1000 (loaded lamp_doc) = Diverge.
Proof.
  apply generateID_spins_on_taken_candidate. vm_compute. eexists. reflexivity.
Defined.

(** C5 for three inserts, the second and third of which collide. *)
Lemma index_identifiers_unique_witness :
  exists ids m',
    addToMap_all 8 [("s", 4); ("s", 5); ("s_", 6)] blank = Ok (ids, m') /\
    NoDup ids /\
    Forall2 (fun c e => states_map m' !! c = Some e.2 /\ exists k, c = suffixed e.1 k)
            ids [("s", 4); ("s", 5); ("s_", 6)] /\
    states_map blank ⊆ states_map m'.
Proof. apply (proj2 (index_identifiers_unique 8)). vm_compute. lia. Defined.

Example three_inserts :
  exists m', addToMap_all 8 [("s", 4); ("s", 5); ("s_", 6)] blank
             = Ok (["s"; "s_"; "s__"], m').
Proof. eexists. vm_compute. reflexivity. Qed.

(** C6 fails when an edge ends at a comment: the document has two nodes
    below the top level and one edge between them, yet the comment is
    registered under the generated identifier only, the edge does not
    resolve and no transition is built. *)
Lemma comment_endpoint_unresolved :
  Forall (fun e =>
            node_id (edge_source e) ∈ every_node_id (hoisted (nodes comment_edge_doc)) /\
            node_id (edge_target e) ∈ every_node_id (hoisted (nodes comment_edge_doc)))
         (edges comment_edge_doc) /\
  count_nodes (hoisted (nodes comment_edge_doc)) = 2 /\
  length (edges comment_edge_doc) = 1 /\
  exists m',
    load comment_edge_doc = Ok m' /\
    childCount (heap m') (trans_root m') = Ok 0%Z /\
    states_map m' !! "c1" = None.
Proof.
  split; [repeat constructor|]. split; [reflexivity|]. split; [reflexivity|].
  eexists. split; [vm_compute; reflexivity|]. split; vm_compute; reflexivity.
Qed.

(** C6 at [lamp_doc]: five nodes below the top level, one of them a comment,
    and two edges between states. *)
Lemma loadGraph_converts_document_witness :
  exists m' sr tr itS itT,
    loadGraph sample_rand (parser_of lamp_doc) "SM" "State" 16 "sample.graphml" blank
      = Ok m' /\
    states_root m' = Some sr /\ heap m' !! sr = Some itS /\
    item_type itS = nodeStatesAggr /\
    trans_root m' = Some tr /\ heap m' !! tr = Some itT /\
    item_type itT = nodeTransitionsAggr /\
    mirrors "State" (heap m') (states_map m') 0 (length (heap m')) sr (item_children itS)
            (hoisted (nodes lamp_doc)) /\
    sum_list (map (subtree_size (length (heap m')) (heap m')) (item_children itS))
      = count_nodes (hoisted (nodes lamp_doc)) /\
    length (item_children itT) = length (edges lamp_doc) /\
    Forall2 (fun t e => heap m' !! t = Some (edge_item (states_map m') tr e) /\
                        resolvable (states_map m') e)
            (item_children itT) (edges lamp_doc).
Proof.
  apply (loadGraph_converts_document sample_rand (parser_of lamp_doc) "SM" "State" 16
           "sample.graphml" lamp_doc blank).
  - reflexivity.
  - vm_compute. lia.
  - simpl. repeat split; intros _; discriminate.
  - repeat constructor.
  - vm_compute. lia.
Defined.

(** C7, at a document with two comments below the top level: the second
    comment is never built, registered or attached, because the call that
    converts it does not return, whatever the random source and the fuel. *)
Theorem second_comment_never_converted :
  forall qrand title empty fuel file m,
    loadGraph qrand (parser_of two_comments_doc) title empty fuel file m = Diverge.
Proof. intros. eapply two_comments_spin; reflexivity. Qed.

(** [hasIndex] at a negative column: row 0, column -1 and no parent is
    reported as a valid address. *)
Lemma hasIndex_negative_column :
  hasIndex blank 0 (-1) invalidIndex = Ok true /\ (-1 <> 0)%Z.
Proof. split; [reflexivity|discriminate]. Qed.

(** [hasIndex] at the fourth row under the states container of [lamp_doc]. *)
Lemma hasIndex_valid_addresses_witness :
  hasIndex (loaded lamp_doc) 3 0 (createIndex 0 0 (Some 2)) = Ok true.
Proof.
  apply (hasIndex_valid_addresses (loaded lamp_doc) 3 0 (createIndex 0 0 (Some 2))).
  split; [lia|]. right. split; [reflexivity|].
  eexists. split; [vm_compute; reflexivity|]. simpl. lia.
Defined.

(** C9 at the addresses [dragged]. *)
Lemma mimeData_serializes_draggable_witness :
  mimeData (loaded lamp_doc) dragged
    = Ok (mkMimeData (cyberiadaStateMimeType (loaded lamp_doc))
                     (serialize_spec (loaded lamp_doc) dragged)) /\
  mimeTypes (loaded lamp_doc) = [cyberiadaStateMimeType (loaded lamp_doc)] /\
  (forall m0, CyberiadaSMModel_new "SM" "SM" "application/x-state" = Ok m0 ->
              cyberiadaStateMimeType m0 = "application/x-state") /\
  (forall fuel file m',
      loadGraph sample_rand (parser_of light_doc) "SM" "State" fuel file (loaded lamp_doc)
        = Ok m' ->
      cyberiadaStateMimeType m' = cyberiadaStateMimeType (loaded lamp_doc)) /\
  (forall index value role ok m',
      setData (loaded lamp_doc) index value role = Ok (ok, m') ->
      cyberiadaStateMimeType m' = cyberiadaStateMimeType (loaded lamp_doc)) /\
  (forall item target,
      cyberiadaStateMimeType (move item target (loaded lamp_doc))
      = cyberiadaStateMimeType (loaded lamp_doc)).
Proof.
  apply (mimeData_serializes_draggable sample_rand (parser_of light_doc) "SM" "SM" "State"
           "application/x-state" (loaded lamp_doc) dragged).
  repeat (apply Forall_cons; split;
          [intros Hv; first [discriminate Hv | eexists; vm_compute; reflexivity]|]).
  constructor.
Defined.

(** C10 at the default-constructed address. *)
Lemma index_invalid_parent_witness :
  index (loaded lamp_doc) 0 0 invalidIndex = Ok invalidIndex /\
  hasIndex (loaded lamp_doc) 0 0 invalidIndex = Ok true /\
  index (loaded lamp_doc) 0 0 invalidIndex = Ok invalidIndex /\
  isValid (rootIndex (loaded lamp_doc)) = true /\
  internalPointer (rootIndex (loaded lamp_doc)) = root (loaded lamp_doc) /\
  index (loaded lamp_doc) 0 0 invalidIndex <> Ok (rootIndex (loaded lamp_doc)).
Proof. apply index_invalid_parent. reflexivity. Defined.

(** ** The further properties on the sample documents *)

(** The model loaded from [lamp_doc], the item it holds at an address, and
    three of its addresses: the state s1 (row 1 of the states container),
    the state s2 (row 2), and the state s1 nested in s2, which the index
    holds under the key s1_. *)
Definition lamp : Model := loaded lamp_doc.

Definition lamp_item (a : nat) : Item :=
  match heap lamp !! a with
  | Some it => it
  | None => mkItem nodeRoot None [] "" "" "" NoGeometry None None
  end.

Definition lamp_s1 : QModelIndex := createIndex 1 0 (Some 6).
Definition lamp_s2 : QModelIndex := createIndex 2 0 (Some 7).
Definition lamp_nested : QModelIndex := createIndex 0 0 (Some 8).

(** A parser that reports an error for every file. *)
Definition failing_parser (file : string) : Z * CyberiadaSM := (1%Z, light_doc).

(** One more state named s1, to be put under s2 of [lamp]. *)
Definition another_s1 : CyberiadaNode :=
  NodeCons (state_node "s1" "Again") NodeNull NodeNull.

Definition lamp_grown : Model :=
  match addChildNodes sample_rand "State" 16 another_s1 (Some 7) false lamp with
  | Ok m => m
  | _ => blank
  end.

Definition lamp_renamed : Model :=
  match setData lamp lamp_s1 "Idle" EditRole with
  | Ok (_, m) => m
  | _ => blank
  end.

Lemma lamp_load :
  loadGraph sample_rand (parser_of lamp_doc) "SM" "State" 16 "sample.graphml" blank
  = Ok lamp.
Proof. vm_compute. reflexivity. Qed.

Lemma lamp_s2_reachable : reachable lamp lamp_s2.
Proof.
  apply (reach_child lamp (statesRootIndex lamp) 2); [|vm_compute; reflexivity..].
  apply (reach_child lamp (SMIndex lamp) 0); [|vm_compute; reflexivity..].
  apply (reach_child lamp (rootIndex lamp) 0); [|vm_compute; reflexivity..].
  apply reach_root.
Qed.

(** C8 at the first row and column -1 under the states container of the
    lamp. *)
Lemma hasIndex_accepts_negative_column_witness :
  hasIndex lamp 0 (-1) (statesRootIndex lamp) = Ok true /\
  hasIndex lamp 0 (-1) invalidIndex = Ok true /\
  columnCount lamp (statesRootIndex lamp) = 1%Z /\
  exists child,
    item_children (lamp_item 2) !! Z.to_nat 0 = Some child /\
    index lamp 0 (-1) (statesRootIndex lamp) = Ok (createIndex 0 (-1) (Some child)) /\
    isValid (createIndex 0 (-1) (Some child)) = false /\
    (forall role, data lamp (createIndex 0 (-1) (Some child)) role = Ok QVariant_invalid).
Proof.
  apply (hasIndex_accepts_negative_column lamp (statesRootIndex lamp) 2 (lamp_item 2)
           0 (-1)).
  - reflexivity.
  - vm_compute. reflexivity.
  - vm_compute. reflexivity.
  - vm_compute. split; [discriminate|reflexivity].
  - lia.
Defined.

(** X1 with a parser that fails, on a model that held the lamp. *)
Lemma loadGraph_parser_error_witness :
  exists m',
    loadGraph sample_rand failing_parser "SM" "State" 0 "broken.graphml" lamp = Ok m' /\
    reset "SM" lamp = Ok m' /\
    rowCount m' (statesRootIndex m') = Ok 0%Z /\
    rowCount m' (transitionsRootIndex m') = Ok 0%Z /\
    hasChildren m' (statesRootIndex m') = Ok false /\
    (forall id, idToItem m' id = None) /\
    sm_name m' = sm_name lamp /\
    sm_version m' = sm_version lamp.
Proof.
  apply (loadGraph_parser_error sample_rand failing_parser "SM" "State" 0
           "broken.graphml" 1 light_doc lamp).
  - reflexivity.
  - discriminate.
Defined.

(** X2 in the model loaded from [lamp_doc]. *)
Lemma loadGraph_fixed_skeleton_witness :
  rowCount lamp invalidIndex = Ok 1%Z /\
  rowCount lamp (rootIndex lamp) = Ok 1%Z /\
  index lamp 0 0 (rootIndex lamp) = Ok (SMIndex lamp) /\
  rowCount lamp (SMIndex lamp) = Ok 2%Z /\
  index lamp 0 0 (SMIndex lamp) = Ok (statesRootIndex lamp) /\
  index lamp 1 0 (SMIndex lamp) = Ok (transitionsRootIndex lamp) /\
  index lamp 2 0 (SMIndex lamp) = Ok invalidIndex /\
  parent lamp (statesRootIndex lamp) = Ok (SMIndex lamp) /\
  parent lamp (transitionsRootIndex lamp) = Ok (SMIndex lamp) /\
  parent lamp (SMIndex lamp) = Ok (rootIndex lamp) /\
  parent lamp (rootIndex lamp) = Ok invalidIndex /\
  isTrivialIndex lamp (rootIndex lamp) = true /\
  isTrivialIndex lamp (SMIndex lamp) = true /\
  isTrivialIndex lamp (statesRootIndex lamp) = true /\
  isTrivialIndex lamp (transitionsRootIndex lamp) = true.
Proof.
  apply (loadGraph_fixed_skeleton sample_rand (parser_of lamp_doc) "SM" "State" 16
           "sample.graphml" blank lamp).
  vm_compute. reflexivity.
Defined.

(** X3 for the lamp, whose document is named. *)
Lemma loadGraph_name_and_version_witness :
  sm_version lamp = "1.0" /\
  sm_name lamp = "Lamp" /\
  data lamp (SMIndex lamp) DisplayRole = Ok (QVariant_string "Lamp").
Proof.
  destruct (loadGraph_name_and_version sample_rand (parser_of lamp_doc) "SM" "State" 16
              "sample.graphml" lamp_doc blank lamp eq_refl lamp_load)
    as (Hversion & Hnamed & _).
  split; [exact Hversion|]. apply Hnamed. discriminate.
Defined.

(** X4 when a third state named s1 is put under s2 of the lamp. *)
Lemma addChildNodes_keeps_index_and_items_witness :
  (forall id p, idToItem lamp id = Some p -> idToItem lamp_grown id = Some p) /\
  (forall q it, q <> 7 -> heap lamp !! q = Some it -> heap lamp_grown !! q = Some it) /\
  (forall itP, heap lamp !! 7 = Some itP ->
               exists ps, childCount (heap lamp_grown) (Some 7)
                          = Ok (Z.of_nat (length (item_children itP ++ ps))) /\
                          heap lamp_grown !! 7
                          = Some (with_children itP (item_children itP ++ ps))) /\
  root lamp_grown = root lamp /\ sm_root lamp_grown = sm_root lamp /\
  states_root lamp_grown = states_root lamp /\ trans_root lamp_grown = trans_root lamp.
Proof.
  apply (addChildNodes_keeps_index_and_items sample_rand "State" 16 another_s1 7 false
           lamp lamp_grown).
  - vm_compute. reflexivity.
  - vm_compute. lia.
Defined.

(** X5 for the taken identifier s1 in the lamp. *)
Lemma addToMap_then_idToItem_witness :
  exists m',
    addToMap 16 "s1" 20 lamp = Ok m' /\
    is_Some (idToItem m' "s1") /\
    (idToItem lamp "s1" = None -> idToItem m' "s1" = Some 20) /\
    (forall p, idToItem lamp "s1" = Some p -> idToItem m' "s1" = Some p) /\
    (exists k, idToItem lamp k = None /\ idToItem m' k = Some 20) /\
    (forall k p, idToItem lamp k = Some p -> idToItem m' k = Some p).
Proof. apply (addToMap_then_idToItem 16 "s1" 20 lamp). vm_compute. lia. Defined.

(** X6 for the rename of s1 to Idle. *)
Lemma setData_then_data_witness :
  data lamp_renamed lamp_s1 DisplayRole = Ok (QVariant_string "Idle") /\
  data lamp_renamed lamp_s1 EditRole = Ok (QVariant_string "Idle") /\
  data lamp_renamed lamp_s1 ToolTipRole = Ok (QVariant_string "Idle") /\
  (forall j r, internalPointer j <> internalPointer lamp_s1 ->
               data lamp_renamed j r = data lamp j r) /\
  map item_children (heap lamp_renamed) = map item_children (heap lamp) /\
  map item_type (heap lamp_renamed) = map item_type (heap lamp) /\
  states_map lamp_renamed = states_map lamp /\
  signals lamp_renamed = signals lamp ++ [dataChanged lamp_s1 lamp_s1].
Proof.
  apply (setData_then_data lamp lamp_renamed lamp_s1 "Idle" EditRole).
  - vm_compute. reflexivity.
  - vm_compute. discriminate.
Defined.

(** X7 at the state s1 of the lamp. *)
Lemma flags_agree_with_setData_and_mimeData_witness :
  exists fl,
    flags lamp lamp_s1 = Ok fl /\
    testFlag fl ItemIsEnabled = true /\ testFlag fl ItemIsSelectable = true /\
    (testFlag fl ItemIsEditable = true
     <-> exists m', setData lamp lamp_s1 "Idle" EditRole = Ok (true, m')) /\
    (testFlag fl ItemIsDragEnabled = true
     <-> mimeData_stream lamp [lamp_s1] = Ok [item_id (lamp_item 6)]) /\
    (testFlag fl ItemIsDragEnabled = false <-> mimeData_stream lamp [lamp_s1] = Ok []) /\
    (testFlag fl ItemIsDropEnabled = true
     <-> item_type (lamp_item 6) = nodeState \/ lamp_s1 = statesRootIndex lamp).
Proof.
  apply (flags_agree_with_setData_and_mimeData lamp lamp_s1 6 (lamp_item 6) "Idle").
  - reflexivity.
  - reflexivity.
  - reflexivity.
  - vm_compute. reflexivity.
  - vm_compute. discriminate.
  - vm_compute. discriminate.
  - discriminate.
Defined.

(** X8 at the states container of the lamp, which has four rows. *)
Lemma index_agrees_with_rowCount_witness :
  rowCount lamp (statesRootIndex lamp)
  = Ok (Z.of_nat (length (item_children (lamp_item 2)))) /\
  hasChildren lamp (statesRootIndex lamp)
  = Ok (negb (bool_decide (item_children (lamp_item 2) = []))) /\
  (forall r, (0 <= r < Z.of_nat (length (item_children (lamp_item 2))))%Z ->
             exists c, item_children (lamp_item 2) !! Z.to_nat r = Some c /\
                       hasIndex lamp r 0 (statesRootIndex lamp) = Ok true /\
                       index lamp r 0 (statesRootIndex lamp)
                       = Ok (createIndex r 0 (Some c))) /\
  (forall r, ~ (0 <= r < Z.of_nat (length (item_children (lamp_item 2))))%Z ->
             hasIndex lamp r 0 (statesRootIndex lamp) = Ok false /\
             index lamp r 0 (statesRootIndex lamp) = Ok invalidIndex) /\
  (forall r c, (0 < c)%Z ->
               hasIndex lamp r c (statesRootIndex lamp) = Ok false /\
               index lamp r c (statesRootIndex lamp) = Ok invalidIndex).
Proof.
  apply (index_agrees_with_rowCount lamp (statesRootIndex lamp) 2 (lamp_item 2)).
  - reflexivity.
  - reflexivity.
  - vm_compute. reflexivity.
  - vm_compute. reflexivity.
Defined.

(** X9 from s2 of the lamp down to the state nested in it and back. *)
Lemma parent_inverts_index_witness :
  parent lamp lamp_nested = Ok lamp_s2 /\
  row lamp_nested = 0%Z /\ column lamp_nested = 0%Z /\
  (exists itc, deref (heap lamp) (internalPointer lamp_nested) = Ok itc) /\
  reachable lamp lamp_nested.
Proof.
  apply (parent_inverts_index sample_rand (parser_of lamp_doc) "SM" "State" 16
           "sample.graphml" blank lamp lamp_s2 0 lamp_nested).
  - vm_compute. reflexivity.
  - exact lamp_s2_reachable.
  - vm_compute. reflexivity.
  - reflexivity.
Defined.

(** X10 for the state s1 and the initial state of the lamp. *)
Lemma getIndexIcon_tells_categories_apart_witness :
  exists ici icj,
    getIndexIcon lamp lamp_s1 = Ok ici /\
    getIndexIcon lamp (createIndex 0 0 (Some 5)) = Ok icj /\
    (ici = icj <-> item_type (lamp_item 6) = item_type (lamp_item 5)) /\
    (ici = emptyIcon <-> item_type (lamp_item 6) = nodeRoot) /\
    getIndexIcon lamp invalidIndex = Ok emptyIcon /\
    (column lamp_s1 = 0%Z -> lamp_s1 <> rootIndex lamp ->
     data lamp lamp_s1 DecorationRole = Ok (QVariant_icon ici)).
Proof.
  apply (getIndexIcon_tells_categories_apart lamp lamp_s1 (createIndex 0 0 (Some 5)) 6 5
           (lamp_item 6) (lamp_item 5)).
  - reflexivity.
  - reflexivity.
  - vm_compute. reflexivity.
  - reflexivity.
  - reflexivity.
  - vm_compute. reflexivity.
Defined.

(** X11 for a drag of the state s1 of the lamp. *)
Lemma startDrag_payload_witness :
  exists d,
    startDrag lamp lamp_s1 = Ok d /\
    drag_action d = supportedDropActions lamp /\
    mimeTypes lamp = [mime_format (drag_mimeData d)] /\
    getIndexIcon lamp lamp_s1 = Ok (drag_icon d) /\
    mime_stream (drag_mimeData d)
    = (if draggable_address lamp lamp_s1 then [address_id lamp lamp_s1] else []).
Proof.
  apply (startDrag_payload lamp lamp_s1).
  intros _. exists (lamp_item 6). vm_compute. reflexivity.
Defined.

(** X12 in a model with an empty index. *)
Lemma generateID_returns_iff_candidate_free_witness :
  (states_map blank !! "id-%d" = None
   <-> exists s m', generateID sample_rand 16 blank = Ok (s, m')) /\
  (forall s m', generateID sample_rand 16 blank = Ok (s, m') ->
                s = "id-%d" /\ idToItem blank s = None /\
                m' = set_rand_calls (S (rand_calls blank)) blank /\
                heap m' = heap blank /\ states_map m' = states_map blank).
Proof. apply (generateID_returns_iff_candidate_free sample_rand 16 blank). lia. Defined.

(** X13 for the index of the lamp. *)
Lemma loaded_index_is_sound_witness :
  (forall id p, idToItem lamp id = Some p ->
     exists it, deref (heap lamp) (Some p) = Ok it /\
                (item_type it = nodeState \/ item_type it = nodeInitialState \/
                 item_type it = nodeComment) /\
                (exists j, id = suffixed (item_id it) j) /\
                Some p <> root lamp /\ Some p <> sm_root lamp /\
                Some p <> states_root lamp /\ Some p <> trans_root lamp) /\
  (forall id id' p, idToItem lamp id = Some p -> idToItem lamp id' = Some p -> id = id').
Proof.
  apply (loaded_index_is_sound sample_rand (parser_of lamp_doc) "SM" "State" 16
           "sample.graphml" blank lamp).
  vm_compute. reflexivity.
Defined.

(** X14 at the second transition of the lamp. *)
Lemma loaded_transitions_have_live_endpoints_witness :
  exists t itt s g its itg,
    internalPointer (createIndex 1 0 (Some 11)) = Some t /\ heap lamp !! t = Some itt /\
    isTransitionIndex lamp (createIndex 1 0 (Some 11)) = Ok true /\
    item_type itt = nodeTransition /\ item_children itt = [] /\
    item_parent itt = trans_root lamp /\
    item_source itt = Some s /\ item_target itt = Some g /\
    heap lamp !! s = Some its /\ heap lamp !! g = Some itg /\
    node_category (item_type its) = true /\ node_category (item_type itg) = true /\
    (exists ids, idToItem lamp ids = Some s) /\ (exists idg, idToItem lamp idg = Some g).
Proof.
  apply (loaded_transitions_have_live_endpoints sample_rand (parser_of lamp_doc) "SM"
           "State" 16 "sample.graphml" blank lamp 1 (createIndex 1 0 (Some 11))).
  - vm_compute. reflexivity.
  - vm_compute. reflexivity.
  - reflexivity.
Defined.

(** X15 below s2 of the lamp: the nested state is named s1 and is held under
    the key s1_. *)
Lemma loaded_states_tree_is_indexed_witness :
  exists c itc id,
    internalPointer lamp_nested = Some c /\ heap lamp !! c = Some itc /\
    node_category (item_type itc) = true /\
    idToItem lamp id = Some c /\
    (exists j, id = suffixed (item_id itc) j) /\
    (idToItem lamp (item_id itc) = Some c <-> id = item_id itc).
Proof.
  apply (loaded_states_tree_is_indexed sample_rand (parser_of lamp_doc) "SM" "State" 16
           "sample.graphml" blank lamp lamp_s2 7 (lamp_item 7) 0 lamp_nested).
  - vm_compute. reflexivity.
  - reflexivity.
  - reflexivity.
  - vm_compute. reflexivity.
  - vm_compute. discriminate.
  - vm_compute. discriminate.
  - vm_compute. discriminate.
  - vm_compute. reflexivity.
  - reflexivity.
Defined.
